(** * The impulse journal

    A shallow embedding of the Express server of the impulse journal (the
    TypeScript file with the routes [/api/login], [/api/logs],
    [/api/analyze-emotion], [/api/chat] and [/api/reports], the middleware
    [authenticate] and [initializeDatabase]) and of the logic of its pages
    (the authentication context, the chat, the dashboard and the reports),
    with the properties of its specification and further properties of
    the code.

    Conventions of the embedding.
    - A JavaScript string is the list of its UTF-16 code units.
    - A timestamp is a wall-clock instant in milliseconds (what a
      [TIMESTAMP] column holds and what a JavaScript [Date] shows in local
      time); the server and the database share one clock and one zone.
    - The PostgreSQL tables are lists of rows in physical order, each with
      its [SERIAL] sequence; a query is a function on them.  [ORDER BY] is
      a stable sort: rows with equal keys keep their order.
    - A route handler runs after the [authenticate] middleware has let the
      request through.  What the handler reads from outside (the clock, the
      completion service's answer) comes in an [Env]; what it changes (the
      tables, the calls made to the service, the console) is the [World].
      The table [users], which only the login and the initialization
      touch, stands apart in [Accounts].
    - What the libraries compute (bcryptjs, jsonwebtoken, the locale of
      the host) is a variable of the section that needs it; what a
      property has to know of it is a hypothesis there.
    - A page is the state of its component; a handler that awaits the
      server is the step up to the request and the step from the answer.
      A handler that asks the server twice takes the two answers one
      after the other, with no request of another page between them.
    - Faults of the connection to the database are not part of the model:
      a query fails only when PostgreSQL rejects the statement.  Neither
      are the rate limiter and the parser of the request body: a request
      is one that has come through both. *)

From Stdlib Require Import ZArith NArith List String Ascii Lia Bool DecimalString.
From Stdlib Require Import PrimFloat FloatOps Uint63.
From stdpp Require Import base tactics option list numbers sorting.

Import ListNotations.
Local Open Scope Z_scope.
Set Warnings "-register-all,-clear-no-such-hyp".

(** ** JavaScript strings *)

Abbreviation jsstring := (list N).

Fixpoint bytes_of (s : string) : list N :=
  match s with
  | EmptyString => []
  | String c r => N_of_ascii c :: bytes_of r
  end.

(** The low six bits of a UTF-8 continuation byte. *)
Definition cont (b : N) : N := N.land b 63.

(** UTF-8 to UTF-16: how the compiler reads the literals of the source. *)
Fixpoint utf16_of_utf8 (b : list N) : list N :=
  match b with
  | [] => []
  | b0 :: r0 =>
    if (b0 <? 128)%N then b0 :: utf16_of_utf8 r0
    else match r0 with
    | [] => [65533%N]
    | b1 :: r1 =>
      if (b0 <? 224)%N then
        (N.shiftl (N.land b0 31) 6 + cont b1)%N :: utf16_of_utf8 r1
      else match r1 with
      | [] => [65533%N]
      | b2 :: r2 =>
        if (b0 <? 240)%N then
          (N.shiftl (N.land b0 15) 12 + N.shiftl (cont b1) 6 + cont b2)%N
            :: utf16_of_utf8 r2
        else match r2 with
        | [] => [65533%N]
        | b3 :: r3 =>
          let cp := (N.shiftl (N.land b0 7) 18 + N.shiftl (cont b1) 12
                     + N.shiftl (cont b2) 6 + cont b3 - 65536)%N in
          (55296 + N.shiftr cp 10)%N :: (56320 + N.land cp 1023)%N
            :: utf16_of_utf8 r3
        end
      end
    end
  end.

(** A literal of the source as a JavaScript string. *)
Definition js (s : string) : jsstring := utf16_of_utf8 (bytes_of s).

(** [WhiteSpace] and [LineTerminator] of ECMAScript: what [\s] matches and
    what [trim] strips. *)
Definition isWhiteSpace (c : N) : bool :=
  ((9 <=? c) && (c <=? 13) || (c =? 32) || (c =? 160) || (c =? 5760)
   || (8192 <=? c) && (c <=? 8202) || (c =? 8232) || (c =? 8233)
   || (c =? 8239) || (c =? 8287) || (c =? 12288) || (c =? 65279))%N.

(** [s.trim() === ''] *)
Definition trim_is_empty (s : jsstring) : bool := forallb isWhiteSpace s.

(** [!x || x.trim() === ''] for a field that is absent or a string. *)
Definition blank (x : option jsstring) : bool :=
  match x with
  | None => true
  | Some s => trim_is_empty s
  end.

(** [a.join(sep)] *)
Fixpoint join (sep : jsstring) (a : list jsstring) : jsstring :=
  match a with
  | [] => []
  | [x] => x
  | x :: r => x ++ sep ++ join sep r
  end.

(** ** The tables *)

(** A row of [impulse_logs]. *)
Record impulse_logs_row := {
  row_id : Z;
  row_datetime : Z;
  row_feeling : jsstring;
  row_acted : jsstring;
  row_created_at : Z
}.

(** What [SELECT datetime, feeling, acted] gives the handlers. *)
Record Log := {
  datetime : Z;
  feeling : jsstring;
  acted : jsstring
}.

Definition project (r : impulse_logs_row) : Log :=
  {| datetime := row_datetime r; feeling := row_feeling r; acted := row_acted r |}.

(** A row of [reports]; [week_start] and [week_end] are [DATE]s, counted in
    days. *)
Record reports_row := {
  report_id : Z;
  week_start : Z;
  week_end : Z;
  content : jsstring;
  report_created_at : Z
}.

Record Db := {
  impulse_logs : list impulse_logs_row;
  impulse_logs_id_seq : Z;
  reports : list reports_row;
  reports_id_seq : Z
}.

Definition msPerDay : Z := 86400000.
Definition msPerHour : Z := 3600000.

(** The cast of a timestamp to [DATE]. *)
Definition date_of (t : Z) : Z := t / msPerDay.

(** ** The world the handlers run in *)

(** The conditions PostgreSQL rejects a statement with. *)
Inductive SqlState :=
  | not_null_violation (column : string)
  | check_violation
  | string_data_right_truncation
  | invalid_datetime_format
  | numeric_value_out_of_range
  | character_not_in_repertoire.

(** What a [try] block can throw: [pool.query] rejects with a database
    error, [openai.chat.completions.create] with the client's error. *)
Inductive Exn :=
  | DatabaseError (code : SqlState)
  | OpenAIError (message : jsstring).

Record Message := { role : jsstring; msg_content : jsstring }.

(** The argument of [openai.chat.completions.create].  The model name,
    which comes from the process environment, and the temperature, 0.7 in
    every call, are left out. *)
Record ChatRequest := {
  messages : list Message;
  max_tokens : Z
}.

(** The service's answer: an error, or [choices[0].message.content], which
    is a string or [null]. *)
Inductive Completion :=
  | Rejected (message : jsstring)
  | Replied (text : option jsstring).

Record World := {
  db : Db;
  openai_calls : list ChatRequest;
  console : list (jsstring * Exn)
}.

(** What a handler reads from outside: [new Date()] as the block first and
    then again reads it, PostgreSQL's [NOW()], and the answer the
    completion service gives to the call the handler makes. *)
Record Env := {
  clock : Z;
  clock' : Z;
  pg_now : Z;
  completion : Completion
}.

(** The body of an [async] handler's [try] block. *)
Definition M (A : Type) : Type := World -> (Exn + A) * World.

#[global] Instance M_ret : MRet M := fun A a w => (inr a, w).
#[global] Instance M_bind : MBind M := fun A B f m w =>
  match m w with
  | (inl e, w') => (inl e, w')
  | (inr a, w') => f a w'
  end.

Definition get_db : M Db := fun w => (inr (db w), w).

(** [console.error(label, error)] *)
Definition console_error (label : jsstring) (e : Exn) (w : World) : World :=
  {| db := db w; openai_calls := openai_calls w;
     console := console w ++ [(label, e)] |}.

(** [await openai.chat.completions.create(req)] *)
Definition create (env : Env) (req : ChatRequest) : M (option jsstring) := fun w =>
  let w' := {| db := db w; openai_calls := openai_calls w ++ [req];
               console := console w |} in
  match completion env with
  | Rejected m => (inl (OpenAIError m), w')
  | Replied t => (inr t, w')
  end.

(** ** Responses *)

Inductive json :=
  | JNull
  | JBool (b : bool)
  | JNumber (negative : bool) (mantissa : N) (exponent10 : Z)
  | JString (s : jsstring)
  | JArray (items : list json)
  | JObject (members : list (jsstring * json)).

Inductive Payload :=
  | NoContent
  | Error (error : jsstring)
  | LogRow (r : impulse_logs_row)
  | LogRows (rs : list impulse_logs_row)
  | ReportRow (r : reports_row)
  | ReportRows (rs : list reports_row)
  | Json (j : json)
  | Reply (reply : jsstring).

Record Response := { status : Z; payload : Payload }.

(** [try { body } catch (error) { console.error(label, error);
    res.status(500).json({ error: message }) }] *)
Definition try_catch (body : M Response) (label message : jsstring) (w : World)
  : Response * World :=
  match body w with
  | (inr r, w') => (r, w')
  | (inl e, w') =>
    ({| status := 500; payload := Error message |}, console_error label e w')
  end.

(** ** Queries *)

(** [ORDER BY]: [before y x] says that [y] sorts strictly before [x]; a row
    goes behind the rows that sort before it and ahead of the others. *)
Fixpoint place {A} (before : A -> A -> bool) (x : A) (l : list A) : list A :=
  match l with
  | [] => [x]
  | y :: r => if before y x then y :: place before x r else x :: y :: r
  end.

Definition order_by {A} (before : A -> A -> bool) (l : list A) : list A :=
  foldr (place before) [] l.

Definition datetime_asc (a b : impulse_logs_row) : bool :=
  row_datetime a <? row_datetime b.

Definition datetime_desc (a b : impulse_logs_row) : bool :=
  row_datetime b <? row_datetime a.

(** [SELECT * FROM impulse_logs ORDER BY datetime DESC] *)
Definition select_logs (d : Db) : list impulse_logs_row :=
  order_by datetime_desc (impulse_logs d).

(** [SELECT datetime, feeling, acted FROM impulse_logs
    WHERE datetime BETWEEN $1 AND $2 ORDER BY datetime] *)
Definition select_between (d : Db) (t1 t2 : Z) : list Log :=
  project <$> order_by datetime_asc
    (filter (fun r => t1 <= row_datetime r <= t2) (impulse_logs d)).

(** [SELECT datetime, feeling, acted FROM impulse_logs
    WHERE datetime >= NOW() - INTERVAL '7 days'
    ORDER BY datetime DESC LIMIT 10] *)
Definition select_recent (d : Db) (now : Z) : list Log :=
  project <$> take 10 (order_by datetime_desc
    (filter (fun r => now - 7 * msPerDay <= row_datetime r) (impulse_logs d))).

(** A [$n] parameter for a timestamp column: [null] or absent, a text
    PostgreSQL does not read as a timestamp, or an instant. *)
Inductive TimestampParam :=
  | TsNull
  | TsInvalid
  | Ts (t : Z).

(** Binding the parameters, before the statement runs: a timestamp must
    be readable, and PostgreSQL's text types hold no NUL character. *)
Definition bind_timestamp (p : TimestampParam) : SqlState + option Z :=
  match p with
  | TsInvalid => inl invalid_datetime_format
  | TsNull => inr None
  | Ts t => inr (Some t)
  end.

Definition has_nul (s : option jsstring) : bool :=
  match s with
  | None => false
  | Some s => existsb (N.eqb 0) s
  end.

(** [VARCHAR(10)]: a longer value is refused unless the surplus is spaces. *)
Definition too_long (a : option jsstring) : bool :=
  match a with
  | None => false
  | Some s => negb (forallb (N.eqb 32) (drop 10 s))
  end.

(** [CHECK (acted IN ('yes', 'no'))] on the value cut to ten characters. *)
Definition acted_check (s : jsstring) : bool :=
  bool_decide (take 10 s = js "yes") || bool_decide (take 10 s = js "no").

(** The constraints of [impulse_logs] on a new row: the length of
    [acted], the [NOT NULL]s in column order, the [CHECK]. *)
Definition impulse_logs_constraints (dt : option Z) (f a : option jsstring)
  : SqlState + (Z * jsstring * jsstring) :=
  if too_long a then inl string_data_right_truncation
  else match dt, f, a with
  | None, _, _ => inl (not_null_violation "datetime")
  | Some _, None, _ => inl (not_null_violation "feeling")
  | Some _, Some _, None => inl (not_null_violation "acted")
  | Some t, Some f, Some a =>
    if acted_check a then inr (t, f, take 10 a) else inl check_violation
  end.

Definition set_impulse_logs (d : Db) (rows : list impulse_logs_row) (seq : Z) : Db :=
  {| impulse_logs := rows; impulse_logs_id_seq := seq;
     reports := reports d; reports_id_seq := reports_id_seq d |}.

Definition set_reports (d : Db) (rows : list reports_row) (seq : Z) : Db :=
  {| impulse_logs := impulse_logs d; impulse_logs_id_seq := impulse_logs_id_seq d;
     reports := rows; reports_id_seq := seq |}.

Definition with_db (w : World) (d : Db) : World :=
  {| db := d; openai_calls := openai_calls w; console := console w |}.

(** [INSERT INTO impulse_logs (datetime, feeling, acted)
    VALUES ($1, $2, $3) RETURNING *].  The sequence gives the id before
    the constraints are checked, and keeps the step when they fail. *)
Definition insert_impulse_logs (env : Env) (dt : TimestampParam)
    (f a : option jsstring) : M impulse_logs_row := fun w =>
  let d := db w in
  match bind_timestamp dt with
  | inl e => (inl (DatabaseError e), w)
  | inr t =>
    if has_nul f || has_nul a
    then (inl (DatabaseError character_not_in_repertoire), w)
    else
      let id := impulse_logs_id_seq d in
      match impulse_logs_constraints t f a with
      | inl e =>
        (inl (DatabaseError e),
         with_db w (set_impulse_logs d (impulse_logs d) (id + 1)))
      | inr (t, f, a) =>
        let r := {| row_id := id; row_datetime := t; row_feeling := f;
                    row_acted := a; row_created_at := pg_now env |} in
        (inr r, with_db w (set_impulse_logs d (impulse_logs d ++ [r]) (id + 1)))
      end
  end.

(** The range of the [INTEGER] column [id]. *)
Definition int4 (n : Z) : bool := (-2147483648 <=? n) && (n <=? 2147483647).

(** [DELETE FROM impulse_logs WHERE id = $1] *)
Definition delete_impulse_logs (id : Z) : M unit := fun w =>
  let d := db w in
  if int4 id then
    (inr tt, with_db w (set_impulse_logs d
       (filter (fun r => row_id r <> id) (impulse_logs d)) (impulse_logs_id_seq d)))
  else (inl (DatabaseError numeric_value_out_of_range), w).

(** [TRUNCATE TABLE impulse_logs RESTART IDENTITY] *)
Definition truncate_impulse_logs : M unit := fun w =>
  (inr tt, with_db w (set_impulse_logs (db w) [] 1)).

(** ** The routes of the log store *)

Definition database_error : jsstring := js "数据库错误".

(** [GET /api/logs] *)
Definition get_logs : World -> Response * World :=
  try_catch
    (d ← get_db; mret {| status := 200; payload := LogRows (select_logs d) |})
    [] database_error.

(** The body of [POST /api/logs]. *)
Record LogBody := {
  body_datetime : TimestampParam;
  body_feeling : option jsstring;
  body_acted : option jsstring
}.

(** [POST /api/logs] *)
Definition post_logs (env : Env) (body : LogBody) : World -> Response * World :=
  try_catch
    (r ← insert_impulse_logs env (body_datetime body) (body_feeling body)
           (body_acted body);
     mret {| status := 201; payload := LogRow r |})
    [] database_error.

(** [DELETE /api/logs/:id]; the route parameter as the integer it writes. *)
Definition delete_logs_id (id : Z) : World -> Response * World :=
  try_catch
    (_ ← delete_impulse_logs id; mret {| status := 204; payload := NoContent |})
    [] database_error.

(** [DELETE /api/logs] *)
Definition delete_logs : World -> Response * World :=
  try_catch
    (_ ← truncate_impulse_logs; mret {| status := 204; payload := NoContent |})
    [] database_error.

(** ** Numbers

    A JavaScript number is a binary64 double.  The counts of the report
    are integers far below 2^53, which doubles hold exactly; only the
    quotient and the product of the resistance rate are rounded.  A finite
    double that is not negative is written [mant * 2 ^ expo]. *)

Record double := { mant : Z; expo : Z }.

(** [n / d] rounded to the nearest integer, ties to the even one. *)
Definition nearest_even (n d : Z) : Z :=
  let q := n / d in
  let r := n mod d in
  if 2 * r <? d then q
  else if d <? 2 * r then q + 1
  else if Z.even q then q else q + 1.

(** The fraction [p / q] divided by [2 ^ k], as a fraction. *)
Definition scaled (p q k : Z) : Z * Z :=
  if 0 <=? k then (p, q * 2 ^ k) else (p * 2 ^ (- k), q).

(** The integer part of the binary logarithm of [p / q]. *)
Definition ilog2 (p q : Z) : Z :=
  let k := Z.log2 p - Z.log2 q in
  let '(n, d) := scaled p q k in
  if d <=? n then k else k - 1.

(** Rounding to binary64, to nearest and ties to even, of the fraction
    [p / q] with [0 <= p] and [0 < q]: 53 bits of mantissa, exponents
    from -1074 up (the subnormal numbers share the lowest one).  Overflow
    to infinity is left out: the values of this program are below 2^60. *)
Definition round64 (p q : Z) : double :=
  if p =? 0 then {| mant := 0; expo := 0 |}
  else
    let e := Z.max (ilog2 p q - 52) (-1074) in
    let '(n, d) := scaled p q e in
    let m := nearest_even n d in
    if m =? 2 ^ 53 then {| mant := 2 ^ 52; expo := e + 1 |}
    else {| mant := m; expo := e |}.

(** An integer below 2^53 as a double. *)
Definition Number (n : Z) : double := round64 n 1.

(** [a / b] on doubles, for [b] other than zero. *)
Definition fdiv (a b : double) : double :=
  let '(n, d) := scaled (mant a) (mant b) (expo b - expo a) in
  round64 n d.

(** [a * b] on doubles. *)
Definition fmul (a b : double) : double :=
  let '(n, d) := scaled (mant a * mant b) 1 (- (expo a + expo b)) in
  round64 n d.

(** [Math.round]: the nearest integer, a tie going up. *)
Definition Math_round (x : double) : Z :=
  if 0 <=? expo x then mant x * 2 ^ expo x
  else (2 * mant x + 2 ^ (- expo x)) / 2 ^ (1 - expo x).

(** The same computation on the machine's doubles. *)
Definition machine (n : Z) : float := PrimFloat.of_uint63 (Uint63.of_Z n).

Definition to_machine (x : double) : float :=
  Z.ldexp (machine (mant x)) (expo x).

(** [String(n)] for an integer. *)
Definition String_of (n : Z) : jsstring :=
  bytes_of (NilZero.string_of_int (Z.to_int n)).

(** ** The statistics of the weekly report *)

(** [logs.filter(log => log.acted === 'yes').length] *)
Definition actedImpulses (logs : list Log) : nat :=
  length (filter (fun log => acted log = js "yes") logs).

Definition totalImpulses (logs : list Log) : nat := length logs.

Definition resistedImpulses (logs : list Log) : nat :=
  totalImpulses logs - actedImpulses logs.

(** [Math.round((resistedImpulses / totalImpulses) * 100)] *)
Definition resistanceRate (logs : list Log) : Z :=
  Math_round
    (fmul (fdiv (Number (Z.of_nat (resistedImpulses logs)))
                (Number (Z.of_nat (totalImpulses logs))))
          (Number 100)).

(** [new Date(t).getHours()]: the hour of the day, or [NaN] ([None]) for
    an instant beyond the 8.64e15 milliseconds a [Date] can hold. *)
Definition getHours (t : Z) : option Z :=
  if Z.abs t <=? 8640000000000000 then Some ((t / msPerHour) mod 24) else None.

(** [hourlyStats[hour]++]; with [NaN] for the hour the array keeps its
    twenty-four counts. *)
Definition count_hour (stats : list nat) (log : Log) : list nat :=
  match getHours (datetime log) with
  | Some hour => alter S (Z.to_nat hour) stats
  | None => stats
  end.

(** [hourlyStats]: [new Array(24).fill(0)], then one [hourlyStats[hour]++]
    per log. *)
Definition hourlyStats (logs : list Log) : list nat :=
  fold_left count_hour logs (replicate 24 0%nat).

(** [Math.max(...a)] for an array of counts that is not empty. *)
Definition Math_max (a : list nat) : nat := foldr Nat.max 0%nat a.

(** [a.indexOf(v)] *)
Fixpoint indexOf (a : list nat) (v : nat) : Z :=
  match a with
  | [] => -1
  | x :: r =>
    if (x =? v)%nat then 0
    else let i := indexOf r v in if i <? 0 then -1 else i + 1
  end.

Definition peakHour (logs : list Log) : Z :=
  indexOf (hourlyStats logs) (Math_max (hourlyStats logs)).

(** [s.split(/\s+/)]: the pieces between the runs of white space.  The
    head of the result is the piece being read; [in_space] says that the
    code unit before was white space. *)
Fixpoint split_from (in_space : bool) (s : jsstring) : list jsstring :=
  match s with
  | [] => [[]]
  | c :: r =>
    if isWhiteSpace c then
      if in_space then split_from true r else [] :: split_from true r
    else
      match split_from false r with
      | w :: ws => (c :: w) :: ws
      | [] => [[c]]
      end
  end.

Definition split (s : jsstring) : list jsstring := split_from false s.

(** An object used as a table of counts: its own properties in the order
    of their creation. *)
Abbreviation Record_number := (list (jsstring * nat)).

(** [obj[word] = (obj[word] || 0) + 1], for a [word] that is not a name
    [Object.prototype] defines. *)
Fixpoint bump (word : jsstring) (obj : Record_number) : Record_number :=
  match obj with
  | [] => [(word, 1%nat)]
  | (k, n) :: r =>
    if bool_decide (k = word) then (k, S n) :: r else (k, n) :: bump word r
  end.

(** The names every object inherits from [Object.prototype]: reading one
    of them from an empty table gives a function or an object, not
    [undefined], and the tally above does not describe them. *)
Definition Object_prototype_names : list jsstring :=
  [js "constructor"; js "__proto__"; js "hasOwnProperty"; js "isPrototypeOf";
   js "propertyIsEnumerable"; js "toLocaleString"; js "toString"; js "valueOf";
   js "__defineGetter__"; js "__defineSetter__"; js "__lookupGetter__";
   js "__lookupSetter__"].

Definition digit (c : N) : bool := ((48 <=? c) && (c <=? 57))%N.

Definition digits_value (s : jsstring) : N :=
  fold_left (fun v c => (10 * v + (c - 48))%N) s 0%N.

(** A property name that is an array index: the decimal writing, without
    leading zeros, of an integer below 2^32 - 1. *)
Definition array_index (k : jsstring) : option N :=
  match k with
  | [] => None
  | c :: r =>
    if forallb digit k && (negb (c =? 48)%N || bool_decide (r = []))
       && (digits_value k <? 4294967295)%N
    then Some (digits_value k) else None
  end.

Definition index_before (a b : jsstring * nat) : bool :=
  match array_index a.1, array_index b.1 with
  | Some i, Some j => (i <? j)%N
  | _, _ => false
  end.

(** [Object.entries(obj)]: the array indices in ascending order, then the
    other names in the order of their creation. *)
Definition Object_entries (obj : Record_number) : list (jsstring * nat) :=
  order_by index_before (filter (fun e => is_Some (array_index e.1)) obj)
  ++ filter (fun e => ¬ is_Some (array_index e.1)) obj.

(** The comparison [(a, b) => b[1] - a[1]]: the larger count first. *)
Definition count_desc (a b : jsstring * nat) : bool := (b.2 <? a.2)%nat.

(** ** [JSON.parse]

    The grammar of ECMA-404 on code units.  A number keeps the decimal it
    writes, a sign and [mantissa * 10 ^ exponent10]; an object keeps its
    members as written.  [None] stands for the [SyntaxError] thrown. *)

Definition json_space (c : N) : bool :=
  ((c =? 9) || (c =? 10) || (c =? 13) || (c =? 32))%N.

Fixpoint skip_space (s : jsstring) : jsstring :=
  match s with
  | c :: r => if json_space c then skip_space r else s
  | [] => []
  end.

Definition hex (c : N) : option N :=
  if digit c then Some (c - 48)%N
  else if ((97 <=? c) && (c <=? 102))%N then Some (c - 87)%N
  else if ((65 <=? c) && (c <=? 70))%N then Some (c - 55)%N
  else None.

(** The code unit an escape [\c] stands for. *)
Definition escape (c : N) : option N :=
  if (c =? 34)%N then Some 34%N
  else if (c =? 92)%N then Some 92%N
  else if (c =? 47)%N then Some 47%N
  else if (c =? 98)%N then Some 8%N
  else if (c =? 102)%N then Some 12%N
  else if (c =? 110)%N then Some 10%N
  else if (c =? 114)%N then Some 13%N
  else if (c =? 116)%N then Some 9%N
  else None.

Definition push (c : N) (r : option (jsstring * jsstring))
  : option (jsstring * jsstring) :=
  '(str, t) ← r; Some (c :: str, t).

(** A string after its opening quote: the string and what follows the
    closing quote. *)
Fixpoint string_body (s : jsstring) : option (jsstring * jsstring) :=
  match s with
  | [] => None
  | c :: r =>
    if (c =? 34)%N then Some ([], r)
    else if (c <? 32)%N then None
    else if (c =? 92)%N then
      match r with
      | [] => None
      | e :: r1 =>
        if (e =? 117)%N then
          match r1 with
          | h1 :: h2 :: h3 :: h4 :: r2 =>
            match hex h1, hex h2, hex h3, hex h4 with
            | Some a, Some b, Some c, Some d =>
              push (4096 * a + 256 * b + 16 * c + d)%N (string_body r2)
            | _, _, _, _ => None
            end
          | _ => None
          end
        else
          match escape e with
          | Some u => push u (string_body r1)
          | None => None
          end
      end
    else push c (string_body r)
  end.

Fixpoint span_digits (s : jsstring) : jsstring * jsstring :=
  match s with
  | c :: r =>
    if digit c then let '(d, t) := span_digits r in (c :: d, t) else ([], s)
  | [] => ([], [])
  end.

(** The fraction of a number: the digits after a point, if there is one. *)
Definition fraction (s : jsstring) : option (jsstring * jsstring) :=
  match s with
  | c :: r =>
    if (c =? 46)%N then
      match span_digits r with
      | ([], _) => None
      | (d, t) => Some (d, t)
      end
    else Some ([], s)
  | [] => Some ([], [])
  end.

(** The exponent of a number, if there is one. *)
Definition exponent (s : jsstring) : option (Z * jsstring) :=
  match s with
  | c :: r =>
    if ((c =? 101) || (c =? 69))%N then
      let '(neg, r1) :=
        match r with
        | g :: r1 =>
          if (g =? 45)%N then (true, r1)
          else if (g =? 43)%N then (false, r1) else (false, r)
        | [] => (false, r)
        end in
      match span_digits r1 with
      | ([], _) => None
      | (d, t) =>
        let v := Z.of_N (digits_value d) in
        Some (if neg : bool then - v else v, t)
      end
    else Some (0, s)
  | [] => Some (0, [])
  end.

Definition number (s : jsstring) : option (json * jsstring) :=
  let '(neg, s1) :=
    match s with
    | c :: r => if (c =? 45)%N then (true, r) else (false, s)
    | [] => (false, s)
    end in
  match span_digits s1 with
  | ([], _) => None
  | (d :: ds, s2) =>
    if (d =? 48)%N && negb (bool_decide (ds = [])) then None
    else
      '(f, s3) ← fraction s2;
      '(e, s4) ← exponent s3;
      Some (JNumber neg (digits_value (d :: ds ++ f)) (e - Z.of_nat (length f)), s4)
  end.

(** [s] begins with the word [w]: what follows it. *)
Fixpoint after (w s : jsstring) : option jsstring :=
  match w, s with
  | [], _ => Some s
  | a :: w, b :: s => if (a =? b)%N then after w s else None
  | _ :: _, [] => None
  end.

Fixpoint value (fuel : nat) (s : jsstring) : option (json * jsstring) :=
  match fuel with
  | O => None
  | S fuel =>
    match skip_space s with
    | [] => None
    | c :: r =>
      if (c =? 34)%N then '(str, t) ← string_body r; Some (JString str, t)
      else if (c =? 91)%N then
        match skip_space r with
        | c1 :: t =>
          if (c1 =? 93)%N then Some (JArray [], t)
          else '(vs, t) ← elements fuel r; Some (JArray vs, t)
        | [] => None
        end
      else if (c =? 123)%N then
        match skip_space r with
        | c1 :: t =>
          if (c1 =? 125)%N then Some (JObject [], t)
          else '(ms, t) ← members fuel r; Some (JObject ms, t)
        | [] => None
        end
      else if (c =? 110)%N then t ← after (js "null") (c :: r); Some (JNull, t)
      else if (c =? 116)%N then t ← after (js "true") (c :: r); Some (JBool true, t)
      else if (c =? 102)%N then t ← after (js "false") (c :: r); Some (JBool false, t)
      else number (c :: r)
    end
  end
with elements (fuel : nat) (s : jsstring) : option (list json * jsstring) :=
  match fuel with
  | O => None
  | S fuel =>
    '(v, t) ← value fuel s;
    match skip_space t with
    | c :: t1 =>
      if (c =? 44)%N then '(vs, t2) ← elements fuel t1; Some (v :: vs, t2)
      else if (c =? 93)%N then Some ([v], t1)
      else None
    | [] => None
    end
  end
with members (fuel : nat) (s : jsstring)
  : option (list (jsstring * json) * jsstring) :=
  match fuel with
  | O => None
  | S fuel =>
    match skip_space s with
    | q :: r =>
      if (q =? 34)%N then
        '(k, t) ← string_body r;
        match skip_space t with
        | c :: t1 =>
          if (c =? 58)%N then
            '(v, t2) ← value fuel t1;
            match skip_space t2 with
            | c2 :: t3 =>
              if (c2 =? 44)%N then
                '(ms, t4) ← members fuel t3; Some ((k, v) :: ms, t4)
              else if (c2 =? 125)%N then Some ([(k, v)], t3)
              else None
            | [] => None
            end
          else None
        | [] => None
        end
      else None
    | [] => None
    end
  end.

(** Every call consumes a code unit before the next one at most two
    calls deeper, so this much fuel is never used up. *)
Definition JSON_parse (text : jsstring) : option json :=
  '(v, t) ← value (2 * length text + 2) text;
  match skip_space t with
  | [] => Some v
  | _ :: _ => None
  end.

(** ** The routes that call the completion service *)

Definition dq : jsstring := [34%N].
Definition nl : jsstring := [10%N].

(** [x || fallback] for a text that is a string or [null]. *)
Definition or_else (x : option jsstring) (fallback : jsstring) : jsstring :=
  match x with
  | None | Some [] => fallback
  | Some s => s
  end.

Definition analysis_prompt : jsstring :=
  concat
    [js "你是一个情绪分析专家。分析以下文本，返回JSON格式的情绪分析：{"; dq; js "primaryEmotion"; dq;
     js ": "; dq; js "主要情绪"; dq; js ","; dq; js "intensity"; dq;
     js ": 1-10的强度值,"; dq; js "triggers"; dq; js ": ["; dq; js "触发因素1"; dq;
     js ", "; dq; js "触发因素2"; dq; js "],"; dq; js "copingStrategies"; dq;
     js ": ["; dq; js "建议1"; dq; js ", "; dq; js "建议2"; dq; js "]}"].

(** The value the emotion analysis falls back on. *)
Definition analysis_fallback : json :=
  JObject
    [(js "primaryEmotion", JString (js "未知"));
     (js "intensity", JNumber false 5 0);
     (js "triggers", JArray [JString (js "无法确定")]);
     (js "copingStrategies", JArray [JString (js "深呼吸"); JString (js "寻求支持")])].

(** [try { analysis = JSON.parse(analysisText || '{}') } catch (parseError)
    { analysis = fallback }] *)
Definition analysis (analysisText : option jsstring) : json :=
  match JSON_parse (or_else analysisText (js "{}")) with
  | Some j => j
  | None => analysis_fallback
  end.

(** The call of the emotion analysis. *)
Definition analysis_request (body_feeling : option jsstring) : ChatRequest :=
  {| messages :=
       [ {| role := js "system"; msg_content := analysis_prompt |};
         {| role := js "user"; msg_content := default [] body_feeling |} ];
     max_tokens := 500 |}.

(** [POST /api/analyze-emotion] with the body's [feeling]. *)
Definition post_analyze_emotion (env : Env) (body_feeling : option jsstring)
  : World -> Response * World :=
  if blank body_feeling
  then pair {| status := 400; payload := Error (js "请提供情绪描述") |}
  else
    try_catch
      (analysisText ← create env (analysis_request body_feeling);
       mret {| status := 200; payload := Json (analysis analysisText) |})
      (js "情绪分析错误:") (js "情绪分析服务暂时不可用").

Definition report_prompt : jsstring :=
  join nl
    [js "你是一个心理健康分析师。基于以下冲动日志数据生成周报，包含：";
     js "          1. 本周冲动模式分析";
     js "          2. 进步和挑战";
     js "          3. 具体改进建议";
     js "          4. 下周目标设定";
     js "          ";
     js "          请以专业、同理心的语气撰写，鼓励用户继续努力。"].

Definition weekEnd (env : Env) : Z := clock env.

(** [weekStart.setDate(weekStart.getDate() - 7)] *)
Definition weekStart (env : Env) : Z := clock' env - 7 * msPerDay.

(** The rows the report is made from: [result.rows]. *)
Definition window (env : Env) (w : World) : list Log :=
  select_between (db w) (weekStart env) (weekEnd env).

Section Host.

(** What the host's locale and Unicode tables decide:
    [String.prototype.toLowerCase], [Date.prototype.toLocaleDateString]
    and the conversion of a [Date] to a string in a template. *)
Variable toLowerCase : jsstring -> jsstring.
Variable toLocaleDateString : Z -> jsstring.
Variable Date_toString : Z -> jsstring.

(** The words of a log: [log.feeling.toLowerCase().split(/\s+/)]. *)
Definition words (log : Log) : list jsstring :=
  split (toLowerCase (feeling log)).

(** [emotionWords] after the two nested [forEach]. *)
Definition emotionWords (logs : list Log) : Record_number :=
  fold_left (fun obj log => fold_left (fun obj word => bump word obj) (words log) obj)
            logs [].

(** [Object.entries(emotionWords).sort((a, b) => b[1] - a[1]).slice(0, 3)
    .map(([word]) => word)] *)
Definition topEmotions (logs : list Log) : list jsstring :=
  (take 3 (order_by count_desc (Object_entries (emotionWords logs)))).*1.

(** The report context handed to the completion service. *)
Definition context (env : Env) (logs : list Log) : jsstring :=
  concat
    [nl; js "      冲动日志数据（"; toLocaleDateString (weekStart env); js " - ";
     toLocaleDateString (weekEnd env); js "）:"; nl;
     js "      - 总冲动次数: "; String_of (Z.of_nat (totalImpulses logs)); nl;
     js "      - 行动次数: "; String_of (Z.of_nat (actedImpulses logs)); nl;
     js "      - 抵抗次数: "; String_of (Z.of_nat (resistedImpulses logs)); nl;
     js "      - 抵抗成功率: "; String_of (resistanceRate logs); js "%"; nl;
     js "      - 高发时段: "; String_of (peakHour logs); js ":00"; nl;
     js "      - 主要情绪: "; join (js ", ") (topEmotions logs); nl;
     js "    "].

(** [INSERT INTO reports (week_start, week_end, content)
    VALUES ($1, $2, $3) RETURNING *] *)
Definition insert_reports (env : Env) (t1 t2 : Z) (text : jsstring)
  : M reports_row := fun w =>
  let d := db w in
  if has_nul (Some text)
  then (inl (DatabaseError character_not_in_repertoire), w)
  else
    let r := {| report_id := reports_id_seq d; week_start := date_of t1;
                week_end := date_of t2; content := text;
                report_created_at := pg_now env |} in
    (inr r, with_db w (set_reports d (reports d ++ [r]) (reports_id_seq d + 1))).

(** The call of the report narrative. *)
Definition report_request (env : Env) (logs : list Log) : ChatRequest :=
  {| messages := [ {| role := js "system"; msg_content := report_prompt |};
                   {| role := js "user"; msg_content := context env logs |} ];
     max_tokens := 800 |}.

(** The [try] block of [POST /api/reports/generate]. *)
Definition generate (env : Env) : M Response := fun w =>
  let logs := window env w in
  if bool_decide (length logs = 0%nat) then
    (inr {| status := 400; payload := Error (js "没有足够的数据生成报告") |}, w)
  else
   (aiResponse ← create env (report_request env logs);
    let insights := or_else aiResponse (js "无法生成洞察") in
    reportResult ← insert_reports env (weekStart env) (weekEnd env) insights;
    mret {| status := 201; payload := ReportRow reportResult |}) w.

(** [POST /api/reports/generate] *)
Definition post_reports_generate (env : Env) : World -> Response * World :=
  try_catch (generate env) (js "生成报告错误:") (js "生成报告失败").

(** A line of the chat context. *)
Definition context_line (log : Log) : jsstring :=
  concat
    [Date_toString (datetime log); js ": "; feeling log; js " (行动: ";
     if bool_decide (acted log = js "yes") then js "是" else js "否"; js ")"].

(** The rows the chat context is made of. *)
Definition contextResult (env : Env) (d : Db) : list Log :=
  select_recent d (pg_now env).

Definition chat_prompt (rows : list Log) : jsstring :=
  concat
    [js "你是一个心理健康助手，专门帮助用户管理冲动行为。以下是用户最近7天的冲动记录作为上下文："; nl;
     join nl (context_line <$> rows);
     nl; nl; js "请基于这些信息，以专业、同理心的态度回答用户的问题。"].

(** The body of [POST /api/chat]: the message, and the history when it
    is an array. *)
Record ChatBody := {
  body_message : option jsstring;
  body_history : option (list Message)
}.

(** The call of the chat: the system message with the context, the
    history, the new message. *)
Definition chat_request (env : Env) (body : ChatBody) (d : Db) : ChatRequest :=
  {| messages :=
       [ {| role := js "system"; msg_content := chat_prompt (contextResult env d) |} ]
       ++ default [] (body_history body)
       ++ [ {| role := js "user"; msg_content := default [] (body_message body) |} ];
     max_tokens := 500 |}.

(** [POST /api/chat] *)
Definition post_chat (env : Env) (body : ChatBody) : World -> Response * World :=
  if blank (body_message body)
  then pair {| status := 400; payload := Error (js "请提供消息内容") |}
  else
    try_catch
      (d ← get_db;
       response ← create env (chat_request env body d);
       mret {| status := 200;
               payload := Reply (or_else response (js "抱歉，我暂时无法回答这个问题。")) |})
      (js "AI聊天错误:") (js "AI聊天服务暂时不可用").

End Host.

(** * The vocabulary of the properties

    What the statements below speak of: the answers by name, the counts
    the statistics are compared with, and the data of the worked cases. *)

(** ** Answers and worlds *)

Definition no_content : Response := {| status := 204; payload := NoContent |}.

Definition storage_failure : Response :=
  {| status := 500; payload := Error database_error |}.

Definition insufficient_data : Response :=
  {| status := 400; payload := Error (js "没有足够的数据生成报告") |}.

Definition report_failure : Response :=
  {| status := 500; payload := Error (js "生成报告失败") |}.

(** The world after a call to the completion service. *)
Definition called (w : World) (req : ChatRequest) : World :=
  {| db := db w; openai_calls := openai_calls w ++ [req]; console := console w |}.

(** ** The chat context *)

(** The entries within the last seven days: those dated from seven days
    before [NOW()] up to [NOW()]. *)
Definition last_7_days (env : Env) (d : Db) : list Log :=
  project <$> filter (fun r => pg_now env - 7 * msPerDay <= row_datetime r <= pg_now env)
                     (impulse_logs d).

(** The entries that are not older than seven days, those dated after
    [NOW()] among them. *)
Definition not_older_than_7_days (env : Env) (d : Db) : list Log :=
  project <$> filter (fun r => pg_now env - 7 * msPerDay <= row_datetime r)
                     (impulse_logs d).

(** The line of the chat context for an entry, with [Date_toString] for
    the text of its [Date]. *)
Definition line_of (Date_toString : Z -> jsstring) (log : Log) : jsstring :=
  Date_toString (datetime log) ++ js ": " ++ feeling log ++ js " (行动: "
  ++ (if bool_decide (acted log = js "yes") then js "是" else js "否") ++ js ")".

(** ** The statistics *)

(** The number of logs whose hour of the day is [h]. *)
Definition at_hour (h : Z) (logs : list Log) : nat :=
  length (filter (fun log => getHours (datetime log) = Some h) logs).

(** The count a table holds for a name, 0 when it has none. *)
Fixpoint tally (k : jsstring) (obj : Record_number) : nat :=
  match obj with
  | [] => 0
  | (k', n) :: r => if bool_decide (k' = k) then n else tally k r
  end.

(** How often a word occurs in a list of words. *)
Definition occurrences (w : jsstring) (ws : list jsstring) : nat :=
  length (filter (fun x => x = w) ws).

(** The table after the words [ws] have been counted into [obj]. *)
Definition count_words (ws : list jsstring) (obj : Record_number) : Record_number :=
  fold_left (fun obj word => bump word obj) ws obj.

(** The text begins, or ends, with a white space. *)
Definition starts_with_space (s : jsstring) : bool :=
  match head s with
  | Some c => isWhiteSpace c
  | None => false
  end.

Definition ends_with_space (s : jsstring) : bool :=
  match last s with
  | Some c => isWhiteSpace c
  | None => false
  end.

(** The words of all the logs of the window, in the order they are
    counted. *)
Definition all_words (toLowerCase : jsstring -> jsstring) (logs : list Log)
  : list jsstring :=
  logs ≫= words toLowerCase.

(** The entries of the table of counts, sorted. *)
Definition ranked (toLowerCase : jsstring -> jsstring) (logs : list Log)
  : list (jsstring * nat) :=
  order_by count_desc (Object_entries (emotionWords toLowerCase logs)).

(** [Math.round((r / t) * 100)] for two counts. *)
Definition rate (r t : Z) : Z :=
  Math_round (fmul (fdiv (Number r) (Number t)) (Number 100)).

(** The exact percentage [100 * r / t] rounded half up: the integer part
    of [100 * r / t + 1 / 2]. *)
Definition round_half_up (r t : Z) : Z := (200 * r + t) / (2 * t).

(** [100 * r / t] lies exactly between two integers. *)
Definition halfway (r t : Z) : Prop := (200 * r + t) mod (2 * t) = 0.

(** A double below zero exponent that is at most the integer [c]. *)
Definition at_most (x : double) (c : Z) : Prop :=
  expo x < 0 ∧ 0 <= mant x <= c * 2 ^ (- expo x).

(** The product on the machine's doubles. *)
Definition machine_rate (r t : Z) : float :=
  PrimFloat.mul (PrimFloat.div (machine r) (machine t)) (machine 100).

(** ** The emotion analysis *)

(** The fallback as the specification words it. *)
Definition analysis_fallback_as_specified : json :=
  JObject
    [(js "primaryEmotion", JString (js "unknown"));
     (js "intensity", JNumber false 5 0);
     (js "triggers", JArray [JString (js "undetermined")]);
     (js "copingStrategies", JArray [JString (js "breathe"); JString (js "seek support")])].

(** ** Worked cases *)

Definition empty_db : Db :=
  {| impulse_logs := []; impulse_logs_id_seq := 1; reports := []; reports_id_seq := 1 |}.

Definition empty_world : World :=
  {| db := empty_db; openai_calls := []; console := [] |}.

Definition sample_row (id t : Z) (f a : string) : impulse_logs_row :=
  {| row_id := id; row_datetime := t; row_feeling := js f; row_acted := js a;
     row_created_at := t |}.

(** A world whose log store holds [rows]. *)
Definition world_of (rows : list impulse_logs_row) : World :=
  with_db empty_world (set_impulse_logs empty_db rows (Z.of_nat (length rows) + 1)).

(** An environment in which every clock shows [now]. *)
Definition env_at (now : Z) (c : Completion) : Env :=
  {| clock := now; clock' := now; pg_now := now; completion := c |}.

(** A request with an empty feeling. *)
Definition empty_feeling_body : LogBody :=
  {| body_datetime := Ts 1000; body_feeling := Some []; body_acted := Some (js "no") |}.

(** An ASCII-only [toLowerCase], for texts without other letters. *)
Definition ascii_lower (s : jsstring) : jsstring :=
  (fun c => if ((65 <=? c) && (c <=? 90))%N then (c + 32)%N else c) <$> s.

(** A date as its day number, standing for a locale's format. *)
Definition day_number (t : Z) : jsstring := String_of (date_of t).

Definition log_of (t : Z) (f a : string) : Log :=
  {| datetime := t; feeling := js f; acted := js a |}.

(** The scenario of the specification: three logs at 08:00, 08:30 and
    14:00. *)
Definition scenario : list Log :=
  [log_of (8 * msPerHour) "anxious about deadline" "no";
   log_of (8 * msPerHour + 1800000) "anxious" "yes";
   log_of (14 * msPerHour) "bored" "no"].

(** Forty logs, seventeen of them acted on. *)
Definition forty_logs : list Log :=
  replicate 17 (log_of 0 "bored" "yes") ++ replicate 23 (log_of 0 "bored" "no").

(** Twelve rows, one an hour, the last hours before midnight of day 30. *)
Definition twelve_rows : list impulse_logs_row :=
  (fun i => sample_row i (30 * msPerDay - i * msPerHour) "restless" "no")
    <$> seqZ 1 12.

(** Eleven rows of the last hours before midnight of day 30, and ten rows
    dated a year later. *)
Definition crowded_rows : list impulse_logs_row :=
  ((fun i => sample_row i (30 * msPerDay - i * msPerHour) "restless" "no")
     <$> seqZ 1 11)
  ++ ((fun i => sample_row i (395 * msPerDay + i * msPerHour) "planned" "no")
        <$> seqZ 12 10).

(** * The rest of the server *)

(** ** The routes of the report store *)

Definition created_at_desc (a b : reports_row) : bool :=
  report_created_at b <? report_created_at a.

(** [SELECT * FROM reports ORDER BY created_at DESC] *)
Definition select_reports (d : Db) : list reports_row :=
  order_by created_at_desc (reports d).

(** [GET /api/reports] *)
Definition get_reports : World -> Response * World :=
  try_catch
    (d ← get_db; mret {| status := 200; payload := ReportRows (select_reports d) |})
    [] database_error.

(** [SELECT * FROM reports WHERE id = $1] *)
Definition select_report (id : Z) : M (list reports_row) := fun w =>
  if int4 id
  then (inr (filter (fun r => report_id r = id) (reports (db w))), w)
  else (inl (DatabaseError numeric_value_out_of_range), w).

(** [GET /api/reports/:id]; the route parameter as the integer it writes. *)
Definition get_reports_id (id : Z) : World -> Response * World :=
  try_catch
    (rows ← select_report id;
     mret match rows with
          | [] => {| status := 404; payload := Error (js "报告未找到") |}
          | r :: _ => {| status := 200; payload := ReportRow r |}
          end)
    [] database_error.

(** ** The text PostgreSQL receives

    The driver sends a string as UTF-8.  A surrogate pair is one
    character; a surrogate without its partner cannot be encoded and goes
    out as U+FFFD. *)

Definition high_surrogate (c : N) : bool := ((55296 <=? c) && (c <=? 56319))%N.
Definition low_surrogate (c : N) : bool := ((56320 <=? c) && (c <=? 57343))%N.

(** The characters of a string. *)
Fixpoint code_points (s : jsstring) : list N :=
  match s with
  | [] => []
  | c :: r =>
    if high_surrogate c then
      match r with
      | d :: r' =>
        if low_surrogate d
        then (65536 + (c - 55296) * 1024 + (d - 56320))%N :: code_points r'
        else 65533%N :: code_points r
      | [] => [65533%N]
      end
    else if low_surrogate c then 65533%N :: code_points r
    else c :: code_points r
  end.

(** The string of a list of characters. *)
Definition code_units (cs : list N) : jsstring :=
  cs ≫= fun c =>
    if (c <? 65536)%N then [c]
    else [(55296 + (c - 65536) / 1024)%N; (56320 + (c - 65536) mod 1024)%N].

(** [VARCHAR(n)] on a text that holds no NUL: a value of more than [n]
    characters is refused unless the surplus is spaces, which are cut. *)
Definition varchar (n : nat) (s : jsstring) : SqlState + jsstring :=
  if forallb (N.eqb 32) (drop n (code_points s))
  then inr (code_units (take n (code_points s)))
  else inl string_data_right_truncation.

(** What the driver makes of a string: its characters, sent and read
    back. *)
Definition wire (s : jsstring) : jsstring := code_units (code_points s).

(** ** The accounts *)

(** A row of [users]. *)
Record users_row := {
  user_id : Z;
  username : jsstring;
  password_hash : jsstring;
  user_created_at : Z
}.

(** What the account code can throw: a statement PostgreSQL rejects, the
    [UNIQUE] constraint of [username], or an error of bcryptjs. *)
Inductive Fault :=
  | QueryFault (code : SqlState)
  | unique_violation (constraint : string)
  | LibraryFault (message : jsstring).

(** The table [users] with its sequence, and the lines the account code
    writes with [console.error] and [console.log]. *)
Record Accounts := {
  users : list users_row;
  users_id_seq : Z;
  console_errors : list (jsstring * Fault);
  console_logs : list jsstring
}.

(** The variables of [process.env] the account code reads. *)
Record ProcessEnv := {
  JWT_SECRET : option jsstring;
  DEFAULT_USERNAME : option jsstring;
  DEFAULT_PASSWORD : option jsstring
}.

(** [process.env.JWT_SECRET || 'default-secret'] *)
Definition secret (p : ProcessEnv) : jsstring :=
  or_else (JWT_SECRET p) (js "default-secret").

Definition log_error (label : jsstring) (e : Fault) (a : Accounts) : Accounts :=
  {| users := users a; users_id_seq := users_id_seq a;
     console_errors := console_errors a ++ [(label, e)];
     console_logs := console_logs a |}.

Definition log_line (line : jsstring) (a : Accounts) : Accounts :=
  {| users := users a; users_id_seq := users_id_seq a;
     console_errors := console_errors a;
     console_logs := console_logs a ++ [line] |}.

Definition set_users (a : Accounts) (rows : list users_row) (seq : Z) : Accounts :=
  {| users := rows; users_id_seq := seq;
     console_errors := console_errors a; console_logs := console_logs a |}.

(** [SELECT * FROM users WHERE username = $1]; with [NULL] for [$1] no
    row compares equal. *)
Definition select_user (name : option jsstring) (a : Accounts)
  : Fault + list users_row :=
  if has_nul name then inl (QueryFault character_not_in_repertoire)
  else inr (filter (fun u => Some (username u) = wire <$> name) (users a)).

(** [INSERT INTO users (username, password_hash) VALUES ($1, $2)].  The
    parameters are bound and cut to their columns first; then the
    sequence gives the id, and keeps the step when the name is taken. *)
Definition insert_users (now : Z) (name hash : jsstring) (a : Accounts)
  : option Fault * Accounts :=
  if has_nul (Some name) || has_nul (Some hash)
  then (Some (QueryFault character_not_in_repertoire), a)
  else
    match varchar 50 name, varchar 255 hash with
    | inl e, _ | inr _, inl e => (Some (QueryFault e), a)
    | inr name, inr hash =>
      let id := users_id_seq a in
      if bool_decide (name ∈ username <$> users a)
      then (Some (unique_violation "users_username_key"),
            set_users a (users a) (id + 1))
      else
        (None,
         set_users a
           (users a ++ [ {| user_id := id; username := name; password_hash := hash;
                            user_created_at := now |} ])
           (id + 1))
    end.

(** [s.split(sep)] for a separator of one code unit. *)
Fixpoint split_on (sep : N) (s : jsstring) : list jsstring :=
  match s with
  | [] => [[]]
  | c :: r =>
    if (c =? sep)%N then [] :: split_on sep r
    else match split_on sep r with
         | w :: ws => (c :: w) :: ws
         | [] => [[c]]
         end
  end.

(** [req.headers.authorization?.split(' ')[1]] *)
Definition bearer_token (authorization : option jsstring) : option jsstring :=
  h ← authorization; split_on 32 h !! 1%nat.

(** The body of [POST /api/login]: each field a string or absent. *)
Record LoginBody := {
  body_username : option jsstring;
  body_password : option jsstring
}.

Section Libraries.

(** What bcryptjs and jsonwebtoken compute.  [bcrypt.hash(s, 10)] with
    the salt it draws; [bcrypt.compare(s, hash)], which rejects with a
    message or gives a boolean; [jwt.sign({ userId, username }, secret,
    { expiresIn: '24h' })] at an instant; [jwt.verify(token, secret)] at an
    instant, [false] when it throws. *)
Variable bcrypt_hash : jsstring -> jsstring -> jsstring.
Variable bcrypt_compare : option jsstring -> jsstring -> jsstring + bool.
Variable jwt_sign : Z -> jsstring -> jsstring -> Z -> jsstring.
Variable jwt_verify : jsstring -> jsstring -> Z -> bool.

(** The middleware [authenticate].  What [jwt.verify] decodes goes to
    [req.user], which no handler reads. *)
Definition authenticate (p : ProcessEnv) (now : Z) (authorization : option jsstring)
    (next : World -> Response * World) : World -> Response * World :=
  match bearer_token authorization with
  | None | Some [] => pair {| status := 401; payload := Error (js "未提供认证令牌") |}
  | Some token =>
    if jwt_verify token (secret p) now then next
    else pair {| status := 401; payload := Error (js "无效的认证令牌") |}
  end.

(** [POST /api/login] *)
Definition post_login (p : ProcessEnv) (now : Z) (body : LoginBody) (a : Accounts)
  : Response * Accounts :=
  let refused := {| status := 401; payload := Error (js "用户名或密码错误") |} in
  let failed e :=
    ({| status := 500; payload := Error (js "服务器错误") |},
     log_error (js "登录错误:") e a) in
  match select_user (body_username body) a with
  | inl e => failed e
  | inr [] => (refused, a)
  | inr (user :: _) =>
    match bcrypt_compare (body_password body) (password_hash user) with
    | inl m => failed (LibraryFault m)
    | inr false => (refused, a)
    | inr true =>
      ({| status := 200;
          payload := Json (JObject
            [(js "token",
              JString (jwt_sign (user_id user) (username user) (secret p) now));
             (js "username", JString (username user))]) |}, a)
    end
  end.

(** [initializeDatabase]: the tables, which exist from then on (a table
    not yet made is the empty one here), and the default user. *)
Definition initializeDatabase (p : ProcessEnv) (now : Z) (salt : jsstring)
    (a : Accounts) : Accounts :=
  let defaultUser := or_else (DEFAULT_USERNAME p) (js "admin") in
  let defaultPassword := or_else (DEFAULT_PASSWORD p) (js "admin123") in
  let failed := log_error (js "数据库初始化错误:") in
  match select_user (Some defaultUser) a with
  | inl e => failed e a
  | inr (_ :: _) => a
  | inr [] =>
    match insert_users now defaultUser (bcrypt_hash defaultPassword salt) a with
    | (Some e, a') => failed e a'
    | (None, a') => log_line (js "默认用户已创建: " ++ defaultUser) a'
    end
  end.

End Libraries.

(** ** The routes behind [authenticate] *)

Inductive Request :=
  | GET_logs
  | POST_logs (body : LogBody)
  | DELETE_logs_id (id : Z)
  | DELETE_logs
  | POST_analyze_emotion (feeling : option jsstring)
  | POST_chat (body : ChatBody)
  | GET_reports
  | GET_reports_id (id : Z)
  | POST_reports_generate.

(** A request the rate limiter has let through: the instant it arrives,
    its [Authorization] header, what its handler will read from outside,
    and the route it asks for. *)
Record Call := {
  call_time : Z;
  call_authorization : option jsstring;
  call_env : Env;
  call_request : Request
}.

Section Server.

Variable toLowerCase : jsstring -> jsstring.
Variable toLocaleDateString : Z -> jsstring.
Variable Date_toString : Z -> jsstring.
Variable jwt_verify : jsstring -> jsstring -> Z -> bool.

Definition handler (env : Env) (req : Request) : World -> Response * World :=
  match req with
  | GET_logs => get_logs
  | POST_logs body => post_logs env body
  | DELETE_logs_id id => delete_logs_id id
  | DELETE_logs => delete_logs
  | POST_analyze_emotion feeling => post_analyze_emotion env feeling
  | POST_chat body => post_chat Date_toString env body
  | GET_reports => get_reports
  | GET_reports_id id => get_reports_id id
  | POST_reports_generate => post_reports_generate toLowerCase toLocaleDateString env
  end.

(** [app.get(path, authenticate, handler)] and the like. *)
Definition route (p : ProcessEnv) (c : Call) : World -> Response * World :=
  authenticate jwt_verify p (call_time c) (call_authorization c)
    (handler (call_env c) (call_request c)).

(** One request after the other. *)
Definition serve (p : ProcessEnv) (calls : list Call) (w : World) : World :=
  fold_left (fun w c => (route p c w).2) calls w.

End Server.

(** * The pages *)

(** [await axios.get(...)] and the like: an answer with a 2xx status
    fulfils the promise, any other rejects it. *)
Definition fulfilled (r : Response) : bool :=
  (200 <=? status r) && (status r <? 300).

(** [a.slice(-n)] *)
Definition slice_last {A} (n : nat) (a : list A) : list A :=
  drop (length a - n) a.

(** [a.slice(0, -1)] *)
Definition slice_but_last {A} (a : list A) : list A :=
  take (length a - 1) a.

(** ** The authentication context *)

Module AuthContext.

(** The two items of [localStorage]. *)
Record Storage := {
  token : option jsstring;
  username : option jsstring
}.

Record State := {
  user : option jsstring;
  loading : bool;
  localStorage : Storage
}.

(** [`Bearer ${token}`] for [token = localStorage.getItem('token')], as
    every page writes its [Authorization] header. *)
Definition Authorization (s : Storage) : jsstring :=
  js "Bearer " ++ default (js "null") (token s).

Definition removed : Storage := {| token := None; username := None |}.

(** The effect of [AuthProvider], for a stored token: what follows the
    answer to [GET /api/logs]. *)
Definition checked (answer : Response) (s : State) : State :=
  if fulfilled answer then
    {| user := match username (localStorage s) with
               | None | Some [] => user s
               | Some name => Some name
               end;
       loading := false; localStorage := localStorage s |}
  else {| user := user s; loading := false; localStorage := removed |}.

(** The effect of [AuthProvider]: the state at once when there is no
    token to check, else the header of the request it makes. *)
Definition mounted (s : State) : State + jsstring :=
  match token (localStorage s) with
  | None | Some [] =>
    inl {| user := user s; loading := false; localStorage := localStorage s |}
  | Some _ => inr (Authorization (localStorage s))
  end.

(** [data[k]] for the object of an answer. *)
Definition field (k : jsstring) (data : Payload) : option json :=
  match data with
  | Json (JObject members) => snd <$> last (filter (fun m => m.1 = k) members)
  | _ => None
  end.

(** [const { token, username } = response.data] for an answer that
    fulfils the promise; the login route gives a 2xx answer only with the
    two strings. *)
Definition credentials (answer : Response) : option (jsstring * jsstring) :=
  if fulfilled answer then
    match field (js "token") (payload answer),
          field (js "username") (payload answer) with
    | Some (JString token), Some (JString username) => Some (token, username)
    | _, _ => None
    end
  else None.

Definition login_body (username password : jsstring) : LoginBody :=
  {| body_username := Some username; body_password := Some password |}.

(** [login], from the answer to [POST /api/login] on. *)
Definition login (answer : Response) (s : State) : bool * State :=
  match credentials answer with
  | Some (token, loggedInUser) =>
    (true,
     {| user := Some loggedInUser; loading := loading s;
        localStorage := {| token := Some token; username := Some loggedInUser |} |})
  | None => (false, s)
  end.

Definition logout (s : State) : State :=
  {| user := None; loading := loading s; localStorage := removed |}.

End AuthContext.

(** ** The chat page *)

Module Chat.

(** A message as the completion service takes it. *)
Local Abbreviation ChatCompletionMessage := Message.

Inductive Sender := user | ai.

#[global] Instance Sender_eq_dec : EqDecision Sender.
Proof. solve_decision. Defined.

Record Message := {
  text : jsstring;
  sender : Sender;
  timestamp : Z
}.

Inductive Severity := success | error.

Record Notification := {
  open : bool;
  message : jsstring;
  severity : Severity
}.

Record State := {
  messages : list Message;
  input : jsstring;
  loading : bool;
  notification : Notification
}.

Definition greeting : jsstring :=
  js "你好！我是你的冲动管理AI助手。"
  ++ js "我可以帮助你分析情绪、提供应对策略，或者回答你关于冲动管理的问题。"
  ++ js "有什么我可以帮助你的吗？".

(** [clearChat] *)
Definition clearChat (now : Z) (s : State) : State :=
  {| messages := [ {| text := greeting; sender := ai; timestamp := now |} ];
     input := input s; loading := loading s; notification := notification s |}.

(** [historyForAI]: the last ten messages, as the service names them. *)
Definition historyForAI (messages : list Message) : list ChatCompletionMessage :=
  (fun msg =>
     {| role := match sender msg with user => js "user" | ai => js "assistant" end;
        msg_content := text msg |})
  <$> slice_last 10
        (filter (fun msg => sender msg = user ∨ sender msg = ai) messages).

(** [handleSendMessage] up to its [await]: nothing for a blank input,
    else the new state and the body of the request. *)
Definition sending (now : Z) (s : State) : option (State * ChatBody) :=
  if trim_is_empty (input s) then None
  else
    Some ({| messages := messages s
                         ++ [ {| text := input s; sender := user; timestamp := now |} ];
             input := []; loading := true; notification := notification s |},
          {| body_message := Some (input s);
             body_history := Some (historyForAI (messages s)) |}).

(** [response.data.reply] of an answer that fulfils the promise; the chat
    route gives a 2xx answer only with a reply. *)
Definition reply_of (answer : Response) : option jsstring :=
  if fulfilled answer then
    match payload answer with
    | Reply reply => Some reply
    | _ => None
    end
  else None.

(** [handleSendMessage] from the answer on. *)
Definition answered (now : Z) (answer : Response) (s : State) : State :=
  match reply_of answer with
  | Some reply =>
    {| messages := messages s ++ [ {| text := reply; sender := ai; timestamp := now |} ];
       input := input s; loading := false; notification := notification s |}
  | None =>
    {| messages := slice_but_last (messages s);
       input := input s; loading := false;
       notification := {| open := true; message := js "发送消息失败";
                          severity := error |} |}
  end.

(** [handleSendMessage], with [post] for what the server makes of
    [axios.post('/api/chat', body, { headers: { Authorization } })]. *)
Definition handleSendMessage
    (post : jsstring -> ChatBody -> World -> Response * World)
    (storage : AuthContext.Storage) (now now' : Z) (s : State) (w : World)
  : State * World :=
  match sending now s with
  | None => (s, w)
  | Some (s1, body) =>
    let '(answer, w1) := post (AuthContext.Authorization storage) body w in
    (answered now' answer s1, w1)
  end.

End Chat.

(** ** The dashboard *)

Module Dashboard.

(** A log as the page receives it: the timestamps are ISO strings. *)
Record LogEntry := {
  id : Z;
  datetime : jsstring;
  feeling : jsstring;
  acted : jsstring;
  created_at : jsstring
}.

Definition totalLogs (logs : list LogEntry) : nat := length logs.

Definition actedLogs (logs : list LogEntry) : nat :=
  length (filter (fun log => acted log = js "yes") logs).

Definition resistedLogs (logs : list LogEntry) : nat :=
  totalLogs logs - actedLogs logs.

(** [totalLogs > 0 ? Math.round((resistedLogs / totalLogs) * 100) : 0] *)
Definition resistRate (logs : list LogEntry) : Z :=
  if (0 <? totalLogs logs)%nat
  then rate (Z.of_nat (resistedLogs logs)) (Z.of_nat (totalLogs logs))
  else 0.

(** An item of the accumulator of [trendData]. *)
Record Item := {
  date : jsstring;
  total : nat;
  resisted : nat
}.

(** [log.datetime.split('T')[0]] *)
Definition day (log : LogEntry) : jsstring :=
  default [] (split_on 84 (datetime log) !! 0%nat).

(** A step of the [reduce]: the item of the date is updated where it
    stands, a new date goes to the end. *)
Fixpoint count (d : jsstring) (no : bool) (acc : list Item) : list Item :=
  match acc with
  | [] => [ {| date := d; total := 1; resisted := if no then 1 else 0 |} ]
  | item :: r =>
    if bool_decide (date item = d)
    then {| date := date item; total := S (total item);
            resisted := if no then S (resisted item) else resisted item |} :: r
    else item :: count d no r
  end.

Definition items (logs : list LogEntry) : list Item :=
  fold_left (fun acc log => count (day log) (bool_decide (acted log = js "no")) acc)
            logs [].

(** [trendData]: the date and the rate of the last seven items. *)
Definition trendData (logs : list LogEntry) : list (jsstring * Z) :=
  slice_last 7
    ((fun item => (date item, rate (Z.of_nat (resisted item)) (Z.of_nat (total item))))
     <$> items logs).

(** *** The handlers *)

Inductive Severity := success | error.

Record Notification := {
  open : bool;
  message : jsstring;
  severity : Severity
}.

(** [formData]: what the three fields of the form hold. *)
Record FormData := {
  form_datetime : jsstring;
  form_feeling : jsstring;
  form_acted : jsstring
}.

(** The state of the page; [aiAnalysis] is [None] for [null]. *)
Record State := {
  logs : list LogEntry;
  loading : bool;
  formData : FormData;
  notification : Notification;
  aiAnalysis : option json;
  analysisDialogOpen : bool;
  analyzing : bool
}.

Definition setLogs (l : list LogEntry) (s : State) : State :=
  {| logs := l; loading := loading s; formData := formData s;
     notification := notification s; aiAnalysis := aiAnalysis s;
     analysisDialogOpen := analysisDialogOpen s; analyzing := analyzing s |}.

Definition setLoading (b : bool) (s : State) : State :=
  {| logs := logs s; loading := b; formData := formData s;
     notification := notification s; aiAnalysis := aiAnalysis s;
     analysisDialogOpen := analysisDialogOpen s; analyzing := analyzing s |}.

Definition setFormData (f : FormData) (s : State) : State :=
  {| logs := logs s; loading := loading s; formData := f;
     notification := notification s; aiAnalysis := aiAnalysis s;
     analysisDialogOpen := analysisDialogOpen s; analyzing := analyzing s |}.

Definition setNotification (n : Notification) (s : State) : State :=
  {| logs := logs s; loading := loading s; formData := formData s;
     notification := n; aiAnalysis := aiAnalysis s;
     analysisDialogOpen := analysisDialogOpen s; analyzing := analyzing s |}.

Definition setAiAnalysis (a : option json) (s : State) : State :=
  {| logs := logs s; loading := loading s; formData := formData s;
     notification := notification s; aiAnalysis := a;
     analysisDialogOpen := analysisDialogOpen s; analyzing := analyzing s |}.

Definition setAnalysisDialogOpen (b : bool) (s : State) : State :=
  {| logs := logs s; loading := loading s; formData := formData s;
     notification := notification s; aiAnalysis := aiAnalysis s;
     analysisDialogOpen := b; analyzing := analyzing s |}.

Definition setAnalyzing (b : bool) (s : State) : State :=
  {| logs := logs s; loading := loading s; formData := formData s;
     notification := notification s; aiAnalysis := aiAnalysis s;
     analysisDialogOpen := analysisDialogOpen s; analyzing := b |}.

Definition showNotification (m : jsstring) (sev : Severity) : State -> State :=
  setNotification {| open := true; message := m; severity := sev |}.

Section Page.

(** [Date.prototype.toISOString], which also writes the timestamps of a
    row into the JSON of an answer, and PostgreSQL's reading of a text as
    a [TIMESTAMP]. *)
Variable toISOString : Z -> jsstring.
Variable timestamp_in : jsstring -> TimestampParam.

(** A row as the page receives it; a text comes back as PostgreSQL
    holds it. *)
Definition entry_of (r : impulse_logs_row) : LogEntry :=
  {| id := row_id r; datetime := toISOString (row_datetime r);
     feeling := wire (row_feeling r); acted := wire (row_acted r);
     created_at := toISOString (row_created_at r) |}.

(** [response.data] of [GET /api/logs]; the route gives a 2xx answer
    only with rows. *)
Definition listing (answer : Response) : option (list LogEntry) :=
  if fulfilled answer then
    match payload answer with
    | LogRows rows => Some (entry_of <$> rows)
    | _ => None
    end
  else None.

(** [fetchLogs] from the answer on. *)
Definition fetched (answer : Response) (s : State) : State :=
  setLoading false
    match listing answer with
    | Some l => setLogs l s
    | None => showNotification (js "获取数据失败") error s
    end.

(** [fetchLogs()] where it is not awaited: the request goes out, the
    caller goes on with [notice], and the answer is dealt with after
    that. *)
Definition refresh (get : jsstring -> World -> Response * World)
    (storage : AuthContext.Storage) (notice : State -> State) (s : State) (w : World)
  : State * World :=
  let '(answer, w1) := get (AuthContext.Authorization storage) w in
  (fetched answer (notice (setLoading true s)), w1).

(** [fetchLogs], with [get] for what the server makes of
    [axios.get('/api/logs', { headers: { Authorization } })]. *)
Definition fetchLogs (get : jsstring -> World -> Response * World)
    (storage : AuthContext.Storage) : State -> World -> State * World :=
  refresh get storage (fun s => s).

(** The form of a page that starts at [now]: the first sixteen
    characters of the instant, no feeling, resisted. *)
Definition blank_form (now : Z) : FormData :=
  {| form_datetime := take 16 (toISOString now); form_feeling := [];
     form_acted := js "no" |}.

(** [formData] as the body of [POST /api/logs]. *)
Definition form_body (f : FormData) : LogBody :=
  {| body_datetime := timestamp_in (form_datetime f);
     body_feeling := Some (form_feeling f);
     body_acted := Some (form_acted f) |}.

(** [handleSubmit] at the instant [now] of the page. *)
Definition handleSubmit
    (post : jsstring -> LogBody -> World -> Response * World)
    (get : jsstring -> World -> Response * World)
    (storage : AuthContext.Storage) (now : Z) (s : State) (w : World)
  : State * World :=
  let '(answer, w1) :=
    post (AuthContext.Authorization storage) (form_body (formData s)) w in
  if fulfilled answer then
    refresh get storage (showNotification (js "记录保存成功") success)
      (setFormData (blank_form now) s) w1
  else (showNotification (js "保存失败") error s, w1).

(** [handleDelete] *)
Definition handleDelete
    (delete : jsstring -> Z -> World -> Response * World)
    (get : jsstring -> World -> Response * World)
    (storage : AuthContext.Storage) (log_id : Z) (s : State) (w : World)
  : State * World :=
  let '(answer, w1) := delete (AuthContext.Authorization storage) log_id w in
  if fulfilled answer then
    refresh get storage (showNotification (js "记录已删除") success) s w1
  else (showNotification (js "删除失败") error s, w1).

(** [handleClearAll], with the answer to [window.confirm]. *)
Definition handleClearAll
    (delete : jsstring -> World -> Response * World)
    (get : jsstring -> World -> Response * World)
    (storage : AuthContext.Storage) (confirmed : bool) (s : State) (w : World)
  : State * World :=
  if confirmed then
    let '(answer, w1) := delete (AuthContext.Authorization storage) w in
    if fulfilled answer then
      refresh get storage (showNotification (js "所有记录已清空") success) s w1
    else (showNotification (js "清空失败") error s, w1)
  else (s, w).

(** [response.data] of [POST /api/analyze-emotion]; the route gives a
    2xx answer only with the analysis. *)
Definition analysis_of (answer : Response) : option json :=
  if fulfilled answer then
    match payload answer with
    | Json j => Some j
    | _ => None
    end
  else None.

(** [analyzeEmotion] *)
Definition analyzeEmotion
    (post : jsstring -> option jsstring -> World -> Response * World)
    (storage : AuthContext.Storage) (s : State) (w : World) : State * World :=
  if trim_is_empty (form_feeling (formData s))
  then (showNotification (js "请先填写情绪描述") error s, w)
  else
    let '(answer, w1) :=
      post (AuthContext.Authorization storage)
           (Some (form_feeling (formData s))) w in
    (setAnalyzing false
       match analysis_of answer with
       | Some j => setAnalysisDialogOpen true (setAiAnalysis (Some j) (setAnalyzing true s))
       | None => showNotification (js "情绪分析失败") error (setAnalyzing true s)
       end,
     w1).

End Page.

(** What a value of the server is to the page, after [JSON.stringify] and
    [JSON.parse], in a condition: a number counts when its double is
    neither zero nor infinite (an infinite one is written [null]), that
    is when it lies above [2^-1075] and below [2^1024 - 2^970]. *)
Definition truthy (j : json) : bool :=
  match j with
  | JNull => false
  | JBool b => b
  | JString s => negb (bool_decide (s = []))
  | JNumber _ m e =>
    if 0 <=? e
    then (0 <? Z.of_N m) && (Z.of_N m * 10 ^ e <? 2 ^ 1024 - 2 ^ 970)
    else (10 ^ (- e) <? Z.of_N m * 2 ^ 1075)
         && (Z.of_N m <? (2 ^ 1024 - 2 ^ 970) * 10 ^ (- e))
  | JArray _ | JObject _ => true
  end.

(** [j[k]] for a parsed value: the last member of that name of an
    object, nothing for any other value. *)
Definition member (k : jsstring) (j : json) : option json :=
  match j with
  | JObject members => snd <$> last (filter (fun m => m.1 = k) members)
  | _ => None
  end.

(** What the content of the analysis dialog comes to: nothing when
    [aiAnalysis] is falsy, else [aiAnalysis.triggers.map(...)] and
    [aiAnalysis.copingStrategies.map(...)] run over their arrays, or the
    [TypeError] of a [map] that is not there. *)
Inductive Content :=
  | Skipped
  | Mapped (triggers copingStrategies : list json)
  | TypeError.

Definition dialog_content (a : option json) : Content :=
  match a with
  | None => Skipped
  | Some j =>
    if truthy j then
      match member (js "triggers") j, member (js "copingStrategies") j with
      | Some (JArray triggers), Some (JArray copingStrategies) =>
        Mapped triggers copingStrategies
      | _, _ => TypeError
      end
    else Skipped
  end.

End Dashboard.

(** ** The reports page *)

Local Abbreviation row_week_start := week_start.
Local Abbreviation row_week_end := week_end.
Local Abbreviation row_content := content.

Module Reports.

(** A report as the page receives it. *)
Record Report := {
  id : Z;
  week_start : jsstring;
  week_end : jsstring;
  content : jsstring;
  created_at : jsstring
}.

Inductive Severity := success | error.

Record Notification := {
  open : bool;
  message : jsstring;
  severity : Severity
}.

Record State := {
  reports : list Report;
  loading : bool;
  generating : bool;
  notification : Notification
}.

Definition setReports (l : list Report) (s : State) : State :=
  {| reports := l; loading := loading s; generating := generating s;
     notification := notification s |}.

Definition setLoading (b : bool) (s : State) : State :=
  {| reports := reports s; loading := b; generating := generating s;
     notification := notification s |}.

Definition setGenerating (b : bool) (s : State) : State :=
  {| reports := reports s; loading := loading s; generating := b;
     notification := notification s |}.

Definition showNotification (m : jsstring) (sev : Severity) (s : State) : State :=
  {| reports := reports s; loading := loading s; generating := generating s;
     notification := {| open := true; message := m; severity := sev |} |}.

Section Page.

(** How a [TIMESTAMP] and a [DATE] of a row read in the JSON of an
    answer. *)
Variable toISOString : Z -> jsstring.
Variable date_toISOString : Z -> jsstring.

Definition report_of (r : reports_row) : Report :=
  {| id := report_id r; week_start := date_toISOString (row_week_start r);
     week_end := date_toISOString (row_week_end r);
     content := wire (row_content r);
     created_at := toISOString (report_created_at r) |}.

(** [response.data] of [GET /api/reports]; the route gives a 2xx answer
    only with rows. *)
Definition listing (answer : Response) : option (list Report) :=
  if fulfilled answer then
    match payload answer with
    | ReportRows rows => Some (report_of <$> rows)
    | _ => None
    end
  else None.

(** [fetchReports] from the answer on. *)
Definition fetched (answer : Response) (s : State) : State :=
  setLoading false
    match listing answer with
    | Some l => setReports l s
    | None => showNotification (js "获取报告失败") error s
    end.

(** [fetchReports], with [get] for what the server makes of
    [axios.get('/api/reports', { headers: { Authorization } })]. *)
Definition fetchReports (get : jsstring -> World -> Response * World)
    (storage : AuthContext.Storage) (s : State) (w : World) : State * World :=
  let '(answer, w1) := get (AuthContext.Authorization storage) w in
  (fetched answer (setLoading true s), w1).

(** [generateReport]: [fetchReports()] is not awaited, so the success
    is notified and [generating] is reset before its answer is dealt
    with. *)
Definition generateReport
    (post : jsstring -> World -> Response * World)
    (get : jsstring -> World -> Response * World)
    (storage : AuthContext.Storage) (s : State) (w : World) : State * World :=
  let '(answer, w1) := post (AuthContext.Authorization storage) w in
  if fulfilled answer then
    let '(answer', w2) := get (AuthContext.Authorization storage) w1 in
    (fetched answer'
       (setGenerating false
          (showNotification (js "报告生成成功") success
             (setLoading true (setGenerating true s)))),
     w2)
  else
    (setGenerating false
       (showNotification (js "生成报告失败") error (setGenerating true s)),
     w1).

(** [element.download] of [downloadReport] *)
Definition download (report : Report) : jsstring :=
  js "冲动日志报告_" ++ week_start report ++ js "_" ++ week_end report ++ js ".txt".

End Page.

End Reports.

(** * The vocabulary of the further properties *)

(** ** The stores *)

Definition not_found : Response :=
  {| status := 404; payload := Error (js "报告未找到") |}.

(** A string without a surrogate that lacks its partner: the driver
    sends it and reads it back as it is. *)
Definition well_formed (s : jsstring) : Prop := wire s = s.

(** What the tables promise: ids that are positive, below the sequence
    and never shared, and an [acted] that the [CHECK] lets in. *)
Definition consistent (d : Db) : Prop :=
  NoDup (row_id <$> impulse_logs d) ∧
  1 <= impulse_logs_id_seq d ∧
  (∀ r, r ∈ impulse_logs d →
        1 <= row_id r < impulse_logs_id_seq d ∧
        (row_acted r = js "yes" ∨ row_acted r = js "no")) ∧
  NoDup (report_id <$> reports d) ∧
  1 <= reports_id_seq d ∧
  (∀ r, r ∈ reports d → 1 <= report_id r < reports_id_seq d).

(** A body that the constraints of [impulse_logs] let in. *)
Definition accepted (body : LogBody) (t : Z) (f a : jsstring) : Prop :=
  body_datetime body = Ts t ∧ body_feeling body = Some f ∧ body_acted body = Some a ∧
  (0%N ∉ f) ∧ (a = js "yes" ∨ a = js "no").

(** The row such a body becomes. *)
Definition new_row (env : Env) (w : World) (t : Z) (f a : jsstring) : impulse_logs_row :=
  {| row_id := impulse_logs_id_seq (db w); row_datetime := t; row_feeling := f;
     row_acted := a; row_created_at := pg_now env |}.

(** ** The accounts and the tokens *)

Definition token_missing : Response :=
  {| status := 401; payload := Error (js "未提供认证令牌") |}.

Definition token_invalid : Response :=
  {| status := 401; payload := Error (js "无效的认证令牌") |}.

Definition login_refused : Response :=
  {| status := 401; payload := Error (js "用户名或密码错误") |}.

Definition login_failed : Response :=
  {| status := 500; payload := Error (js "服务器错误") |}.

(** The answer to a login that succeeds. *)
Definition logged_in (token username : jsstring) : Response :=
  {| status := 200;
     payload := Json (JObject [(js "token", JString token);
                               (js "username", JString username)]) |}.

(** ** The chat *)

Definition apology : jsstring := js "抱歉，我暂时无法回答这个问题。".

Definition chat_failure : Response :=
  {| status := 500; payload := Error (js "AI聊天服务暂时不可用") |}.

(** A message of the page as the completion service is told it. *)
Definition spoken (msg : Chat.Message) : Message :=
  {| role := match Chat.sender msg with
             | Chat.user => js "user"
             | Chat.ai => js "assistant"
             end;
     msg_content := Chat.text msg |}.

(** The request the chat page sends. *)
Definition chat_call (now : Z) (env : Env) (authorization : jsstring)
    (body : ChatBody) : Call :=
  {| call_time := now; call_authorization := Some authorization; call_env := env;
     call_request := POST_chat body |}.

(** The notification of a send that failed. *)
Definition send_failed : Chat.Notification :=
  {| Chat.open := true; Chat.message := js "发送消息失败";
     Chat.severity := Chat.error |}.

(** The page after a send that failed: the conversation of before, the
    input cleared, the failure notified. *)
Definition taken_back (s : Chat.State) : Chat.State :=
  {| Chat.messages := Chat.messages s; Chat.input := []; Chat.loading := false;
     Chat.notification := send_failed |}.

(** The page after a send that was answered: the conversation of before
    with the user's message and the reply. *)
Definition replied (now now' : Z) (reply : jsstring) (s : Chat.State) : Chat.State :=
  {| Chat.messages :=
       Chat.messages s
       ++ [ {| Chat.text := Chat.input s; Chat.sender := Chat.user;
               Chat.timestamp := now |};
            {| Chat.text := reply; Chat.sender := Chat.ai; Chat.timestamp := now' |} ];
     Chat.input := []; Chat.loading := false;
     Chat.notification := Chat.notification s |}.

(** ** The dashboard *)

(** The elements of a list, each at its first occurrence. *)
Fixpoint distinct (l : list jsstring) : list jsstring :=
  match l with
  | [] => []
  | x :: r => x :: filter (fun y => y ≠ x) (distinct r)
  end.

(** The logs of a day, and how many of them were resisted. *)
Definition on_day (d : jsstring) (logs : list Dashboard.LogEntry)
  : list Dashboard.LogEntry :=
  filter (fun log => Dashboard.day log = d) logs.

Definition resisted_on (d : jsstring) (logs : list Dashboard.LogEntry) : nat :=
  length (filter (fun log => Dashboard.acted log = js "no") (on_day d logs)).

(** The point of the trend chart for a day. *)
Definition trend_point (logs : list Dashboard.LogEntry) (d : jsstring) : jsstring * Z :=
  (d, rate (Z.of_nat (resisted_on d logs)) (Z.of_nat (length (on_day d logs)))).

(** The counts an accumulator holds for a date, zeros when it has none. *)
Fixpoint entry (d : jsstring) (acc : list Dashboard.Item) : nat * nat :=
  match acc with
  | [] => (0, 0)%nat
  | item :: r =>
    if bool_decide (Dashboard.date item = d)
    then (Dashboard.total item, Dashboard.resisted item)
    else entry d r
  end.

(** ** The start of the pages *)

(** The request the authentication context checks a stored token with. *)
Definition check_call (now : Z) (env : Env) (authorization : jsstring) : Call :=
  {| call_time := now; call_authorization := Some authorization; call_env := env;
     call_request := GET_logs |}.

(** The context after a check that passed: the stored name, when there
    is one, is the user. *)
Definition signed_in (s : AuthContext.State) : AuthContext.State :=
  {| AuthContext.user :=
       match AuthContext.username (AuthContext.localStorage s) with
       | None | Some [] => AuthContext.user s
       | Some name => Some name
       end;
     AuthContext.loading := false;
     AuthContext.localStorage := AuthContext.localStorage s |}.

(** The context after a check that failed: nothing is stored any more. *)
Definition signed_out (s : AuthContext.State) : AuthContext.State :=
  {| AuthContext.user := AuthContext.user s; AuthContext.loading := false;
     AuthContext.localStorage := AuthContext.removed |}.

(** ** The requests of the pages *)

(** A request of a page: its header is always there. *)
Definition page_call (now : Z) (env : Env) (req : Request) (authorization : jsstring)
  : Call :=
  {| call_time := now; call_authorization := Some authorization; call_env := env;
     call_request := req |}.

(** The page holds a token that [authenticate] lets through at [t]. *)
Definition signed (jwt_verify : jsstring -> jsstring -> Z -> bool) (p : ProcessEnv)
    (storage : AuthContext.Storage) (t : Z) : Prop :=
  ∃ token, AuthContext.token storage = Some token ∧ token ≠ [] ∧
           (32%N ∉ token) ∧ jwt_verify token (secret p) t = true.

(** ** Worked cases *)

(** A process without the variables the account code reads. *)
Definition bare_process : ProcessEnv :=
  {| JWT_SECRET := None; DEFAULT_USERNAME := None; DEFAULT_PASSWORD := None |}.

(** A toy token scheme: the token is the secret, without its spaces,
    behind a letter, and never expires. *)
Definition toy_sign (id : Z) (name secret : jsstring) (now : Z) : jsstring :=
  js "t" ++ filter (fun c => c ≠ 32%N) secret.

Definition toy_verify (token secret : jsstring) (now : Z) : bool :=
  bool_decide (token = js "t" ++ filter (fun c => c ≠ 32%N) secret).

(** A request with a token of the toy scheme. *)
Definition sample_call (req : Request) : Call :=
  {| call_time := 5000;
     call_authorization :=
       Some (js "Bearer " ++ toy_sign 1 (js "admin") (js "default-secret") 1000);
     call_env := env_at 5000 (Replied None);
     call_request := req |}.

(** A toy hash: the first sixty ASCII characters of the password, filled
    up with dollar signs; the salt is not used. *)
Definition toy_hash (s salt : jsstring) : jsstring :=
  take 60 (filter (fun c => (0 < c < 128)%N) s ++ replicate 60 36%N).

Definition toy_compare (s : option jsstring) (hash : jsstring) : jsstring + bool :=
  match s with
  | None => inl (js "Illegal arguments: undefined, string")
  | Some s => inr (bool_decide (hash = toy_hash s []))
  end.

(** An empty table of users. *)
Definition no_accounts : Accounts :=
  {| users := []; users_id_seq := 1; console_errors := []; console_logs := [] |}.

(** A conversation of twelve messages with a question typed in. *)
Definition sample_chat : Chat.State :=
  {| Chat.messages :=
       (fun i => {| Chat.text := String_of i;
                    Chat.sender := if Z.even i then Chat.ai else Chat.user;
                    Chat.timestamp := i |}) <$> seqZ 0 12;
     Chat.input := js "what now?"; Chat.loading := false;
     Chat.notification := {| Chat.open := false; Chat.message := [];
                             Chat.severity := Chat.success |} |}.

(** The storage of a page that has logged in under the toy scheme. *)
Definition sample_storage : AuthContext.Storage :=
  {| AuthContext.token := Some (toy_sign 1 (js "admin") (js "default-secret") 1000);
     AuthContext.username := Some (js "admin") |}.

(** The dashboard as it starts at [now], with a form filled in. *)
Definition sample_dashboard (f : Dashboard.FormData) : Dashboard.State :=
  {| Dashboard.logs := []; Dashboard.loading := true; Dashboard.formData := f;
     Dashboard.notification :=
       {| Dashboard.open := false; Dashboard.message := [];
          Dashboard.severity := Dashboard.success |};
     Dashboard.aiAnalysis := None; Dashboard.analysisDialogOpen := false;
     Dashboard.analyzing := false |}.

(** A reading of timestamps for the worked cases: the digits of a text
    as an instant. *)
Definition toy_timestamp_in (s : jsstring) : TimestampParam :=
  match filter (fun c => digit c = true) s with
  | [] => TsInvalid
  | d => Ts (Z.of_N (digits_value d))
  end.

(** * Properties *)

(** ** Sorting and selection *)

Lemma place_perm {A} (before : A -> A -> bool) (x : A) (l : list A) :
  place before x l ≡ₚ x :: l.
Proof.
  induction l as [|y l IH]; simpl; [done|].
  destruct (before y x); [|done].
  rewrite IH. apply Permutation_swap.
Qed.

Lemma order_by_perm {A} (before : A -> A -> bool) (l : list A) :
  order_by before l ≡ₚ l.
Proof.
  induction l as [|x l IH]; simpl; [done|].
  rewrite place_perm. by f_equiv.
Qed.

Lemma order_by_length {A} (before : A -> A -> bool) (l : list A) :
  length (order_by before l) = length l.
Proof. apply Permutation_length, order_by_perm. Qed.

Lemma elem_of_order_by {A} (before : A -> A -> bool) (l : list A) (x : A) :
  x ∈ order_by before l ↔ x ∈ l.
Proof. by rewrite order_by_perm. Qed.

Section OrderByKey.

Context {A : Type} (before : A -> A -> bool) (key : A -> Z).
Hypothesis before_key : ∀ y x, before y x = (key y <? key x).

Lemma place_sorted (x : A) (l : list A) :
  StronglySorted (fun a b => key a <= key b) l →
  StronglySorted (fun a b => key a <= key b) (place before x l).
Proof using before_key.
  induction l as [|y l IH]; simpl; intros Hs.
  - repeat constructor.
  - apply StronglySorted_cons in Hs as [Hy Hl]. rewrite before_key.
    destruct (Z.ltb_spec (key y) (key x)) as [Hlt|Hge].
    + apply StronglySorted_cons. split; [|by apply IH].
      rewrite place_perm. constructor; [lia|done].
    + apply StronglySorted_cons. split.
      * constructor; [lia|]. eapply Forall_impl; [exact Hy|]. simpl. lia.
      * by apply StronglySorted_cons.
Qed.

Lemma order_by_sorted (l : list A) :
  StronglySorted (fun a b => key a <= key b) (order_by before l).
Proof using before_key.
  induction l as [|x l IH]; simpl; [constructor|]. by apply place_sorted.
Qed.

End OrderByKey.

Lemma StronglySorted_weaken {A} (R1 R2 : relation A) (l : list A) :
  (∀ x y, R1 x y → R2 x y) → StronglySorted R1 l → StronglySorted R2 l.
Proof. intros HR. induction 1; constructor; eauto using Forall_impl. Qed.

Lemma StronglySorted_take {A} (R : relation A) (n : nat) (l : list A) :
  StronglySorted R l → StronglySorted R (take n l).
Proof.
  intros Hl. rewrite <- (take_drop n l) in Hl. by apply StronglySorted_app_1_l in Hl.
Qed.

Lemma datetime_desc_sorted (l : list impulse_logs_row) :
  StronglySorted (fun a b => row_datetime b <= row_datetime a)
                 (order_by datetime_desc l).
Proof.
  eapply StronglySorted_weaken;
    [|apply (order_by_sorted datetime_desc (fun r => - row_datetime r))].
  - simpl. intros. lia.
  - intros y x. unfold datetime_desc.
    destruct (Z.ltb_spec (row_datetime x) (row_datetime y)),
             (Z.ltb_spec (- row_datetime y) (- row_datetime x)); lia || done.
Qed.

Lemma elem_of_select_between (d : Db) (t1 t2 : Z) (log : Log) :
  log ∈ select_between d t1 t2 ↔
  ∃ r, r ∈ impulse_logs d ∧ project r = log ∧ t1 <= row_datetime r <= t2.
Proof.
  unfold select_between. rewrite list_elem_of_fmap. split.
  - intros (r & -> & Hr). apply elem_of_order_by, list_elem_of_filter in Hr.
    exists r. tauto.
  - intros (r & Hr & <- & Ht). exists r. split; [done|].
    apply elem_of_order_by, list_elem_of_filter. tauto.
Qed.

Lemma select_between_length (d : Db) (t1 t2 : Z) :
  length (select_between d t1 t2) =
  length (filter (fun r => t1 <= row_datetime r <= t2) (impulse_logs d)).
Proof. unfold select_between. by rewrite length_fmap, order_by_length. Qed.

Lemma filter_none {A} (P : A → Prop) `{!∀ x, Decision (P x)} (l : list A) :
  (∀ x, x ∈ l → ¬ P x) → filter P l = [].
Proof.
  induction l as [|x l IH]; intros Hl; [done|].
  rewrite filter_cons_False by (apply Hl; left).
  apply IH. intros y Hy. apply Hl. by right.
Qed.

Lemma filter_all {A} (P : A → Prop) `{!∀ x, Decision (P x)} (l : list A) :
  (∀ x, x ∈ l → P x) → filter P l = l.
Proof.
  induction l as [|x l IH]; intros Hl; [done|].
  rewrite filter_cons_True by (apply Hl; left).
  f_equal. apply IH. intros y Hy. apply Hl. by right.
Qed.

Lemma select_between_nil (d : Db) (t1 t2 : Z) :
  (∀ r, r ∈ impulse_logs d → ¬ t1 <= row_datetime r <= t2) →
  select_between d t1 t2 = [].
Proof.
  intros H. unfold select_between. by rewrite filter_none.
Qed.

(** ** The log store *)

Lemma with_db_same (w : World) : with_db w (db w) = w.
Proof. by destruct w. Qed.

Lemma set_impulse_logs_same (d : Db) :
  set_impulse_logs d (impulse_logs d) (impulse_logs_id_seq d) = d.
Proof. by destruct d. Qed.

Lemma delete_logs_id_eq (id : Z) (w : World) :
  int4 id = true →
  delete_logs_id id w =
  (no_content,
   with_db w (set_impulse_logs (db w)
     (filter (fun r => row_id r <> id) (impulse_logs (db w)))
     (impulse_logs_id_seq (db w)))).
Proof.
  intros Hid. unfold delete_logs_id, try_catch, mbind, M_bind, delete_impulse_logs.
  by rewrite Hid.
Qed.

Lemma delete_logs_id_out_of_range (id : Z) (w : World) :
  int4 id = false →
  delete_logs_id id w
  = (storage_failure, console_error [] (DatabaseError numeric_value_out_of_range) w).
Proof.
  intros Hid. unfold delete_logs_id, try_catch, mbind, M_bind, delete_impulse_logs.
  by rewrite Hid.
Qed.

(** C10, as stated, fails: the id 2147483648, which no row carries, is
    outside the range of the column, PostgreSQL refuses the statement and
    the answer is 500. *)
Lemma delete_of_an_absent_id_can_fail :
  Forall (fun r => row_id r ≠ 2147483648)
         (impulse_logs (db (world_of [sample_row 1 0 "sad" "no"]))) ∧
  (delete_logs_id 2147483648 (world_of [sample_row 1 0 "sad" "no"])).1
  = storage_failure ∧
  status storage_failure = 500.
Proof.
  split; [|by vm_compute]. repeat constructor. by vm_compute.
Qed.

(** C10, amended.  For an id that no row of the log store carries:
    within the range of the column, [DELETE /api/logs/:id] answers 204
    (not 404, not 500) and leaves the world as it was; outside that
    range, where no row can be, it answers 500, logs the error and leaves
    both tables as they were.  For any id of the range, present or not,
    deleting it a second time answers 204 again and changes nothing more;
    and for every id the second delete is answered like the first and
    leaves the tables as the first left them: twice is the same as
    once. *)
Theorem delete_absent_id_is_noop (id : Z) (w : World) :
  (int4 id = true →
   ((∀ r, r ∈ impulse_logs (db w) → row_id r ≠ id) →
    delete_logs_id id w = (no_content, w)) ∧
   (delete_logs_id id w).1 = no_content ∧
   delete_logs_id id (delete_logs_id id w).2 = (no_content, (delete_logs_id id w).2)) ∧
  (int4 id = false →
   delete_logs_id id w
   = (storage_failure, console_error [] (DatabaseError numeric_value_out_of_range) w) ∧
   db (delete_logs_id id w).2 = db w) ∧
  (delete_logs_id id (delete_logs_id id w).2).1 = (delete_logs_id id w).1 ∧
  db (delete_logs_id id (delete_logs_id id w).2).2 = db (delete_logs_id id w).2.
Proof.
  destruct (int4 id) eqn:Hid.
  - rewrite !delete_logs_id_eq by done. simpl.
    assert (filter (fun r => row_id r ≠ id)
              (filter (fun r => row_id r ≠ id) (impulse_logs (db w)))
            = filter (fun r => row_id r ≠ id) (impulse_logs (db w))) as Htwice
      by by rewrite list_filter_filter_l.
    split; [|split; [done|split; [done|by rewrite Htwice]]].
    intros _. split; [|split; [done|by rewrite Htwice]].
    intros Habsent. rewrite filter_all by done.
    by rewrite set_impulse_logs_same, with_db_same.
  - rewrite !delete_logs_id_out_of_range by done.
    split; [done|]. split; [done|]. done.
Qed.

Lemma delete_absent_id_is_noop_witness :
  delete_logs_id 7 (world_of [sample_row 1 0 "sad" "no"])
  = (no_content, world_of [sample_row 1 0 "sad" "no"]).
Proof.
  apply (proj1 (proj1 (delete_absent_id_is_noop 7 _) eq_refl)).
  intros r Hr. apply list_elem_of_singleton in Hr. by subst r.
Defined.

(** C9, as stated, fails: a request whose feeling is the empty text is
    answered 201 and its entry is in the log store afterwards. *)
Lemma empty_feeling_is_stored :
  body_feeling empty_feeling_body = Some [] ∧
  status (post_logs (env_at 2000 (Replied None)) empty_feeling_body empty_world).1 = 201 ∧
  impulse_logs (db (post_logs (env_at 2000 (Replied None)) empty_feeling_body empty_world).2)
  = [ {| row_id := 1; row_datetime := 1000; row_feeling := []; row_acted := js "no";
         row_created_at := 2000 |} ] ∧
  impulse_logs (db empty_world) = [].
Proof. by vm_compute. Qed.

(** C9, amended.  [POST /api/logs] does not look at the feeling text; the
    table's constraints decide.  A request without a feeling is refused by
    the store: the answer is the storage failure (500) and no row is
    added to either table.  A request whose feeling is the empty text,
    with a readable datetime and [acted] yes or no, is answered 201 with
    the new row, which is appended to the log store. *)
Theorem post_logs_leaves_feeling_to_the_store (env : Env) (body : LogBody) (w : World) :
  (body_feeling body = None →
   (post_logs env body w).1 = storage_failure ∧
   impulse_logs (db (post_logs env body w).2) = impulse_logs (db w) ∧
   reports (db (post_logs env body w).2) = reports (db w)) ∧
  (∀ t a, body_feeling body = Some [] → body_datetime body = Ts t →
   body_acted body = Some a → a = js "yes" ∨ a = js "no" →
   (post_logs env body w).1
   = {| status := 201;
        payload := LogRow {| row_id := impulse_logs_id_seq (db w); row_datetime := t;
                             row_feeling := []; row_acted := a;
                             row_created_at := pg_now env |} |} ∧
   impulse_logs (db (post_logs env body w).2)
   = impulse_logs (db w)
     ++ [ {| row_id := impulse_logs_id_seq (db w); row_datetime := t;
             row_feeling := []; row_acted := a; row_created_at := pg_now env |} ]).
Proof.
  destruct body as [dt f a0]. simpl. split.
  - intros ->. unfold post_logs, try_catch, mbind, M_bind, insert_impulse_logs. simpl.
    destruct (bind_timestamp dt) as [e|t]; [done|].
    destruct (has_nul a0); [done|]. simpl.
    unfold impulse_logs_constraints.
    destruct (too_long a0); [done|]. by destruct t.
  - by intros t a -> -> -> [-> | ->].
Qed.

Lemma post_logs_leaves_feeling_to_the_store_witness :
  (post_logs (env_at 2000 (Replied None))
     {| body_datetime := Ts 1000; body_feeling := None; body_acted := Some (js "no") |}
     empty_world).1 = storage_failure.
Proof.
  apply (proj1 (post_logs_leaves_feeling_to_the_store (env_at 2000 (Replied None))
     {| body_datetime := Ts 1000; body_feeling := None; body_acted := Some (js "no") |}
     empty_world)).
  reflexivity.
Defined.

(** ** The weekly report: selection and failure paths *)

Section Report.

Variable toLowerCase : jsstring -> jsstring.
Variable toLocaleDateString : Z -> jsstring.

(** The call the handler makes in the world [w]. *)
Local Abbreviation request env w :=
  (report_request toLowerCase toLocaleDateString env (window env w)).

Lemma generate_empty (env : Env) (w : World) :
  window env w = [] →
  generate toLowerCase toLocaleDateString env w = (inr insufficient_data, w).
Proof.
  unfold generate. intros ->. done.
Qed.

Lemma generate_call (env : Env) (w : World) :
  window env w ≠ [] →
  generate toLowerCase toLocaleDateString env w =
  match completion env with
  | Rejected m => (inl (OpenAIError m), called w (request env w))
  | Replied aiResponse =>
    (reportResult ← insert_reports env (weekStart env) (weekEnd env)
                      (or_else aiResponse (js "无法生成洞察"));
     mret {| status := 201; payload := ReportRow reportResult |})
      (called w (request env w))
  end.
Proof.
  unfold generate, mbind, M_bind, create.
  intros Hne. rewrite bool_decide_eq_false_2.
  - by destruct (completion env).
  - by intros ?%length_zero_iff_nil.
Qed.

(** C1.  When no row of the log store has its datetime in the window of
    the request, [POST /api/reports/generate] answers 400 with the
    no-data message and the world is as before: no row in [reports], no
    call to the completion service, nothing on the console. *)
Theorem generate_without_logs (env : Env) (w : World) :
  (∀ r, r ∈ impulse_logs (db w) →
        ¬ weekStart env <= row_datetime r <= weekEnd env) →
  post_reports_generate toLowerCase toLocaleDateString env w = (insufficient_data, w).
Proof.
  intros Hnone. unfold post_reports_generate, try_catch.
  rewrite generate_empty; [done|]. by apply select_between_nil.
Qed.

(** C2.  When the completion service rejects the narrative call with an
    error [m], that very error leaves the [try] block, the handler logs it
    and answers 500 with the failure message, and the tables are as
    before the request: no report is stored.  The only traces are the
    call made and the console line. *)
Theorem generate_service_failure (env : Env) (w : World) (m : jsstring) :
  completion env = Rejected m →
  window env w ≠ [] →
  generate toLowerCase toLocaleDateString env w
  = (inl (OpenAIError m), called w (request env w)) ∧
  post_reports_generate toLowerCase toLocaleDateString env w
  = (report_failure,
     console_error (js "生成报告错误:") (OpenAIError m) (called w (request env w))) ∧
  db (post_reports_generate toLowerCase toLocaleDateString env w).2 = db w.
Proof.
  intros Hm Hne. unfold post_reports_generate, try_catch.
  rewrite generate_call, Hm by done. done.
Qed.

End Report.

Lemma generate_without_logs_witness :
  post_reports_generate ascii_lower day_number (env_at (30 * msPerDay) (Replied None))
    (world_of [sample_row 1 0 "sad" "no"])
  = (insufficient_data, world_of [sample_row 1 0 "sad" "no"]).
Proof.
  apply (generate_without_logs ascii_lower day_number).
  intros r Hr. apply list_elem_of_singleton in Hr. subst r. vm_compute.
  intros [H _]. by apply H.
Defined.

Lemma generate_service_failure_witness :
  db (post_reports_generate ascii_lower day_number
        (env_at (3 * msPerDay) (Rejected (js "503")))
        (world_of [sample_row 1 0 "sad" "no"])).2
  = db (world_of [sample_row 1 0 "sad" "no"]).
Proof.
  apply (generate_service_failure ascii_lower day_number
           (env_at (3 * msPerDay) (Rejected (js "503")))
           (world_of [sample_row 1 0 "sad" "no"]) (js "503") eq_refl).
  vm_compute. discriminate.
Defined.

(** C7, as stated, fails: an entry dated exactly at the end of the window
    is selected and counted. *)
Lemma entry_at_window_end_is_counted :
  row_datetime (sample_row 1 (30 * msPerDay) "sad" "no")
  = weekEnd (env_at (30 * msPerDay) (Replied None)) ∧
  totalImpulses (window (env_at (30 * msPerDay) (Replied None))
                        (world_of [sample_row 1 (30 * msPerDay) "sad" "no"])) = 1%nat.
Proof. by vm_compute. Qed.

(** C7, amended.  The report works on the closed window from seven days
    before the second reading of the clock to its first reading: a log is
    selected exactly when it is the projection of a row whose datetime is
    neither before the start nor after the end (a row dated at either
    bound is in), and [totalImpulses] counts exactly those rows. *)
Theorem report_window_is_closed (env : Env) (w : World) :
  (∀ log, log ∈ window env w ↔
     ∃ r, r ∈ impulse_logs (db w) ∧ project r = log ∧
          clock' env - 7 * msPerDay <= row_datetime r <= clock env) ∧
  totalImpulses (window env w)
  = length (filter (fun r => clock' env - 7 * msPerDay <= row_datetime r <= clock env)
                   (impulse_logs (db w))).
Proof.
  split.
  - intros log. apply elem_of_select_between.
  - apply select_between_length.
Qed.

(** ** The chat context *)

(** C8, as stated, fails: entries dated after now count as recent.  With
    eleven entries within the last seven days and ten dated a year ahead,
    the context holds ten entries, all of them dated after now, and so
    none of the entries of the last seven days. *)
Lemma future_entries_fill_the_context :
  length (last_7_days (env_at (30 * msPerDay) (Replied None))
                      (db (world_of crowded_rows))) = 11%nat ∧
  length (contextResult (env_at (30 * msPerDay) (Replied None))
                        (db (world_of crowded_rows))) = 10%nat ∧
  forallb (fun log => pg_now (env_at (30 * msPerDay) (Replied None)) <? datetime log)
          (contextResult (env_at (30 * msPerDay) (Replied None))
                         (db (world_of crowded_rows))) = true.
Proof. repeat split; by vm_compute. Qed.

Lemma last_7_days_no_future (env : Env) (d : Db) :
  (∀ r, r ∈ impulse_logs d → row_datetime r <= pg_now env) →
  not_older_than_7_days env d = last_7_days env d.
Proof.
  intros Hpast. unfold not_older_than_7_days, last_7_days. f_equal.
  induction (impulse_logs d) as [|r l IH]; [done|].
  pose proof (Hpast r (list_elem_of_here r l)) as Hr.
  rewrite !filter_cons, IH by (intros r' Hr'; by apply Hpast, list_elem_of_further).
  repeat case_decide; try done; lia.
Qed.

(** C8, amended.  The chat context holds [min 10 n] of the [n] entries
    that are not older than seven days, newest first; they are the most
    recent ones: the entries left out are no newer than any entry kept;
    with ten or fewer of them the context holds them all; no entry of the
    context is older than seven days.  An entry dated after now is one of
    them: the entries within the last seven days are among the [n], and
    they are all of the [n] when no entry of the store is dated after
    now.  The system message of the call carries the rows of the context,
    one line each and in this order, between its two fixed sentences. *)
Theorem chat_context_is_the_ten_most_recent (env : Env) (d : Db) :
  length (contextResult env d) = min 10 (length (not_older_than_7_days env d)) ∧
  StronglySorted (fun a b => datetime b <= datetime a) (contextResult env d) ∧
  (∃ older, not_older_than_7_days env d ≡ₚ contextResult env d ++ older ∧
     ∀ a b, a ∈ contextResult env d → b ∈ older → datetime b <= datetime a) ∧
  (∀ a, a ∈ contextResult env d → pg_now env - 7 * msPerDay <= datetime a) ∧
  ((length (not_older_than_7_days env d) <= 10)%nat →
   contextResult env d ≡ₚ not_older_than_7_days env d) ∧
  last_7_days env d `sublist_of` not_older_than_7_days env d ∧
  ((∀ r, r ∈ impulse_logs d → row_datetime r <= pg_now env) →
   not_older_than_7_days env d = last_7_days env d) ∧
  (∀ Date_toString body w, blank (body_message body) = false → db w = d →
     openai_calls (post_chat Date_toString env body w).2
     = openai_calls w ++ [chat_request Date_toString env body d] ∧
     head (messages (chat_request Date_toString env body d))
     = Some {| role := js "system";
               msg_content :=
                 js "你是一个心理健康助手，专门帮助用户管理冲动行为。以下是用户最近7天的冲动记录作为上下文："
                 ++ nl ++ join nl (line_of Date_toString <$> contextResult env d)
                 ++ nl ++ nl
                 ++ js "请基于这些信息，以专业、同理心的态度回答用户的问题。" |}).
Proof.
  split; [|split; [|split; [|split; [|split; [|split; [|split]]]]]].
  6:{ unfold last_7_days, not_older_than_7_days. apply fmap_sublist.
      induction (impulse_logs d) as [|r l IH]; [done|].
      rewrite !filter_cons. repeat case_decide; try lia;
        [by apply sublist_skip|by apply sublist_cons|done]. }
  6:{ apply last_7_days_no_future. }
  6:{ intros Date_toString body w Hmsg <-.
      unfold post_chat. rewrite Hmsg.
      unfold try_catch, mbind, M_bind, get_db, create.
      split; [by destruct (completion env)|].
      unfold chat_request, chat_prompt. cbn [messages app head].
      unfold context_line, line_of. reflexivity. }
  all: unfold contextResult, select_recent, not_older_than_7_days.
  all: set (rows := filter _ (impulse_logs d)).
  all: pose proof (datetime_desc_sorted rows) as Hsorted.
  all: pose proof (order_by_perm datetime_desc rows) as Hperm.
  all: set (sorted := order_by datetime_desc rows) in *.
  all: rewrite <- (take_drop 10 sorted) in Hsorted.
  all: apply StronglySorted_app in Hsorted as (Hcut & Hkept & _).
  - rewrite !length_fmap, length_take. f_equal. by apply Permutation_length.
  - eapply StronglySorted_fmap; [|exact Hkept]. done.
  - exists (project <$> drop 10 sorted). split.
    + by rewrite <- fmap_app, take_drop, Hperm.
    + intros a b (ra & -> & Ha)%list_elem_of_fmap (rb & -> & Hb)%list_elem_of_fmap.
      simpl. by apply Hcut.
  - intros a (ra & -> & Ha)%list_elem_of_fmap. simpl.
    apply subseteq_take in Ha. unfold sorted in Ha.
    apply elem_of_order_by in Ha. unfold rows in Ha.
    by apply list_elem_of_filter in Ha as [? _].
  - intros Hle. rewrite length_fmap in Hle.
    rewrite take_ge; [by rewrite Hperm|].
    unfold sorted. by rewrite order_by_length.
Qed.

(** The chat context in a worked case: of twelve rows of the last day the
    ten newest are kept. *)
Lemma chat_context_is_the_ten_most_recent_witness :
  length (contextResult (env_at (30 * msPerDay) (Replied None))
                        (db (world_of twelve_rows))) = 10%nat.
Proof.
  exact (proj1 (chat_context_is_the_ten_most_recent
                  (env_at (30 * msPerDay) (Replied None)) (db (world_of twelve_rows)))).
Defined.

(** ** The peak hour *)

Lemma getHours_range (t h : Z) : getHours t = Some h → 0 <= h < 24.
Proof.
  unfold getHours. case_match; [|done]. intros [= <-].
  apply Z.mod_pos_bound. lia.
Qed.

Lemma tally_lookup (logs : list Log) (stats : list nat) (h : nat) :
  fold_left count_hour logs stats !! h
  = (fun n => (n + at_hour (Z.of_nat h) logs)%nat) <$> stats !! h.
Proof.
  revert stats. induction logs as [|log logs IH]; intros stats; simpl.
  - unfold at_hour. simpl. destruct (stats !! h); simpl; f_equal; lia.
  - rewrite IH. unfold at_hour, count_hour. rewrite filter_cons.
    destruct (getHours (datetime log)) as [hour|] eqn:Hhour.
    + apply getHours_range in Hhour.
      destruct (decide (Some hour = Some (Z.of_nat h))) as [[= ->]|Hne].
      * rewrite Nat2Z.id, list_lookup_alter_eq.
        destruct (stats !! h); simpl; f_equal; lia.
      * rewrite list_lookup_alter_ne; [done|]. intros <-. apply Hne.
        by rewrite Z2Nat.id by lia.
    + by rewrite decide_False.
Qed.

Lemma hourlyStats_length (logs : list Log) : length (hourlyStats logs) = 24%nat.
Proof.
  unfold hourlyStats. generalize (replicate 24 0%nat), (@length_replicate nat 24 0%nat).
  induction logs as [|log logs IH]; intros stats Hlen; simpl; [done|].
  apply IH. unfold count_hour. case_match; [|done]. by rewrite length_alter.
Qed.

Lemma hourlyStats_lookup (logs : list Log) (h : nat) :
  (h < 24)%nat → hourlyStats logs !! h = Some (at_hour (Z.of_nat h) logs).
Proof.
  intros Hh. unfold hourlyStats. rewrite tally_lookup.
  by rewrite lookup_replicate_2.
Qed.

Lemma Math_max_upper (a : list nat) (x : nat) : x ∈ a → (x <= Math_max a)%nat.
Proof.
  induction 1 as [x a|x y a _ IH]; simpl; lia.
Qed.

Lemma Math_max_elem (a : list nat) : a ≠ [] → Math_max a ∈ a.
Proof.
  induction a as [|x a IH]; [done|]. intros _. simpl.
  destruct a as [|y a].
  - simpl. rewrite Nat.max_0_r. left.
  - destruct (Nat.max_spec x (Math_max (y :: a))) as [[_ ->]|[_ ->]].
    + right. by apply IH.
    + left.
Qed.

Lemma indexOf_first (a : list nat) (v : nat) :
  v ∈ a →
  ∃ i : nat, indexOf a v = Z.of_nat i ∧ a !! i = Some v ∧
             ∀ j x, (j < i)%nat → a !! j = Some x → x ≠ v.
Proof.
  induction a as [|x a IH]; [by intros ?%elem_of_nil|].
  intros Hin. simpl. destruct (Nat.eqb_spec x v) as [->|Hne].
  - exists 0%nat. split; [done|]. split; [done|]. lia.
  - apply elem_of_cons in Hin as [->|Hin]; [done|].
    destruct (IH Hin) as (i & Hi & Hv & Hfirst). exists (S i).
    rewrite Hi. split; [|split; [done|]].
    + destruct (Z.ltb_spec (Z.of_nat i) 0); lia.
    + intros [|j] y Hj Hy; simpl in Hy; [by simplify_eq|].
      eapply Hfirst; [|done]. lia.
Qed.

(** C5.  [peakHour] is an hour of the day with the largest number of
    logs among the twenty-four, and the lowest such hour: every earlier
    hour has strictly fewer logs.  (This holds for every list of logs;
    the handler computes it for windows that are not empty.) *)
Theorem peakHour_is_first_maximum (logs : list Log) :
  0 <= peakHour logs < 24 ∧
  (∀ h, 0 <= h < 24 → (at_hour h logs <= at_hour (peakHour logs) logs)%nat) ∧
  (∀ h, 0 <= h < peakHour logs → (at_hour h logs < at_hour (peakHour logs) logs)%nat).
Proof.
  unfold peakHour.
  pose proof (hourlyStats_length logs) as Hlen.
  assert (hourlyStats logs ≠ []) as Hne by (intros E; by rewrite E in Hlen).
  destruct (indexOf_first _ _ (Math_max_elem _ Hne)) as (i & -> & Hi & Hfirst).
  assert (i < 24)%nat as Hi24 by (rewrite <- Hlen; by eapply lookup_lt_Some).
  rewrite hourlyStats_lookup in Hi by done.
  injection Hi as Hi. rewrite Hi.
  assert (∀ h, 0 <= h < 24 →
            (at_hour h logs <= Math_max (hourlyStats logs))%nat) as Hmax.
  { intros h Hh. apply Math_max_upper, list_elem_of_lookup. exists (Z.to_nat h).
    rewrite hourlyStats_lookup by lia. by rewrite Z2Nat.id by lia. }
  split; [lia|]. split; [done|].
  intros h Hh. specialize (Hmax h ltac:(lia)).
  specialize (Hfirst (Z.to_nat h) (at_hour h logs) ltac:(lia)).
  rewrite hourlyStats_lookup, Z2Nat.id in Hfirst by lia.
  specialize (Hfirst eq_refl). lia.
Qed.

(** ** The emotion words *)

Lemma tally_bump (k w : jsstring) (obj : Record_number) :
  tally k (bump w obj) = if bool_decide (k = w) then S (tally w obj) else tally k obj.
Proof.
  induction obj as [|[k' n] obj IH]; simpl.
  - rewrite (bool_decide_ext (w = k) (k = w)) by done. done.
  - destruct (decide (k' = w)) as [->|Hne].
    + rewrite !bool_decide_eq_true_2 by done. simpl.
      rewrite (bool_decide_ext (w = k) (k = w)) by done. by case_bool_decide.
    + rewrite (bool_decide_eq_false_2 (k' = w)) by done. simpl. rewrite IH.
      case_bool_decide; subst; [|done].
      by rewrite !bool_decide_eq_false_2 by done.
Qed.

Lemma bump_names (w : jsstring) (obj : Record_number) :
  (bump w obj).*1 = obj.*1 ++ (if decide (w ∈ obj.*1) then [] else [w]).
Proof.
  induction obj as [|[k n] obj IH].
  - case_decide as Hw; [by apply elem_of_nil in Hw|done].
  - cbn [bump]. rewrite !fmap_cons. cbn [fst].
    case_bool_decide as Hk.
    + subst k. rewrite fmap_cons. cbn [fst].
      rewrite decide_True by left. by rewrite app_nil_r.
    + rewrite fmap_cons, IH. cbn [fst]. rewrite <- app_comm_cons. f_equal. f_equal.
      apply decide_ext. rewrite elem_of_cons. naive_solver.
Qed.

Lemma bump_NoDup (w : jsstring) (obj : Record_number) :
  NoDup obj.*1 → NoDup (bump w obj).*1.
Proof.
  intros Hnd. rewrite bump_names. case_decide; [by rewrite app_nil_r|].
  apply NoDup_app. split; [done|]. split; [|apply NoDup_singleton].
  intros x Hx ->%list_elem_of_singleton. done.
Qed.

Lemma tally_elem (k : jsstring) (n : nat) (obj : Record_number) :
  NoDup obj.*1 → (k, n) ∈ obj → tally k obj = n.
Proof.
  induction obj as [|[k' n'] obj IH]; simpl; [by intros _ ?%elem_of_nil|].
  intros [Hk' Hnd]%NoDup_cons [[= -> ->]|Hin]%elem_of_cons.
  - by rewrite bool_decide_eq_true_2.
  - rewrite bool_decide_eq_false_2; [by apply IH|].
    intros ->. apply Hk'. apply list_elem_of_fmap. by exists (k, n).
Qed.

Lemma count_words_tally (k : jsstring) (ws : list jsstring) (obj : Record_number) :
  tally k (count_words ws obj) = (tally k obj + occurrences k ws)%nat.
Proof.
  revert obj. induction ws as [|w ws IH]; intros obj; simpl.
  - unfold occurrences. simpl. lia.
  - unfold count_words in *. simpl. rewrite IH, tally_bump. unfold occurrences.
    rewrite filter_cons. destruct (decide (w = k)) as [->|Hne].
    + rewrite bool_decide_eq_true_2 by done. simpl. lia.
    + by rewrite bool_decide_eq_false_2 by done.
Qed.

Lemma count_words_NoDup (ws : list jsstring) (obj : Record_number) :
  NoDup obj.*1 → NoDup (count_words ws obj).*1.
Proof.
  revert obj. induction ws as [|w ws IH]; intros obj Hnd; [done|].
  apply IH. by apply bump_NoDup.
Qed.

Lemma count_words_names (k : jsstring) (ws : list jsstring) (obj : Record_number) :
  k ∈ (count_words ws obj).*1 ↔ k ∈ obj.*1 ∨ k ∈ ws.
Proof.
  revert obj. induction ws as [|w ws IH]; intros obj; simpl.
  - rewrite elem_of_nil. tauto.
  - unfold count_words in *. simpl. rewrite IH, bump_names, elem_of_app, elem_of_cons.
    case_decide; [rewrite elem_of_nil|rewrite list_elem_of_singleton]; naive_solver.
Qed.

Lemma split_from_cons (b : bool) (s : jsstring) :
  ∃ w ws, split_from b s = w :: ws.
Proof.
  revert b. induction s as [|c r IH]; intros b; simpl; [by eauto|].
  destruct (isWhiteSpace c).
  - destruct b; eauto.
  - destruct (IH false) as (w & ws & ->). eauto.
Qed.

Lemma split_from_no_space (b : bool) (s : jsstring) :
  Forall (Forall (fun c => isWhiteSpace c = false)) (split_from b s).
Proof.
  revert b. induction s as [|c r IH]; intros b; simpl; [by repeat constructor|].
  destruct (isWhiteSpace c) eqn:Hc.
  - destruct b; [done|]. by constructor.
  - specialize (IH false). destruct (split_from false r) as [|w ws].
    + by repeat constructor.
    + apply Forall_cons in IH as [Hw Hws]. by repeat constructor.
Qed.

Lemma ends_with_space_cons (c : N) (r : jsstring) :
  ends_with_space (c :: r)
  = if bool_decide (r = []) then isWhiteSpace c else ends_with_space r.
Proof. unfold ends_with_space. by destruct r. Qed.

(** Where the empty piece arises: at the head of the pieces, and behind
    it. *)
Lemma split_from_empty_piece (b : bool) (s : jsstring) :
  (head (split_from b s) = Some [] ↔
     if b then trim_is_empty s = true
     else s = [] ∨ starts_with_space s = true) ∧
  ([] ∈ tail (split_from b s) ↔
     ends_with_space s = true ∧ (b = true → trim_is_empty s = false)).
Proof.
  revert b. induction s as [|c r IH]; intros b.
  - simpl. rewrite elem_of_nil. destruct b; naive_solver.
  - rewrite ends_with_space_cons. cbn [split_from trim_is_empty forallb].
    unfold starts_with_space. cbn [head].
    destruct (isWhiteSpace c) eqn:Hc.
    + destruct b.
      * destruct (IH true) as [IHh IHt]. rewrite IHh, IHt. cbn [andb].
        split; [done|]. case_bool_decide; subst; naive_solver.
      * destruct (IH true) as [IHh IHt]. cbn [head tail]. split; [naive_solver|].
        destruct (split_from_cons true r) as (w & ws & Hs).
        rewrite Hs in IHh, IHt. rewrite Hs, elem_of_cons. cbn [head tail] in *.
        case_bool_decide as Hr.
        -- subst r. naive_solver.
        -- destruct (trim_is_empty r) eqn:Hall.
           ++ assert (ends_with_space r = true) as ->.
              { clear -Hall Hr. induction r as [|x r IHr]; [done|].
                rewrite ends_with_space_cons. simpl in Hall.
                apply andb_prop in Hall as [Hx Hall].
                case_bool_decide; [done|]. by apply IHr. }
              naive_solver.
           ++ split.
              ** intros [Hw|Hin]; [|naive_solver].
                 assert (Some w = Some []) as Hw' by (by rewrite Hw).
                 apply IHh in Hw'. done.
              ** intros [He _]. right. apply IHt. naive_solver.
    + destruct (IH false) as [IHh IHt].
      destruct (split_from_cons false r) as (w & ws & Hs).
      rewrite Hs in IHh, IHt. rewrite Hs. cbn [head tail andb] in *.
      split; [destruct b; naive_solver|].
      rewrite IHt. case_bool_decide as Hr; [subst r|]; naive_solver.
Qed.

(** The empty piece is among the pieces of a text exactly when the text
    is empty or begins or ends with white space. *)
Lemma split_empty_piece (s : jsstring) :
  [] ∈ split s ↔ s = [] ∨ starts_with_space s = true ∨ ends_with_space s = true.
Proof.
  unfold split. destruct (split_from_empty_piece false s) as [Hh Ht].
  destruct (split_from_cons false s) as (w & ws & Hs).
  rewrite Hs in Hh, Ht. rewrite Hs, elem_of_cons. cbn [head tail] in *.
  split.
  - intros [Hw|Hin]; [|naive_solver]. subst w. naive_solver.
  - intros [?|[?|?]]; [left|left|right]; naive_solver.
Qed.

Lemma Object_entries_perm (obj : Record_number) : Object_entries obj ≡ₚ obj.
Proof.
  unfold Object_entries. rewrite order_by_perm. apply filter_app_complement.
Qed.

Lemma count_desc_sorted (l : list (jsstring * nat)) :
  StronglySorted (fun a b => (b.2 <= a.2)%nat) (order_by count_desc l).
Proof.
  eapply StronglySorted_weaken;
    [|apply (order_by_sorted count_desc (fun e => - Z.of_nat e.2))].
  - simpl. intros. lia.
  - intros y x. unfold count_desc.
    destruct (Nat.ltb_spec x.2 y.2),
             (Z.ltb_spec (- Z.of_nat y.2) (- Z.of_nat x.2)); lia || done.
Qed.

Lemma StronglySorted_Forall {A} (R : relation A) (P : A → Prop) (l : list A) :
  StronglySorted R l → Forall P l →
  StronglySorted (fun a b => P a ∧ P b ∧ R a b) l.
Proof.
  induction 1 as [|x l Hl IH Hx]; intros HP; [constructor|].
  apply Forall_cons in HP as [Px Pl]. constructor; [by apply IH|].
  rewrite Forall_forall in *. naive_solver.
Qed.

Section EmotionWords.

Variable toLowerCase : jsstring -> jsstring.

Lemma emotionWords_flat (logs : list Log) :
  emotionWords toLowerCase logs = count_words (all_words toLowerCase logs) [].
Proof.
  unfold emotionWords, all_words, count_words. generalize (@nil (jsstring * nat)).
  induction logs as [|log logs IH]; intros obj; simpl; [done|].
  by rewrite IH, fold_left_app.
Qed.

Lemma ranked_perm (logs : list Log) :
  ranked toLowerCase logs ≡ₚ emotionWords toLowerCase logs.
Proof. unfold ranked. by rewrite order_by_perm, Object_entries_perm. Qed.

Lemma ranked_NoDup (logs : list Log) : NoDup (ranked toLowerCase logs).*1.
Proof.
  rewrite ranked_perm, emotionWords_flat. apply count_words_NoDup. constructor.
Qed.

Lemma ranked_names (logs : list Log) (w : jsstring) :
  w ∈ (ranked toLowerCase logs).*1 ↔ w ∈ all_words toLowerCase logs.
Proof.
  rewrite ranked_perm, emotionWords_flat, count_words_names, elem_of_nil. tauto.
Qed.

Lemma ranked_counts (logs : list Log) :
  Forall (fun e => e.2 = occurrences e.1 (all_words toLowerCase logs))
         (ranked toLowerCase logs).
Proof.
  apply Forall_forall. intros [k n] Hin. simpl.
  rewrite ranked_perm, emotionWords_flat in Hin.
  apply tally_elem in Hin; [|apply count_words_NoDup; constructor].
  rewrite count_words_tally in Hin. simpl in Hin. lia.
Qed.

Lemma topEmotions_ranked (logs : list Log) :
  topEmotions toLowerCase logs = take 3 (ranked toLowerCase logs).*1.
Proof. unfold topEmotions, ranked. by rewrite fmap_take. Qed.

(** C6, amended.  For logs none of whose words is a name inherited from
    [Object.prototype]: the words are the pieces of the lower-cased
    feelings between runs of white space, the empty piece included (it
    arises at a leading or trailing run and from an empty text);
    [topEmotions] are distinct words of the window; there are three of
    them, or as many as there are distinct words if these are fewer; they
    stand in descending order of their number of occurrences; and no
    word left out occurs more often than one of them. *)
Theorem topEmotions_are_the_most_frequent_words (logs : list Log) :
  (∀ w, w ∈ all_words toLowerCase logs → w ∉ Object_prototype_names) →
  length (topEmotions toLowerCase logs)
  = min 3 (length (remove_dups (all_words toLowerCase logs))) ∧
  NoDup (topEmotions toLowerCase logs) ∧
  (∀ w, w ∈ topEmotions toLowerCase logs → w ∈ all_words toLowerCase logs) ∧
  StronglySorted
    (fun a b => (occurrences b (all_words toLowerCase logs)
                 <= occurrences a (all_words toLowerCase logs))%nat)
    (topEmotions toLowerCase logs) ∧
  (∀ w w', w ∈ topEmotions toLowerCase logs → w' ∈ all_words toLowerCase logs →
           w' ∉ topEmotions toLowerCase logs →
           (occurrences w' (all_words toLowerCase logs)
            <= occurrences w (all_words toLowerCase logs))%nat) ∧
  (∀ log, Forall (Forall (fun c => isWhiteSpace c = false)) (words toLowerCase log)) ∧
  (∀ log, [] ∈ words toLowerCase log ↔
          toLowerCase (feeling log) = [] ∨
          starts_with_space (toLowerCase (feeling log)) = true ∨
          ends_with_space (toLowerCase (feeling log)) = true).
Proof.
  intros _. rewrite topEmotions_ranked.
  pose proof (ranked_NoDup logs) as Hnd.
  pose proof (StronglySorted_Forall _ _ _ (count_desc_sorted _) (ranked_counts logs))
    as Hsorted.
  fold (ranked toLowerCase logs) in Hsorted.
  split; [|split; [|split; [|split; [|split; [|split]]]]];
    [..|intros log; apply split_from_no_space|intros log; apply split_empty_piece].
  - rewrite length_take. f_equal. apply Permutation_length, NoDup_Permutation;
      [done|apply NoDup_remove_dups|].
    intros w. by rewrite ranked_names, elem_of_remove_dups.
  - eapply sublist_NoDup; [exact Hnd|apply sublist_take].
  - intros w Hw%subseteq_take. by apply ranked_names.
  - rewrite <- fmap_take. eapply StronglySorted_fmap; [|by apply StronglySorted_take].
    intros [k n] [k' n']. simpl. intros (-> & -> & Hle). done.
  - intros w w' Hw Hw' Hout.
    rewrite <- (take_drop 3 (ranked toLowerCase logs)) in Hsorted.
    apply StronglySorted_app in Hsorted as (Hcut & _ & _).
    rewrite <- fmap_take in Hw, Hout.
    apply list_elem_of_fmap in Hw as ([k n] & -> & Hkept).
    apply ranked_names in Hw'.
    rewrite <- (take_drop 3 (ranked toLowerCase logs)), fmap_app, elem_of_app in Hw'.
    destruct Hw' as [?|Hleft]; [done|].
    apply list_elem_of_fmap in Hleft as ([k' n'] & -> & Hleft).
    destruct (Hcut _ _ Hkept Hleft) as (-> & -> & Hle). done.
Qed.

End EmotionWords.

(** C6, as stated, fails: for a feeling that ends with a space the empty
    piece is counted and ranked like a word, so an element of the result
    is the empty string and the result is longer than the number of
    distinct words that are not empty. *)
Lemma empty_word_is_ranked :
  topEmotions ascii_lower [log_of 0 "sad " "no"] = [js "sad"; []] ∧
  [] ∈ topEmotions ascii_lower [log_of 0 "sad " "no"] ∧
  length (remove_dups (filter (fun w => w ≠ [])
                              (all_words ascii_lower [log_of 0 "sad " "no"]))) = 1%nat ∧
  length (topEmotions ascii_lower [log_of 0 "sad " "no"]) = 2%nat.
Proof.
  split; [by vm_compute|]. split; [|by vm_compute].
  change (topEmotions _ _) with [js "sad"; []]. right. left.
Qed.

Lemma topEmotions_are_the_most_frequent_words_witness :
  length (topEmotions ascii_lower scenario)
  = min 3 (length (remove_dups (all_words ascii_lower scenario))).
Proof.
  apply (topEmotions_are_the_most_frequent_words ascii_lower scenario).
  apply Forall_forall. apply (bool_decide_unpack _). vm_compute. exact I.
Defined.

(** ** The fuel of [JSON.parse] *)

Section Fuel.

Local Open Scope nat_scope.

Lemma skip_space_length (s : jsstring) : length (skip_space s) <= length s.
Proof. induction s as [|c r IH]; simpl; [done|]. case_match; simpl; lia. Qed.

Lemma string_body_length_le (n : nat) (s k t : jsstring) :
  length s <= n → string_body s = Some (k, t) → length t < length s.
Proof.
  revert s k t. induction n as [|n IH]; intros s k t Hn.
  - destruct s; [done|simpl in Hn; lia].
  - destruct s as [|c r]; simpl; [done|]. simpl in Hn.
    repeat case_match; try done; subst; simpl in *;
      try (intros [= <- <-]; lia);
      unfold push;
      (intros Hp;
       match type of Hp with
       | context [string_body ?x] =>
         destruct (string_body x) as [[k' t']|] eqn:Hr; [|done];
         simpl in Hp; injection Hp as <- <-;
         apply IH in Hr; simpl in *; lia
       end).
Qed.

Lemma string_body_length (s k t : jsstring) :
  string_body s = Some (k, t) → length t < length s.
Proof. by apply (string_body_length_le (length s)). Qed.

Lemma span_digits_length (s d t : jsstring) :
  span_digits s = (d, t) → length d + length t = length s.
Proof.
  revert d t. induction s as [|c r IH]; simpl; intros d t.
  - by intros [= <- <-].
  - destruct (digit c).
    + destruct (span_digits r) as [d' t']. intros [= <- <-]. simpl.
      specialize (IH _ _ eq_refl). lia.
    + by intros [= <- <-].
Qed.

Lemma fraction_length (s f t : jsstring) :
  fraction s = Some (f, t) → length t <= length s.
Proof.
  unfold fraction. destruct s as [|c r]; [by intros [= <- <-]|].
  case_match; [|by intros [= <- <-]].
  destruct (span_digits r) as [d t'] eqn:Hs. apply span_digits_length in Hs.
  destruct d; [done|]. intros [= <- <-]. simpl in *. lia.
Qed.

Lemma exponent_length (s : jsstring) (e : Z) (t : jsstring) :
  exponent s = Some (e, t) → length t <= length s.
Proof.
  unfold exponent. destruct s as [|c r]; [by intros [= <- <-]|].
  case_match; [|by intros [= <- <-]].
  destruct r as [|g r1]; [done|].
  destruct (g =? 45)%N; [|destruct (g =? 43)%N];
    match goal with
    | |- context [span_digits ?x] =>
      destruct (span_digits x) as [d t'] eqn:Hs; apply span_digits_length in Hs
    end; (destruct d; [done|]); intros [= <- <-]; simpl in *; lia.
Qed.

Lemma number_length (s : jsstring) (v : json) (t : jsstring) :
  number s = Some (v, t) → length t < length s.
Proof.
  unfold number.
  assert (∀ s1, length s1 <= length s →
    match span_digits s1 with
    | ([], _) => None
    | (d :: ds, s2) =>
      if (d =? 48)%N && negb (bool_decide (ds = [])) then None
      else
        '(f, s3) ← fraction s2;
        '(e, s4) ← exponent s3;
        Some (JNumber (match s with c :: _ => (c =? 45)%N | [] => false end)
                      (digits_value (d :: ds ++ f)) (e - Z.of_nat (length f)), s4)
    end = Some (v, t) → length t < length s1) as Hcore.
  { intros s1 _. destruct (span_digits s1) as [d s2] eqn:Hs.
    apply span_digits_length in Hs. destruct d as [|d ds]; [done|].
    destruct ((d =? 48)%N && negb (bool_decide (ds = []))); [done|].
    destruct (fraction s2) as [[f s3]|] eqn:Hf; [|done]. apply fraction_length in Hf.
    simpl. destruct (exponent s3) as [[e s4]|] eqn:He; [|done]. apply exponent_length in He.
    simpl. intros [= <- <-]. simpl in Hs. lia. }
  destruct s as [|c r]; [done|].
  destruct (c =? 45)%N eqn:Hc.
  - intros Hnum. apply (Hcore r) in Hnum; simpl; lia.
  - intros Hnum. apply (Hcore (c :: r)) in Hnum; [done|simpl; lia].
Qed.

Lemma after_length (w s t : jsstring) : after w s = Some t → length t <= length s.
Proof.
  revert s. induction w as [|a w IH]; intros s; simpl.
  - by intros [= ->].
  - destruct s as [|b s]; [done|]. case_match; [|done].
    intros Ha%IH. simpl. lia.
Qed.

Lemma after_length_lt (w s t : jsstring) :
  after w s = Some t → w ≠ [] → length t < length s.
Proof.
  destruct w as [|a w]; [done|]. destruct s as [|b s]; [done|]. simpl.
  case_match; [|done]. intros Ha%after_length _. lia.
Qed.

(** What a value, a list of elements, a list of members leaves to read. *)
Lemma value_length (fuel : nat) :
  (∀ s v t, value fuel s = Some (v, t) → length t < length s) ∧
  (∀ s vs t, elements fuel s = Some (vs, t) → length t < length s) ∧
  (∀ s ms t, members fuel s = Some (ms, t) → length t < length s).
Proof.
  induction fuel as [|fuel (IHv & IHe & IHm)]; [done|].
  split; [|split].
  - intros s v t. cbn -[after js skip_space string_body number].
    pose proof (skip_space_length s) as Hs.
    destruct (skip_space s) as [|c r]; [done|]. simpl in Hs.
    destruct (c =? 34)%N.
    { destruct (string_body r) as [[str t']|] eqn:Hb; [|done].
      apply string_body_length in Hb. intros [= <- <-]. lia. }
    destruct (c =? 91)%N.
    { pose proof (skip_space_length r) as Hr.
      destruct (skip_space r) as [|c1 t1]; [done|]. simpl in Hr.
      destruct (c1 =? 93)%N; [intros [= <- <-]; lia|].
      destruct (elements fuel r) as [[vs t']|] eqn:He; [|done].
      apply IHe in He. intros [= <- <-]. lia. }
    destruct (c =? 123)%N.
    { pose proof (skip_space_length r) as Hr.
      destruct (skip_space r) as [|c1 t1]; [done|]. simpl in Hr.
      destruct (c1 =? 125)%N; [intros [= <- <-]; lia|].
      destruct (members fuel r) as [[ms t']|] eqn:He; [|done].
      apply IHm in He. intros [= <- <-]. lia. }
    destruct (c =? 110)%N.
    { destruct (after (js "null") (c :: r)) as [t0|] eqn:Ha; [|done].
      intros [= <- <-]. apply after_length_lt in Ha; [simpl in Ha; lia|by vm_compute]. }
    destruct (c =? 116)%N.
    { destruct (after (js "true") (c :: r)) as [t0|] eqn:Ha; [|done].
      intros [= <- <-]. apply after_length_lt in Ha; [simpl in Ha; lia|by vm_compute]. }
    destruct (c =? 102)%N.
    { destruct (after (js "false") (c :: r)) as [t0|] eqn:Ha; [|done].
      intros [= <- <-]. apply after_length_lt in Ha; [simpl in Ha; lia|by vm_compute]. }
    intros Hn%number_length. simpl in Hn. lia.
  - intros s vs t. simpl.
    destruct (value fuel s) as [[v t0]|] eqn:Hv; [|done]. apply IHv in Hv. simpl.
    pose proof (skip_space_length t0) as Hs.
    destruct (skip_space t0) as [|c t1]; [done|]. simpl in Hs.
    destruct (c =? 44)%N.
    { destruct (elements fuel t1) as [[vs' t2]|] eqn:He; [|done].
      apply IHe in He. intros [= <- <-]. lia. }
    destruct (c =? 93)%N; [|done]. intros [= <- <-]. lia.
  - intros s ms t. simpl. pose proof (skip_space_length s) as Hs.
    destruct (skip_space s) as [|q r]; [done|]. simpl in Hs.
    destruct (q =? 34)%N; [|done].
    destruct (string_body r) as [[k t0]|] eqn:Hb; [|done].
    apply string_body_length in Hb. simpl.
    pose proof (skip_space_length t0) as Hs0.
    destruct (skip_space t0) as [|c t1]; [done|]. simpl in Hs0.
    destruct (c =? 58)%N; [|done].
    destruct (value fuel t1) as [[v t2]|] eqn:Hv; [|done]. apply IHv in Hv. simpl.
    pose proof (skip_space_length t2) as Hs2.
    destruct (skip_space t2) as [|c2 t3]; [done|]. simpl in Hs2.
    destruct (c2 =? 44)%N.
    { destruct (members fuel t3) as [[ms' t4]|] eqn:He; [|done].
      apply IHm in He. intros [= <- <-]. lia. }
    destruct (c2 =? 125)%N; [|done]. intros [= <- <-]. lia.
Qed.

Lemma value_S (fuel : nat) (s : jsstring) :
  value (S fuel) s =
    match skip_space s with
    | [] => None
    | c :: r =>
      if (c =? 34)%N then '(str, t) ← string_body r; Some (JString str, t)
      else if (c =? 91)%N then
        match skip_space r with
        | c1 :: t =>
          if (c1 =? 93)%N then Some (JArray [], t)
          else '(vs, t) ← elements fuel r; Some (JArray vs, t)
        | [] => None
        end
      else if (c =? 123)%N then
        match skip_space r with
        | c1 :: t =>
          if (c1 =? 125)%N then Some (JObject [], t)
          else '(ms, t) ← members fuel r; Some (JObject ms, t)
        | [] => None
        end
      else if (c =? 110)%N then t ← after (js "null") (c :: r); Some (JNull, t)
      else if (c =? 116)%N then t ← after (js "true") (c :: r); Some (JBool true, t)
      else if (c =? 102)%N then t ← after (js "false") (c :: r); Some (JBool false, t)
      else number (c :: r)
    end.
Proof. done. Qed.

Lemma elements_S (fuel : nat) (s : jsstring) :
  elements (S fuel) s =
    '(v, t) ← value fuel s;
    match skip_space t with
    | c :: t1 =>
      if (c =? 44)%N then '(vs, t2) ← elements fuel t1; Some (v :: vs, t2)
      else if (c =? 93)%N then Some ([v], t1)
      else None
    | [] => None
    end.
Proof. done. Qed.

Lemma members_S (fuel : nat) (s : jsstring) :
  members (S fuel) s =
    match skip_space s with
    | q :: r =>
      if (q =? 34)%N then
        '(k, t) ← string_body r;
        match skip_space t with
        | c :: t1 =>
          if (c =? 58)%N then
            '(v, t2) ← value fuel t1;
            match skip_space t2 with
            | c2 :: t3 =>
              if (c2 =? 44)%N then
                '(ms, t4) ← members fuel t3; Some ((k, v) :: ms, t4)
              else if (c2 =? 125)%N then Some ([(k, v)], t3)
              else None
            | [] => None
            end
          else None
        | [] => None
        end
      else None
    | [] => None
    end.
Proof. done. Qed.

(** Past twice the length of the text, one more unit of fuel changes
    nothing. *)
Lemma value_fuel (fuel : nat) :
  (∀ s, 2 * length s + 1 <= fuel → value (S fuel) s = value fuel s) ∧
  (∀ s, 2 * length s + 2 <= fuel → elements (S fuel) s = elements fuel s) ∧
  (∀ s, 2 * length s + 2 <= fuel → members (S fuel) s = members fuel s).
Proof.
  induction fuel as [|fuel (IHv & IHe & IHm)]; [repeat split; intros; lia|].
  destruct (value_length fuel) as (Lv & Le & Lm).
  split; [|split].
  - intros s Hs. rewrite !value_S.
    pose proof (skip_space_length s) as Hsk.
    destruct (skip_space s) as [|c r]; [done|]. simpl in Hsk.
    pose proof (skip_space_length r) as Hr.
    rewrite (IHe r), (IHm r) by lia. done.
  - intros s Hs. rewrite !elements_S.
    rewrite (IHv s) by lia.
    destruct (value fuel s) as [[v t0]|] eqn:Hv; [|done]. apply Lv in Hv.
    cbn -[skip_space elements].
    pose proof (skip_space_length t0) as Hsk.
    destruct (skip_space t0) as [|c t1]; [done|]. simpl in Hsk.
    rewrite (IHe t1) by lia. done.
  - intros s Hs. rewrite !members_S.
    pose proof (skip_space_length s) as Hsk.
    destruct (skip_space s) as [|q r]; [done|]. simpl in Hsk.
    destruct (q =? 34)%N; [|done].
    destruct (string_body r) as [[k t0]|] eqn:Hb; [|done].
    apply string_body_length in Hb. cbn -[skip_space value members].
    pose proof (skip_space_length t0) as Hs0.
    destruct (skip_space t0) as [|c t1]; [done|]. simpl in Hs0.
    destruct (c =? 58)%N; [|done].
    rewrite (IHv t1) by lia.
    destruct (value fuel t1) as [[v t2]|] eqn:Hv; [|done]. apply Lv in Hv.
    cbn -[skip_space members].
    pose proof (skip_space_length t2) as Hs2.
    destruct (skip_space t2) as [|c2 t3]; [done|]. simpl in Hs2.
    rewrite (IHm t3) by lia. done.
Qed.

(** The fuel [JSON_parse] gives is enough: more fuel reads the same. *)
Lemma JSON_parse_fuel (text : jsstring) (more : nat) :
  value (2 * length text + 2 + more) text = value (2 * length text + 2) text.
Proof.
  induction more as [|more IH]; [by rewrite Nat.add_0_r|].
  rewrite Nat.add_succ_r, <- IH. apply value_fuel. lia.
Qed.

End Fuel.

(** ** The emotion analysis *)

Lemma post_analyze_emotion_eq (env : Env) (body_feeling : option jsstring)
    (text : option jsstring) (w : World) :
  blank body_feeling = false →
  completion env = Replied text →
  post_analyze_emotion env body_feeling w
  = ({| status := 200; payload := Json (analysis text) |},
     called w (analysis_request body_feeling)).
Proof.
  intros Hf Hc. unfold post_analyze_emotion, try_catch, mbind, M_bind, create.
  by rewrite Hf, Hc.
Qed.

(** C3, as stated, fails.  An empty output is not JSON, yet the answer
    is the empty object and not the fallback: the handler reads an empty
    text as ["{}"].  And for an output that is not JSON the fallback has
    the Chinese strings of the source, not the English ones. *)
Lemma empty_output_is_not_the_fallback :
  JSON_parse [] = None ∧
  (post_analyze_emotion (env_at 0 (Replied (Some []))) (Some (js "sad")) empty_world).1
  = {| status := 200; payload := Json (JObject []) |} ∧
  JObject [] ≠ analysis_fallback ∧
  JSON_parse (js "calm") = None ∧
  (post_analyze_emotion (env_at 0 (Replied (Some (js "calm")))) (Some (js "sad"))
     empty_world).1
  = {| status := 200; payload := Json analysis_fallback |} ∧
  analysis_fallback ≠ analysis_fallback_as_specified.
Proof. repeat split; by vm_compute. Qed.

(** C3, amended.  For a request with a feeling that is not blank: when
    the model's output is a text that is not empty and that is not valid
    JSON, the answer is 200 with the fixed fallback (primaryEmotion
    "未知", intensity 5, triggers ["无法确定"], copingStrategies ["深呼吸",
    "寻求支持"]), and nothing is thrown or logged: the world changes by
    the call alone.  An empty or absent output gives the empty object,
    and an output that is valid JSON is answered as parsed, whatever its
    shape. *)
Theorem analysis_falls_back_on_invalid_json (env : Env)
    (body_feeling : option jsstring) (w : World) :
  blank body_feeling = false →
  (∀ text, completion env = Replied (Some text) → text ≠ [] →
     JSON_parse text = None →
     post_analyze_emotion env body_feeling w
     = ({| status := 200; payload := Json analysis_fallback |},
        called w (analysis_request body_feeling))) ∧
  (completion env = Replied None ∨ completion env = Replied (Some []) →
     post_analyze_emotion env body_feeling w
     = ({| status := 200; payload := Json (JObject []) |},
        called w (analysis_request body_feeling))) ∧
  (∀ text j, completion env = Replied (Some text) → JSON_parse text = Some j →
     post_analyze_emotion env body_feeling w
     = ({| status := 200; payload := Json j |},
        called w (analysis_request body_feeling))).
Proof.
  intros Hf. split; [|split].
  - intros text Hc Hne Hparse. rewrite (post_analyze_emotion_eq _ _ _ _ Hf Hc).
    unfold analysis. destruct text; [done|]. simpl. by rewrite Hparse.
  - intros [Hc|Hc]; by rewrite (post_analyze_emotion_eq _ _ _ _ Hf Hc).
  - intros text j Hc Hparse. rewrite (post_analyze_emotion_eq _ _ _ _ Hf Hc).
    unfold analysis. destruct text; [done|]. simpl. by rewrite Hparse.
Qed.

Lemma analysis_falls_back_on_invalid_json_witness :
  post_analyze_emotion (env_at 0 (Replied (Some (js "calm")))) (Some (js "sad")) empty_world
  = ({| status := 200; payload := Json analysis_fallback |},
     called empty_world (analysis_request (Some (js "sad")))).
Proof.
  apply (proj1 (analysis_falls_back_on_invalid_json
                  (env_at 0 (Replied (Some (js "calm")))) (Some (js "sad"))
                  empty_world eq_refl) (js "calm") eq_refl);
    [discriminate|reflexivity].
Defined.

(** ** The resistance rate *)

Lemma nearest_even_le (n d N : Z) :
  0 < d → n <= N * d → nearest_even n d <= N.
Proof.
  intros Hd Hn. unfold nearest_even.
  pose proof (Z.div_mod n d ltac:(lia)) as Hdm.
  pose proof (Z.mod_pos_bound n d Hd) as Hr.
  assert (n / d <= N) by nia.
  destruct (Z.ltb_spec (2 * (n mod d)) d); [done|].
  assert (n / d + 1 <= N) by nia.
  destruct (Z.ltb_spec d (2 * (n mod d))); [done|].
  by destruct (Z.even (n / d)).
Qed.

Lemma nearest_even_nonneg (n d : Z) : 0 <= n → 0 < d → 0 <= nearest_even n d.
Proof.
  intros Hn Hd. unfold nearest_even.
  pose proof (Z.div_pos n d Hn Hd).
  repeat case_match; lia.
Qed.

Lemma nearest_even_exact (k d : Z) : 0 < d → nearest_even (k * d) d = k.
Proof.
  intros Hd. unfold nearest_even.
  rewrite Z.div_mul, Z.mod_mul by lia.
  destruct (Z.ltb_spec (2 * 0) d); [done|lia].
Qed.

Lemma ilog2_lt (p q j : Z) :
  0 < p → 0 < q → 0 <= j → p < q * 2 ^ j → ilog2 p q < j.
Proof.
  intros Hp Hq Hj Hlt. unfold ilog2, scaled.
  pose proof (Z.log2_spec p Hp) as [Hp1 Hp2].
  pose proof (Z.log2_spec q Hq) as [Hq1 Hq2].
  pose proof (Z.log2_nonneg p). pose proof (Z.log2_nonneg q).
  set (k := Z.log2 p - Z.log2 q).
  destruct (Z.leb_spec 0 k) as [Hk|Hk].
  - destruct (Z.leb_spec (q * 2 ^ k) p) as [Hle|Hgt].
    + destruct (Z.lt_ge_cases k j) as [|Hkj]; [done|]. exfalso.
      assert (2 ^ j <= 2 ^ k) by (apply Z.pow_le_mono_r; lia). nia.
    + destruct (Z.lt_ge_cases (k - 1) j) as [|Hkj]; [done|]. exfalso.
      assert (Z.log2 p = Z.log2 q + 1 + (k - 1)) as Hlp by lia.
      rewrite Hlp, Z.pow_add_r in Hp1 by lia.
      assert (2 ^ j <= 2 ^ (k - 1)) by (apply Z.pow_le_mono_r; lia).
      assert (0 < 2 ^ j) by (apply Z.pow_pos_nonneg; lia).
      nia.
  - destruct (q <=? p * 2 ^ (- k)); lia.
Qed.

Lemma scaled_neg (p q k : Z) : k < 0 → scaled p q k = (p * 2 ^ (- k), q).
Proof. intros Hk. unfold scaled. destruct (Z.leb_spec 0 k); [lia|done]. Qed.

Lemma scaled_nonneg (p q k : Z) : 0 <= k → scaled p q k = (p, q * 2 ^ k).
Proof. intros Hk. unfold scaled. destruct (Z.leb_spec 0 k); [done|lia]. Qed.

Lemma round64_at_most (p q c : Z) :
  0 < p → 0 < q → 1 <= c <= 100 → p <= c * q → at_most (round64 p q) c.
Proof.
  intros Hp Hq Hc Hle. unfold round64.
  destruct (Z.eqb_spec p 0) as [|_]; [lia|].
  assert (ilog2 p q < 7) as Hk.
  { apply ilog2_lt; [done..|]. change (2 ^ 7) with 128. nia. }
  set (e := Z.max (ilog2 p q - 52) (-1074)).
  assert (e <= -46) as He by lia.
  rewrite scaled_neg by lia.
  assert (0 < 2 ^ (- e)) as Hpow by (apply Z.pow_pos_nonneg; lia).
  pose proof (nearest_even_le (p * 2 ^ (- e)) q (c * 2 ^ (- e)) Hq ltac:(nia)) as Hm.
  pose proof (nearest_even_nonneg (p * 2 ^ (- e)) q ltac:(nia) Hq) as Hm0.
  destruct (Z.eqb_spec (nearest_even (p * 2 ^ (- e)) q) (2 ^ 53)) as [Heq|_].
  - unfold at_most. simpl. split; [lia|]. split; [done|].
    rewrite Heq in Hm.
    replace (- e) with (1 + - (e + 1)) in Hm by lia.
    rewrite Z.pow_add_r in Hm by lia.
    change (2 ^ 53) with (2 * 2 ^ 52) in Hm. change (2 ^ 1) with 2 in Hm. lia.
  - unfold at_most. simpl. lia.
Qed.

Lemma Math_round_at_most (x : double) (c : Z) :
  0 <= c → at_most x c → 0 <= Math_round x <= c.
Proof.
  intros Hc (He & Hm0 & Hm). unfold Math_round.
  destruct (Z.leb_spec 0 (expo x)); [lia|].
  replace (1 - expo x) with (1 + - expo x) by lia.
  rewrite Z.pow_add_r by lia. change (2 ^ 1) with 2.
  assert (0 < 2 ^ (- expo x)) as Hpow by (apply Z.pow_pos_nonneg; lia).
  split.
  - apply Z.div_pos; lia.
  - assert ((2 * mant x + 2 ^ (- expo x)) / (2 * 2 ^ (- expo x)) < c + 1); [|lia].
    apply Z.div_lt_upper_bound; nia.
Qed.

Lemma Number_exact (n : Z) :
  0 < n < 2 ^ 53 →
  Number n = {| mant := n * 2 ^ (52 - Z.log2 n); expo := Z.log2 n - 52 |}.
Proof.
  intros [Hn Hlt]. unfold Number, round64.
  destruct (Z.eqb_spec n 0) as [|_]; [lia|].
  pose proof (Z.log2_spec n Hn) as [Hl1 Hl2].
  pose proof (Z.log2_nonneg n) as Hl0.
  assert (Z.log2 n < 53) as Hl53 by (by apply Z.log2_lt_pow2).
  assert (ilog2 n 1 = Z.log2 n) as ->.
  { unfold ilog2. change (Z.log2 1) with 0. rewrite Z.sub_0_r.
    rewrite scaled_nonneg by done.
    destruct (Z.leb_spec (1 * 2 ^ Z.log2 n) n); lia. }
  rewrite Z.max_l by lia.
  assert (∀ z, nearest_even z 1 = z) as Hone.
  { intros z. pose proof (nearest_even_exact z 1 ltac:(lia)) as Hz.
    by rewrite Z.mul_1_r in Hz. }
  destruct (Z.eq_dec (Z.log2 n) 52) as [H52|H52].
  - rewrite H52. change (52 - 52) with 0. rewrite scaled_nonneg by done.
    change (1 * 2 ^ 0) with 1. change (2 ^ 0) with 1. rewrite Hone.
    destruct (Z.eqb_spec n (2 ^ 53)); [lia|]. f_equal. lia.
  - rewrite scaled_neg by lia.
    replace (- (Z.log2 n - 52)) with (52 - Z.log2 n) by lia. rewrite Hone.
    destruct (Z.eqb_spec (n * 2 ^ (52 - Z.log2 n)) (2 ^ 53)) as [Heq|]; [|done].
    exfalso.
    assert (2 ^ 53 = 2 ^ (Z.log2 n + 1) * 2 ^ (52 - Z.log2 n)) as Hsplit.
    { rewrite <- Z.pow_add_r by lia. f_equal. lia. }
    assert (0 < 2 ^ (52 - Z.log2 n)) by (apply Z.pow_pos_nonneg; lia).
    nia.
Qed.

Lemma round64_zero (q : Z) : round64 0 q = {| mant := 0; expo := 0 |}.
Proof. done. Qed.

Lemma scaled_zero (q k : Z) : (scaled 0 q k).1 = 0.
Proof. unfold scaled. by destruct (0 <=? k). Qed.

Lemma fdiv_zero (b : double) : fdiv {| mant := 0; expo := 0 |} b = {| mant := 0; expo := 0 |}.
Proof.
  unfold fdiv. simpl. pose proof (scaled_zero (mant b) (expo b - 0)) as Hz.
  destruct (scaled 0 (mant b) (expo b - 0)) as [n d]. simpl in Hz. subst n. reflexivity.
Qed.

Lemma fmul_zero (b : double) : fmul {| mant := 0; expo := 0 |} b = {| mant := 0; expo := 0 |}.
Proof.
  unfold fmul. simpl. change (0 * mant b) with 0.
  pose proof (scaled_zero 1 (- (0 + expo b))) as Hz.
  destruct (scaled 0 1 (- (0 + expo b))) as [n d]. simpl in Hz. subst n. reflexivity.
Qed.

Lemma rate_none (t : Z) : rate 0 t = 0.
Proof. unfold rate. change (Number 0) with {| mant := 0; expo := 0 |}.
  by rewrite fdiv_zero, fmul_zero. Qed.

Lemma fdiv_self (x : double) :
  0 < mant x → fdiv x x = {| mant := 2 ^ 52; expo := -52 |}.
Proof.
  intros Hm. unfold fdiv. rewrite Z.sub_diag, scaled_nonneg by done.
  change (2 ^ 0) with 1. rewrite Z.mul_1_r. unfold round64.
  destruct (Z.eqb_spec (mant x) 0) as [|_]; [lia|].
  assert (ilog2 (mant x) (mant x) = 0) as ->.
  { unfold ilog2. rewrite Z.sub_diag, scaled_nonneg by done.
    change (2 ^ 0) with 1. rewrite Z.mul_1_r.
    destruct (Z.leb_spec (mant x) (mant x)); [done|lia]. }
  change (Z.max (0 - 52) (-1074)) with (-52). rewrite scaled_neg by done.
  change (- -52) with 52. rewrite (Z.mul_comm (mant x)), nearest_even_exact by done.
  done.
Qed.

Lemma rate_all (t : Z) : 0 < t < 2 ^ 53 → rate t t = 100.
Proof.
  intros Ht. unfold rate. rewrite fdiv_self; [by vm_compute|].
  rewrite Number_exact by done. simpl.
  pose proof (Z.log2_nonneg t).
  assert (Z.log2 t < 53) by (apply Z.log2_lt_pow2; lia).
  assert (0 < 2 ^ (52 - Z.log2 t)) by (apply Z.pow_pos_nonneg; lia). nia.
Qed.

Lemma fdiv_at_most_one (r t : Z) :
  0 < r → r <= t → t < 2 ^ 53 →
  at_most (fdiv (Number r) (Number t)) 1.
Proof.
  intros Hr Hle Ht. rewrite !Number_exact by lia. unfold fdiv. simpl.
  pose proof (Z.log2_nonneg r). pose proof (Z.log2_le_mono r t Hle) as Hlog.
  assert (Z.log2 t < 53) by (apply Z.log2_lt_pow2; lia).
  rewrite scaled_nonneg by lia.
  replace (Z.log2 t - 52 - (Z.log2 r - 52)) with (Z.log2 t - Z.log2 r) by lia.
  assert (0 < 2 ^ (52 - Z.log2 r)) by (apply Z.pow_pos_nonneg; lia).
  assert (0 < 2 ^ (52 - Z.log2 t)) by (apply Z.pow_pos_nonneg; lia).
  assert (0 < 2 ^ (Z.log2 t - Z.log2 r)) by (apply Z.pow_pos_nonneg; lia).
  assert (2 ^ (52 - Z.log2 t) * 2 ^ (Z.log2 t - Z.log2 r)
          = 2 ^ (52 - Z.log2 r)) as Hpow.
  { rewrite <- Z.pow_add_r by lia. f_equal. lia. }
  apply round64_at_most; [nia|nia|lia|]. rewrite <- Z.mul_assoc, Hpow. nia.
Qed.

Lemma fmul_100_round (x : double) :
  at_most x 1 → 0 <= Math_round (fmul x (Number 100)) <= 100.
Proof.
  intros (He & Hm0 & Hm). unfold fmul.
  change (Number 100) with {| mant := 100 * 2 ^ 46; expo := -46 |}. simpl mant. simpl expo.
  destruct (Z.eq_dec (mant x) 0) as [Hz|Hnz].
  - rewrite Hz, Z.mul_0_l.
    pose proof (scaled_zero 1 (- (expo x + -46))) as Hs.
    destruct (scaled 0 1 (- (expo x + -46))) as [n d]. simpl in Hs. subst n.
    by vm_compute.
  - rewrite scaled_nonneg by lia.
    replace (- (expo x + -46)) with (46 + - expo x) by lia.
    rewrite Z.pow_add_r by lia.
    assert (0 < 2 ^ (- expo x)) by (apply Z.pow_pos_nonneg; lia).
    assert (0 < 2 ^ 46) by done.
    apply Math_round_at_most; [done|].
    apply round64_at_most; [nia|nia|lia|nia].
Qed.

Lemma rate_range (r t : Z) :
  0 <= r <= t → 0 < t < 2 ^ 53 → 0 <= rate r t <= 100.
Proof.
  intros Hr Ht. destruct (Z.eq_dec r 0) as [->|Hnz].
  - by rewrite rate_none.
  - apply fmul_100_round, fdiv_at_most_one; lia.
Qed.

Lemma nearest_even_error (n d : Z) :
  0 < d → 2 * Z.abs (nearest_even n d * d - n) <= d.
Proof.
  intros Hd. unfold nearest_even.
  pose proof (Z.div_mod n d ltac:(lia)) as Hdm.
  pose proof (Z.mod_pos_bound n d Hd) as Hr.
  destruct (Z.ltb_spec (2 * (n mod d)) d); [nia|].
  destruct (Z.ltb_spec d (2 * (n mod d))); [nia|].
  destruct (Z.even (n / d)); nia.
Qed.

(** What rounding keeps: below [2 ^ j] the exponent is at most [j - 52]
    and the result is within half a unit of its last place. *)
Lemma round64_near (p q j : Z) :
  0 < p → 0 < q → 0 <= j <= 52 → p < q * 2 ^ j →
  expo (round64 p q) <= j - 52 ∧
  0 <= mant (round64 p q) ∧
  2 * Z.abs (mant (round64 p q) * q - p * 2 ^ (- expo (round64 p q))) <= q.
Proof.
  intros Hp Hq Hj Hlt. unfold round64.
  destruct (Z.eqb_spec p 0) as [|_]; [lia|].
  pose proof (ilog2_lt p q j Hp Hq ltac:(lia) Hlt) as Hk.
  set (e := Z.max (ilog2 p q - 52) (-1074)).
  assert (e <= j - 53) as He by lia.
  rewrite scaled_neg by lia.
  assert (0 < 2 ^ (- e)) as Hpow by (apply Z.pow_pos_nonneg; lia).
  pose proof (nearest_even_error (p * 2 ^ (- e)) q Hq) as Herr.
  pose proof (nearest_even_nonneg (p * 2 ^ (- e)) q ltac:(nia) Hq) as Hm0.
  destruct (Z.eqb_spec (nearest_even (p * 2 ^ (- e)) q) (2 ^ 53)) as [Heq|_]; simpl.
  - split; [lia|]. split; [done|]. rewrite Heq in Herr.
    replace (- e) with (1 + - (e + 1)) in Herr by lia.
    rewrite Z.pow_add_r in Herr by lia.
    change (2 ^ 53) with (2 * 2 ^ 52) in Herr. change (2 ^ 1) with 2 in Herr. lia.
  - split; [lia|]. done.
Qed.

Lemma rate_near_exact (r t : Z) :
  0 < r → r <= t → t < 2 ^ 32 →
  ∃ my B W, 0 <= my ∧ 2 ^ 45 <= B ∧
    Math_round (fmul (fdiv (Number r) (Number t)) (Number 100)) = (2 * my + B) / (2 * B) ∧
    W = my * t - 100 * r * B ∧ 2 * Z.abs W < B.
Proof.
  intros Hr Hle Ht.
  assert (t < 2 ^ 53) as Ht53.
  { change (2 ^ 32) with 4294967296 in Ht.
    change (2 ^ 53) with 9007199254740992. lia. }
  (* the quotient *)
  change (Number 100) with {| mant := 100 * 2 ^ 46; expo := -46 |}.
  rewrite !Number_exact by lia. unfold fdiv at 1. cbn [mant expo].
  pose proof (Z.log2_nonneg r). pose proof (Z.log2_le_mono r t Hle) as Hlog.
  assert (Z.log2 t < 53) by (apply Z.log2_lt_pow2; lia).
  rewrite scaled_nonneg by lia.
  replace (Z.log2 t - 52 - (Z.log2 r - 52)) with (Z.log2 t - Z.log2 r) by lia.
  set (P := 2 ^ (52 - Z.log2 r)).
  assert (0 < P) by (apply Z.pow_pos_nonneg; lia).
  assert (t * 2 ^ (52 - Z.log2 t) * 2 ^ (Z.log2 t - Z.log2 r) = t * P) as ->.
  { rewrite <- Z.mul_assoc, <- Z.pow_add_r by lia. unfold P. do 2 f_equal. lia. }
  destruct (round64_near (r * P) (t * P) 1 ltac:(nia) ltac:(nia) ltac:(lia)
              ltac:(change (2 ^ 1) with 2; nia)) as (Hex & Hmx0 & Herrx).
  set (x := round64 (r * P) (t * P)) in *.
  set (A := 2 ^ (- expo x)) in *.
  assert (2 ^ 51 <= A) as HA by (apply Z.pow_le_mono_r; lia).
  assert (2 * Z.abs (mant x * t - r * A) <= t) as E1 by nia.
  (* the product *)
  unfold fmul. cbn [mant expo].
  destruct (Z.eq_dec (mant x) 0) as [Hz|Hnz].
  { exfalso. rewrite Hz in E1. change (2 ^ 51) with 2251799813685248 in HA. nia. }
  rewrite scaled_nonneg by lia.
  replace (- (expo x + -46)) with (46 + - expo x) by lia.
  rewrite Z.pow_add_r by lia. fold A.
  assert (0 < 2 ^ 46) as H46 by done.
  assert (mant x <= A) as Hmx.
  { change (2 ^ 32) with 4294967296 in Ht. nia. }
  destruct (round64_near (mant x * (100 * 2 ^ 46)) (1 * (2 ^ 46 * A)) 7
              ltac:(nia) ltac:(nia) ltac:(lia)
              ltac:(change (2 ^ 7) with 128; nia)) as (Hey & Hmy0 & Herry).
  set (y := round64 (mant x * (100 * 2 ^ 46)) (1 * (2 ^ 46 * A))) in *.
  set (B := 2 ^ (- expo y)) in *.
  assert (2 ^ 45 <= B) as HB by (apply Z.pow_le_mono_r; lia).
  assert (2 * Z.abs (mant y * A - 100 * mant x * B) <= A) as E2.
  { replace (mant y * (1 * (2 ^ 46 * A)) - mant x * (100 * 2 ^ 46) * B)
      with (2 ^ 46 * (mant y * A - 100 * mant x * B)) in Herry by ring.
    rewrite Z.abs_mul, (Z.abs_eq (2 ^ 46)) in Herry by lia.
    revert Herry. generalize (Z.abs (mant y * A - 100 * mant x * B)).
    intros u Hu. nia. }
  exists (mant y), B, (mant y * t - 100 * r * B).
  split; [done|]. split; [done|]. split.
  - unfold Math_round. destruct (Z.leb_spec 0 (expo y)); [lia|].
    replace (1 - expo y) with (1 + - expo y) by lia.
    rewrite Z.pow_add_r by lia. done.
  - split; [done|].
    change (2 ^ 51) with 2251799813685248 in HA.
    change (2 ^ 45) with 35184372088832 in HB.
    change (2 ^ 32) with 4294967296 in Ht.
    assert (A * (mant y * t - 100 * r * B)
            = t * (mant y * A - 100 * mant x * B) + 100 * B * (mant x * t - r * A)) as HD by ring.
    assert (2 * A * Z.abs (mant y * t - 100 * r * B) <= t * A + 100 * B * t) as Hbound.
    { rewrite <- Z.mul_assoc, <- (Z.abs_eq A) at 1 by lia.
      rewrite <- Z.abs_mul, HD. nia. }
    nia.
Qed.

Lemma rate_exact (r t : Z) :
  0 < r → r <= t → t < 2 ^ 32 →
  (¬ halfway r t → rate r t = round_half_up r t) ∧
  (halfway r t → rate r t = round_half_up r t ∨ rate r t = round_half_up r t - 1).
Proof.
  intros Hr Hle Ht. unfold rate, halfway, round_half_up.
  destruct (rate_near_exact r t Hr Hle Ht)
    as (my & B & W & Hmy & HB & -> & HW & Hsmall).
  pose proof (Z.div_mod (200 * r + t) (2 * t) ltac:(lia)) as Hdm.
  pose proof (Z.mod_pos_bound (200 * r + t) (2 * t) ltac:(lia)) as Hrho.
  set (N := (200 * r + t) / (2 * t)) in *.
  set (rho := (200 * r + t) mod (2 * t)) in *.
  set (u := 2 * my + B - 2 * B * N).
  assert (t * u = 2 * W + B * rho) as Hid by (unfold u; subst W; nia).
  change (2 ^ 45) with 35184372088832 in HB.
  split.
  - intros Hne. symmetry. apply (Z.div_unique _ _ _ u); [|unfold u; ring].
    left. assert (0 <= t * u < t * (2 * B)) as Hb; [|nia].
    rewrite Hid. split; [nia|].
    assert (B * rho <= B * (2 * t - 1)) by nia. nia.
  - intros Htie. rewrite Htie in Hid.
    assert (- B < t * u < B) as Hb by lia.
    assert (- B < u < B) as Hu by nia.
    destruct (Z.le_gt_cases 0 u).
    + left. symmetry. apply (Z.div_unique _ _ _ u); [lia|unfold u; ring].
    + right. symmetry. apply (Z.div_unique _ _ _ (u + 2 * B)); [lia|unfold u; ring].
Qed.

Lemma acted_le_total (logs : list Log) : (actedImpulses logs <= totalImpulses logs)%nat.
Proof. apply length_filter. Qed.

Lemma resistanceRate_rate (logs : list Log) :
  resistanceRate logs
  = rate (Z.of_nat (resistedImpulses logs)) (Z.of_nat (totalImpulses logs)).
Proof. done. Qed.

Lemma round_half_up_none (t : Z) : 0 < t → round_half_up 0 t = 0 ∧ ¬ halfway 0 t.
Proof.
  intros Ht. unfold round_half_up, halfway. simpl.
  assert (t = 2 * t * 0 + t) as Heq by lia.
  split.
  - symmetry. by apply (Z.div_unique _ _ _ t); [lia|].
  - rewrite <- (Z.mod_unique _ _ 0 t); lia.
Qed.

(** C4, as stated, fails: with 23 of 40 impulses resisted the exact
    percentage is 57.5, which rounds half up to 58, but the product of
    the doubles is 57.49999999999999 and the rate is 57. *)
Lemma rate_of_23_in_40_is_57 :
  resistedImpulses forty_logs = 23%nat ∧
  totalImpulses forty_logs = 40%nat ∧
  round_half_up 23 40 = 58 ∧
  fmul (fdiv (Number 23) (Number 40)) (Number 100)
  = {| mant := 8092405580431359; expo := -47 |} ∧
  resistanceRate forty_logs = 57.
Proof. repeat split; by vm_compute. Qed.

(** C4, amended.  For a window that is not empty (and shorter than 2^32,
    as every JavaScript array is), the resistance rate is [Math.round]
    of the product of doubles [(resisted / total) * 100].  It lies
    between 0 and 100, is 100 when no entry is acted on and 0 when every
    entry is; it equals the exact percentage rounded half up whenever
    that percentage is not halfway between two integers, and when it is
    halfway the rate is that rounding or one below it. *)
Theorem resistanceRate_is_the_rounded_double (logs : list Log) :
  logs ≠ [] → Z.of_nat (length logs) < 2 ^ 32 →
  0 <= resistanceRate logs <= 100 ∧
  (actedImpulses logs = 0%nat → resistanceRate logs = 100) ∧
  (actedImpulses logs = totalImpulses logs → resistanceRate logs = 0) ∧
  (¬ halfway (Z.of_nat (resistedImpulses logs)) (Z.of_nat (totalImpulses logs)) →
   resistanceRate logs
   = round_half_up (Z.of_nat (resistedImpulses logs)) (Z.of_nat (totalImpulses logs))) ∧
  (halfway (Z.of_nat (resistedImpulses logs)) (Z.of_nat (totalImpulses logs)) →
   resistanceRate logs
   = round_half_up (Z.of_nat (resistedImpulses logs)) (Z.of_nat (totalImpulses logs)) ∨
   resistanceRate logs
   = round_half_up (Z.of_nat (resistedImpulses logs)) (Z.of_nat (totalImpulses logs)) - 1).
Proof.
  intros Hne Hlen. rewrite resistanceRate_rate.
  pose proof (acted_le_total logs) as Hacted.
  assert (0 < length logs)%nat as Hpos by (destruct logs; [done|simpl; lia]).
  unfold resistedImpulses in *. unfold totalImpulses in *.
  set (t := length logs) in *. set (a := actedImpulses logs) in *.
  assert (Z.of_nat t < 2 ^ 53) as Ht53.
  { change (2 ^ 32) with 4294967296 in Hlen.
    change (2 ^ 53) with 9007199254740992. lia. }
  split; [|split; [|split]].
  - apply rate_range; lia.
  - intros ->. rewrite Nat.sub_0_r. apply rate_all. lia.
  - intros ->. rewrite Nat.sub_diag. apply rate_none.
  - destruct (decide (t - a = 0)%nat) as [Hz|Hnz].
    + rewrite Hz. change (Z.of_nat 0) with 0. rewrite rate_none.
      destruct (round_half_up_none (Z.of_nat t) ltac:(lia)) as [-> Hnot].
      split; [done|]. intros Hh. by destruct Hnot.
    + apply rate_exact; lia.
Qed.

Lemma resistanceRate_is_the_rounded_double_witness :
  0 <= resistanceRate scenario <= 100.
Proof.
  apply (resistanceRate_is_the_rounded_double scenario); [discriminate|reflexivity].
Defined.

(** The doubles of this file and the doubles of the machine give the
    same product for every count of resisted impulses in every window of
    up to 128 logs. *)
Lemma doubles_agree_with_the_machine :
  forallb (fun t =>
    forallb (fun r =>
      PrimFloat.eqb (to_machine (fmul (fdiv (Number r) (Number t)) (Number 100)))
                    (machine_rate r t))
      (seqZ 0 (t + 1)))
    (seqZ 1 128) = true.
Proof. by vm_compute. Qed.

(** ** Further properties of the routes *)

Lemma length_filter_not {A} (P : A → Prop) `{!∀ x, Decision (P x)} (l : list A) :
  (length (filter P l) + length (filter (fun x => ¬ P x) l) = length l)%nat.
Proof.
  induction l as [|x l IH]; [done|]. rewrite !filter_cons.
  destruct (decide (P x)), (decide (¬ P x)); try done; cbn; lia.
Qed.

Lemma acted_on_the_page (toISOString : Z → jsstring) (rows : list impulse_logs_row) :
  Forall (fun r => row_acted r = js "yes" ∨ row_acted r = js "no") rows →
  Dashboard.actedLogs (Dashboard.entry_of toISOString <$> rows)
  = actedImpulses (project <$> rows).
Proof.
  unfold Dashboard.actedLogs, actedImpulses.
  induction 1 as [|r rows Hr _ IH]; [done|].
  rewrite !fmap_cons, !filter_cons.
  destruct (decide (Dashboard.acted (Dashboard.entry_of toISOString r) = js "yes"))
    as [H1|H1],
    (decide (acted (project r) = js "yes")) as [H2|H2];
    cbn [length]; try (by rewrite IH); exfalso; revert H1 H2;
    unfold Dashboard.entry_of, project; cbn [Dashboard.acted acted];
    destruct Hr as [-> | ->]; by vm_compute.
Qed.

(** The resisted impulses of the report, which it computes as the total
    less the acted ones, are the logs whose [acted] is not yes: the count
    never goes below zero.  Where every log carries yes or no, as the
    [CHECK] of the table ensures, they are the logs that carry no; and on
    such rows the rate of the dashboard is the rate of the report. *)
Theorem resisted_counts_the_logs_not_acted_on (logs : list Log) :
  (actedImpulses logs <= totalImpulses logs)%nat ∧
  resistedImpulses logs = length (filter (fun log => acted log ≠ js "yes") logs) ∧
  (Forall (fun log => acted log = js "yes" ∨ acted log = js "no") logs →
   resistedImpulses logs = length (filter (fun log => acted log = js "no") logs)) ∧
  (∀ toISOString rows,
     logs = project <$> rows → logs ≠ [] →
     Forall (fun r => row_acted r = js "yes" ∨ row_acted r = js "no") rows →
     Dashboard.resistRate (Dashboard.entry_of toISOString <$> rows)
     = resistanceRate logs).
Proof.
  pose proof (length_filter_not (fun log => acted log = js "yes") logs) as Hsum.
  assert (resistedImpulses logs
          = length (filter (fun log => acted log ≠ js "yes") logs)) as Hrest.
  { unfold resistedImpulses, totalImpulses, actedImpulses. lia. }
  split; [unfold actedImpulses, totalImpulses; lia|]. split; [done|]. split.
  - intros Hyn. rewrite Hrest. f_equal. clear Hsum Hrest.
    induction Hyn as [|log logs Hlog _ IH]; [done|].
    rewrite !filter_cons.
    destruct (decide (acted log ≠ js "yes")) as [H1|H1],
      (decide (acted log = js "no")) as [H2|H2];
      cbn [length]; try (by rewrite IH); exfalso; revert H1 H2;
      destruct Hlog as [-> | ->]; intros H1 H2;
      first [done | by apply H1 | by apply H2].
  - intros toISOString rows -> Hne Hyn.
    unfold Dashboard.resistRate, Dashboard.resistedLogs, Dashboard.totalLogs.
    rewrite (acted_on_the_page toISOString rows Hyn), !length_fmap.
    destruct rows as [|r rows]; [done|]. cbn [length Nat.ltb Nat.leb].
    unfold resistanceRate, rate, resistedImpulses, totalImpulses.
    by rewrite length_fmap.
Qed.

(** The scenario of the specification: three impulses, one acted on, two
    resisted, a rate of 67, the peak at 8, and "anxious", which occurs
    twice, first among the emotion words. *)
Theorem scenario_statistics :
  totalImpulses scenario = 3%nat ∧ actedImpulses scenario = 1%nat ∧
  resistedImpulses scenario = 2%nat ∧ resistanceRate scenario = 67 ∧
  peakHour scenario = 8 ∧ head (topEmotions ascii_lower scenario) = Some (js "anxious").
Proof. repeat split; by vm_compute. Qed.

(** A blank feeling is refused with 400 before anything else happens: no
    call to the completion service, no change of the world. *)
Theorem analyze_blank_feeling (env : Env) (body_feeling : option jsstring) (w : World) :
  blank body_feeling = true →
  post_analyze_emotion env body_feeling w
  = ({| status := 400; payload := Error (js "请提供情绪描述") |}, w).
Proof. intros Hb. unfold post_analyze_emotion. by rewrite Hb. Qed.

Lemma analyze_blank_feeling_witness :
  post_analyze_emotion (env_at 0 (Replied None)) (Some (js "  ")) empty_world
  = ({| status := 400; payload := Error (js "请提供情绪描述") |}, empty_world).
Proof.
  apply (analyze_blank_feeling (env_at 0 (Replied None)) (Some (js "  "))).
  reflexivity.
Defined.

Section ReportSuccess.

Variable toLowerCase : jsstring -> jsstring.
Variable toLocaleDateString : Z -> jsstring.


End ReportSuccess.


(** * Further properties: the rest of the server and the pages *)

(** ** The listing of the logs *)

Lemma get_logs_eq (w : World) :
  get_logs w = ({| status := 200; payload := LogRows (select_logs (db w)) |}, w).
Proof. done. Qed.

(** [GET /api/logs] answers 200 with every row of the table, the newest
    first, and changes nothing. *)
Theorem get_logs_lists_newest_first (w : World) :
  ∃ rows, get_logs w = ({| status := 200; payload := LogRows rows |}, w) ∧
    rows ≡ₚ impulse_logs (db w) ∧
    StronglySorted (fun a b => row_datetime b <= row_datetime a) rows.
Proof.
  exists (select_logs (db w)). split; [done|]. split.
  - apply order_by_perm.
  - apply datetime_desc_sorted.
Qed.

(** ** What the log store accepts *)

Lemma acted_check_exact (a : jsstring) :
  too_long (Some a) = false → acted_check a = true → a = js "yes" ∨ a = js "no".
Proof.
  unfold too_long, acted_check. intros _ Hc.
  apply orb_true_iff in Hc as [Hc|Hc]; apply bool_decide_eq_true in Hc;
    [left|right];
    (assert (length a <= 3)%nat as Hlen
       by (apply (f_equal length) in Hc; rewrite length_take in Hc;
           change (length (js "yes")) with 3%nat in Hc;
           change (length (js "no")) with 2%nat in Hc; lia));
    by rewrite take_ge in Hc by lia.
Qed.

Lemma has_nul_Some (s : jsstring) : has_nul (Some s) = false ↔ 0%N ∉ s.
Proof.
  unfold has_nul. rewrite <- not_true_iff_false, existsb_exists. split.
  - intros H Hin. apply H. exists 0%N. by rewrite <- list_elem_of_In.
  - intros H (x & Hin & Hx). apply N.eqb_eq in Hx as <-.
    by apply H, list_elem_of_In.
Qed.

Lemma insert_impulse_logs_accepted (env : Env) (body : LogBody) (w : World)
    (t : Z) (f a : jsstring) :
  accepted body t f a →
  insert_impulse_logs env (body_datetime body) (body_feeling body) (body_acted body) w
  = (inr (new_row env w t f a),
     with_db w (set_impulse_logs (db w) (impulse_logs (db w) ++ [new_row env w t f a])
                                 (impulse_logs_id_seq (db w) + 1))).
Proof.
  intros (-> & -> & -> & Hf & Ha). unfold insert_impulse_logs. cbn [bind_timestamp].
  apply has_nul_Some in Hf. rewrite Hf.
  by destruct Ha as [-> | ->].
Qed.

Lemma insert_impulse_logs_accepted_or_refused (env : Env) (body : LogBody) (w : World) :
  (∃ t f a, accepted body t f a) ∨
  ∃ e w', insert_impulse_logs env (body_datetime body) (body_feeling body)
            (body_acted body) w = (inl e, w') ∧
          impulse_logs (db w') = impulse_logs (db w) ∧
          reports (db w') = reports (db w) ∧ console w' = console w ∧
          openai_calls w' = openai_calls w.
Proof.
  destruct body as [dt f a]. unfold insert_impulse_logs.
  cbn [body_datetime body_feeling body_acted].
  destruct dt as [| |t]; cbn [bind_timestamp]; [| right; by eauto 10 |].
  - right. destruct (has_nul f || has_nul a); [by eauto 10|].
    unfold impulse_logs_constraints. destruct (too_long a); by eauto 10.
  - destruct (has_nul f || has_nul a) eqn:Hnul; [right; by eauto 10|].
    apply orb_false_iff in Hnul as [Hf Ha].
    unfold impulse_logs_constraints.
    destruct (too_long a) eqn:Hlong; [right; by eauto 10|].
    destruct f as [f|]; [|right; by eauto 10].
    destruct a as [a|]; [|right; by eauto 10].
    destruct (acted_check a) eqn:Hc; [|right; by eauto 10].
    left. exists t, f, a. unfold accepted; cbn.
    repeat split; [by apply has_nul_Some|by apply acted_check_exact].
Qed.

(** Of the bodies whose feeling and [acted] are each a text or absent,
    [POST /api/logs] stores exactly those with a readable datetime, a
    feeling without NUL and an [acted] that is yes or no: such a body is
    answered 201 with the new row, which goes to the end of the table
    under the next id, with the datetime and the [acted] of the body, the
    feeling as PostgreSQL holds its text, and [NOW()] for [created_at];
    any other is answered 500, logged once, and leaves both tables as
    they were. *)
Theorem post_logs_accepts_exactly (env : Env) (body : LogBody) (w : World) :
  (∀ t f a, accepted body t f a →
     ∃ r, post_logs env body w
          = ({| status := 201; payload := LogRow r |},
             with_db w (set_impulse_logs (db w) (impulse_logs (db w) ++ [r])
                          (impulse_logs_id_seq (db w) + 1))) ∧
          row_id r = impulse_logs_id_seq (db w) ∧ row_datetime r = t ∧
          wire (row_feeling r) = wire f ∧ row_acted r = a ∧
          row_created_at r = pg_now env) ∧
  ((∀ t f a, ¬ accepted body t f a) →
     (post_logs env body w).1 = storage_failure ∧
     impulse_logs (db (post_logs env body w).2) = impulse_logs (db w) ∧
     reports (db (post_logs env body w).2) = reports (db w) ∧
     length (console (post_logs env body w).2) = S (length (console w)) ∧
     openai_calls (post_logs env body w).2 = openai_calls w).
Proof.
  split.
  - intros t f a Ha. exists (new_row env w t f a).
    unfold post_logs, try_catch, mbind, M_bind.
    by rewrite (insert_impulse_logs_accepted env body w t f a Ha).
  - intros Hno. unfold post_logs, try_catch, mbind, M_bind.
    destruct (insert_impulse_logs_accepted_or_refused env body w)
      as [(t & f & a & Ha)|(e & w' & -> & Hl & Hr & Hc & Ho)];
      [by destruct (Hno t f a)|].
    cbn [fst snd]. unfold console_error. cbn [db console openai_calls].
    rewrite length_app, Hc. cbn [length]. repeat split; try done. lia.
Qed.

Lemma post_logs_accepts_exactly_witness :
  (post_logs (env_at 2000 (Replied None))
     {| body_datetime := TsInvalid; body_feeling := Some (js "bored");
        body_acted := Some (js "no") |} empty_world).1 = storage_failure.
Proof.
  apply (proj2 (post_logs_accepts_exactly (env_at 2000 (Replied None))
                  {| body_datetime := TsInvalid; body_feeling := Some (js "bored");
                     body_acted := Some (js "no") |} empty_world)).
  intros t f a [Ht _]. discriminate Ht.
Defined.

(** ** Deleting *)

(** After [DELETE /api/logs/:id] the listing of [GET /api/logs] holds
    no row of that id and holds every other row of before, the newest
    first; the reports are untouched.  An id outside the range of the
    column is answered 500 and changes nothing in the tables. *)
Theorem deleted_log_leaves_the_listing (id : Z) (w : World) :
  (int4 id = true →
   (delete_logs_id id w).1 = no_content ∧
   (∃ rows,
      get_logs (delete_logs_id id w).2
      = ({| status := 200; payload := LogRows rows |}, (delete_logs_id id w).2) ∧
      rows ≡ₚ filter (fun r => row_id r ≠ id) (impulse_logs (db w)) ∧
      StronglySorted (fun a b => row_datetime b <= row_datetime a) rows ∧
      (∀ r, r ∈ rows ↔ r ∈ impulse_logs (db w) ∧ row_id r ≠ id)) ∧
   reports (db (delete_logs_id id w).2) = reports (db w)) ∧
  (int4 id = false →
   (delete_logs_id id w).1 = storage_failure ∧
   db (delete_logs_id id w).2 = db w).
Proof.
  split; intros Hid.
  - rewrite delete_logs_id_eq by done. cbn [fst snd]. split; [done|]. split; [|done].
    eexists. split; [apply get_logs_eq|]. unfold select_logs. cbn [db with_db
      impulse_logs set_impulse_logs].
    split; [apply order_by_perm|]. split; [apply datetime_desc_sorted|].
    intros r. rewrite elem_of_order_by, list_elem_of_filter. tauto.
  - by rewrite delete_logs_id_out_of_range.
Qed.

(** A log that was posted can be taken back: deleting the id that
    [POST /api/logs] returned leaves the table as it was before the post. *)
Theorem posted_log_can_be_deleted (env : Env) (body : LogBody) (w : World)
    (r : impulse_logs_row) (w1 : World) :
  consistent (db w) →
  int4 (impulse_logs_id_seq (db w)) = true →
  post_logs env body w = ({| status := 201; payload := LogRow r |}, w1) →
  r ∈ impulse_logs (db w1) ∧
  (delete_logs_id (row_id r) w1).1 = no_content ∧
  impulse_logs (db (delete_logs_id (row_id r) w1).2) = impulse_logs (db w) ∧
  reports (db (delete_logs_id (row_id r) w1).2) = reports (db w).
Proof.
  intros (_ & _ & Hfresh & _) Hseq Hpost.
  assert (∃ t f a, accepted body t f a) as (t & f & a & Hacc).
  { destruct (insert_impulse_logs_accepted_or_refused env body w) as [H|H]; [done|].
    exfalso. unfold post_logs, try_catch, mbind, M_bind in Hpost.
    destruct H as (e & w' & Heq & _). rewrite Heq in Hpost. by inversion Hpost. }
  unfold post_logs, try_catch, mbind, M_bind in Hpost.
  rewrite (insert_impulse_logs_accepted env body w t f a Hacc) in Hpost.
  cbn in Hpost. inversion Hpost as [[Hr Hw]]. clear Hpost. subst r w1.
  assert (row_id (new_row env w t f a) = impulse_logs_id_seq (db w)) as Hid by done.
  rewrite delete_logs_id_eq by exact Hseq.
  cbn. repeat split; try done.
  - apply elem_of_app. right. by apply list_elem_of_singleton.
  - rewrite filter_app, filter_all.
    + rewrite filter_cons. cbn.
      by rewrite decide_False, app_nil_r by (intros H; by apply H).
    + intros x Hx. destruct (Hfresh x Hx). lia.
Qed.

Lemma consistent_empty : consistent empty_db.
Proof.
  unfold consistent; cbn.
  split; [constructor|]. split; [done|]. split; [by intros ? ?%elem_of_nil|].
  split; [constructor|]. split; [done|]. by intros ? ?%elem_of_nil.
Qed.

Lemma posted_log_can_be_deleted_witness :
  impulse_logs
    (db (delete_logs_id 1
           (post_logs (env_at 2000 (Replied None)) empty_feeling_body empty_world).2).2)
  = [].
Proof.
  exact (proj1 (proj2 (proj2
    (posted_log_can_be_deleted (env_at 2000 (Replied None)) empty_feeling_body
       empty_world _ _ consistent_empty eq_refl eq_refl)))).
Defined.

(** [DELETE /api/logs] empties the table and restarts its ids: the
    listing is empty afterwards, the next log stored gets the id 1, and
    the reports are untouched. *)
Theorem delete_logs_restarts_the_store (w : World) :
  (delete_logs w).1 = no_content ∧
  get_logs (delete_logs w).2
  = ({| status := 200; payload := LogRows [] |}, (delete_logs w).2) ∧
  reports (db (delete_logs w).2) = reports (db w) ∧
  (∀ env body t f a, accepted body t f a → well_formed f →
     (post_logs env body (delete_logs w).2).1
     = {| status := 201;
          payload := LogRow {| row_id := 1; row_datetime := t; row_feeling := f;
                               row_acted := a; row_created_at := pg_now env |} |}).
Proof.
  repeat split; try done.
  intros env body t f a Ha _.
  unfold post_logs, try_catch, mbind, M_bind.
  by rewrite (insert_impulse_logs_accepted env body _ t f a Ha).
Qed.

(** ** What the tables keep *)

Lemma db_console_error (label : jsstring) (e : Exn) (w : World) :
  db (console_error label e w) = db w.
Proof. done. Qed.

Lemma try_catch_db (body : M Response) (label message : jsstring) (w : World) :
  db (try_catch body label message w).2 = db (body w).2.
Proof. unfold try_catch. by destruct (body w) as [[e|r] w']. Qed.

Lemma consistent_step (d : Db) (n : Z) :
  consistent d → impulse_logs_id_seq d <= n →
  consistent (set_impulse_logs d (impulse_logs d) n).
Proof.
  intros (Hnd & Hseq & Hrows & Hreports) Hn. unfold consistent; cbn.
  split; [done|]. split; [lia|]. split; [|done].
  intros r Hr. destruct (Hrows r Hr). split; [lia|done].
Qed.

Lemma consistent_append (d : Db) (r : impulse_logs_row) :
  consistent d → row_id r = impulse_logs_id_seq d →
  row_acted r = js "yes" ∨ row_acted r = js "no" →
  consistent (set_impulse_logs d (impulse_logs d ++ [r]) (impulse_logs_id_seq d + 1)).
Proof.
  intros (Hnd & Hseq & Hrows & Hreports) Hid Ha. unfold consistent; cbn.
  split; [|split; [lia|split; [|done]]].
  - rewrite fmap_app. apply NoDup_app. split; [done|]. split; [|apply NoDup_singleton].
    intros x Hx Hx'. apply list_elem_of_singleton in Hx' as ->.
    apply list_elem_of_fmap in Hx as (r' & Heq & Hr').
    destruct (Hrows r' Hr'). lia.
  - intros x [Hx|Hx%list_elem_of_singleton]%elem_of_app.
    + destruct (Hrows x Hx). split; [lia|done].
    + subst x. split; [lia|done].
Qed.

Lemma consistent_filter (d : Db) (P : impulse_logs_row → Prop)
    `{!∀ r, Decision (P r)} :
  consistent d →
  consistent (set_impulse_logs d (filter P (impulse_logs d)) (impulse_logs_id_seq d)).
Proof.
  intros (Hnd & Hseq & Hrows & Hreports). unfold consistent; cbn.
  split; [|split; [done|split; [|done]]].
  - eapply sublist_NoDup; [exact Hnd|]. apply fmap_sublist, sublist_filter.
  - intros r [_ Hr]%list_elem_of_filter. by apply Hrows.
Qed.

Lemma consistent_restart (d : Db) :
  consistent d → consistent (set_impulse_logs d [] 1).
Proof.
  intros (Hnd & Hseq & Hrows & Hreports). unfold consistent; cbn.
  split; [constructor|]. split; [done|]. split; [|done].
  by intros ? ?%elem_of_nil.
Qed.

Lemma consistent_report (d : Db) (r : reports_row) :
  consistent d → report_id r = reports_id_seq d →
  consistent (set_reports d (reports d ++ [r]) (reports_id_seq d + 1)).
Proof.
  intros (Hnd & Hseq & Hrows & Hnd' & Hseq' & Hreports) Hid. unfold consistent; cbn.
  do 3 (split; [done|]). split; [|split; [lia|]].
  - rewrite fmap_app. apply NoDup_app. split; [done|]. split; [|apply NoDup_singleton].
    intros x Hx Hx'. apply list_elem_of_singleton in Hx' as ->.
    apply list_elem_of_fmap in Hx as (r' & Heq & Hr').
    specialize (Hreports r' Hr'). lia.
  - intros x [Hx|Hx%list_elem_of_singleton]%elem_of_app.
    + specialize (Hreports x Hx). lia.
    + subst x. lia.
Qed.

Lemma post_logs_consistent (env : Env) (body : LogBody) (w : World) :
  consistent (db w) → consistent (db (post_logs env body w).2).
Proof.
  intros Hw. unfold post_logs. rewrite try_catch_db.
  unfold mbind, M_bind, insert_impulse_logs.
  destruct (bind_timestamp (body_datetime body)) as [e|t]; [done|].
  destruct (has_nul (body_feeling body) || has_nul (body_acted body)); [done|].
  destruct (impulse_logs_constraints t (body_feeling body) (body_acted body))
    as [e|[[t' f] a]] eqn:Hc; cbn.
  - apply consistent_step; [done|lia].
  - apply consistent_append; [done..|]. cbn.
    unfold impulse_logs_constraints in Hc.
    destruct (too_long (body_acted body)) eqn:Hlong; [done|].
    destruct t; [|done]. destruct (body_feeling body); [|done].
    destruct (body_acted body) as [a0|]; [|done].
    destruct (acted_check a0) eqn:Hcheck; [|done].
    inversion Hc; subst.
    apply (acted_check_exact a0 Hlong) in Hcheck as Ha0.
    by destruct Ha0 as [-> | ->]; [left|right].
Qed.

Lemma create_db (env : Env) (req : ChatRequest) (w : World) :
  db (create env req w).2 = db w.
Proof. unfold create. by destruct (completion env). Qed.

Lemma post_analyze_emotion_db (env : Env) (body_feeling : option jsstring) (w : World) :
  db (post_analyze_emotion env body_feeling w).2 = db w.
Proof.
  unfold post_analyze_emotion. destruct (blank body_feeling); [done|].
  rewrite try_catch_db. unfold mbind, M_bind, create.
  by destruct (completion env).
Qed.

Lemma post_chat_db (Date_toString : Z → jsstring) (env : Env) (body : ChatBody)
    (w : World) :
  db (post_chat Date_toString env body w).2 = db w.
Proof.
  unfold post_chat. destruct (blank (body_message body)); [done|].
  rewrite try_catch_db. unfold mbind, M_bind, get_db, create.
  by destruct (completion env).
Qed.

Lemma get_reports_eq (w : World) :
  get_reports w = ({| status := 200; payload := ReportRows (select_reports (db w)) |}, w).
Proof. done. Qed.

Lemma get_reports_id_db (id : Z) (w : World) : db (get_reports_id id w).2 = db w.
Proof.
  unfold get_reports_id. rewrite try_catch_db. unfold mbind, M_bind, select_report.
  by destruct (int4 id).
Qed.

Section Invariant.

Variable toLowerCase : jsstring -> jsstring.
Variable toLocaleDateString : Z -> jsstring.
Variable Date_toString : Z -> jsstring.
Variable jwt_verify : jsstring -> jsstring -> Z -> bool.

Lemma post_reports_generate_consistent (env : Env) (w : World) :
  consistent (db w) →
  consistent (db (post_reports_generate toLowerCase toLocaleDateString env w).2).
Proof.
  intros Hw. unfold post_reports_generate. rewrite try_catch_db. unfold generate.
  case_bool_decide; [done|].
  unfold mbind, M_bind, create. destruct (completion env) as [m|text]; [done|].
  unfold insert_reports. destruct (has_nul _); [done|].
  apply (consistent_report (db w)); [exact Hw|reflexivity].
Qed.

Lemma handler_consistent (env : Env) (req : Request) (w : World) :
  consistent (db w) →
  consistent (db (handler toLowerCase toLocaleDateString Date_toString env req w).2).
Proof.
  intros Hw. destruct req as [|body|id| |feeling|body| |id|]; cbn [handler].
  - done.
  - by apply post_logs_consistent.
  - destruct (int4 id) eqn:Hid.
    + rewrite delete_logs_id_eq by done. cbn. by apply consistent_filter.
    + by rewrite delete_logs_id_out_of_range.
  - cbn. by apply consistent_restart.
  - by rewrite post_analyze_emotion_db.
  - by rewrite post_chat_db.
  - done.
  - by rewrite get_reports_id_db.
  - by apply post_reports_generate_consistent.
Qed.

Lemma route_consistent (p : ProcessEnv) (c : Call) (w : World) :
  consistent (db w) →
  consistent
    (db (route toLowerCase toLocaleDateString Date_toString jwt_verify p c w).2).
Proof.
  intros Hw. unfold route, authenticate.
  destruct (bearer_token _) as [[|c0 token]|]; [done| |done].
  destruct (jwt_verify _ _ _); [|done]. by apply handler_consistent.
Qed.

(** Whatever requests the server answers, one after the other, the
    tables keep their promises: no two logs share an id, and no two
    reports; every id is positive and below its sequence; and every
    stored [acted] is yes or no. *)
Theorem the_stores_stay_consistent (p : ProcessEnv) (calls : list Call) (w : World) :
  consistent (db w) →
  consistent
    (db (serve toLowerCase toLocaleDateString Date_toString jwt_verify p calls w)).
Proof.
  revert w. induction calls as [|c calls IH]; intros w Hw; [done|].
  cbn [serve fold_left]. apply IH. by apply route_consistent.
Qed.

End Invariant.

Lemma the_stores_stay_consistent_witness :
  consistent
    (db (serve ascii_lower day_number day_number toy_verify bare_process
           [sample_call (POST_logs empty_feeling_body); sample_call (DELETE_logs_id 1);
            sample_call POST_reports_generate]
           empty_world)).
Proof.
  exact (the_stores_stay_consistent ascii_lower day_number day_number toy_verify
           bare_process
           [sample_call (POST_logs empty_feeling_body); sample_call (DELETE_logs_id 1);
            sample_call POST_reports_generate]
           empty_world consistent_empty).
Defined.

(** ** The reports *)

Lemma created_at_desc_key (y x : reports_row) :
  created_at_desc y x = (- report_created_at y <? - report_created_at x).
Proof.
  unfold created_at_desc.
  destruct (Z.ltb_spec (report_created_at x) (report_created_at y)),
           (Z.ltb_spec (- report_created_at y) (- report_created_at x)); lia || done.
Qed.

(** [GET /api/reports] answers 200 with every report, the one created
    last first, and changes nothing. *)
Theorem get_reports_lists_newest_first (w : World) :
  ∃ rows, get_reports w = ({| status := 200; payload := ReportRows rows |}, w) ∧
    rows ≡ₚ reports (db w) ∧
    StronglySorted (fun a b => report_created_at b <= report_created_at a) rows.
Proof.
  exists (select_reports (db w)). split; [done|]. split.
  - apply order_by_perm.
  - eapply StronglySorted_weaken;
      [|apply (order_by_sorted created_at_desc (fun r => - report_created_at r)
                 created_at_desc_key)].
    simpl. intros. lia.
Qed.

Lemma get_reports_id_eq (id : Z) (w : World) :
  int4 id = true →
  get_reports_id id w
  = (match filter (fun r => report_id r = id) (reports (db w)) with
     | [] => not_found
     | r :: _ => {| status := 200; payload := ReportRow r |}
     end, w).
Proof.
  intros Hid. unfold get_reports_id, try_catch, mbind, M_bind, select_report.
  by rewrite Hid.
Qed.

Lemma filter_unique {A B} `{EqDecision B} (f : A → B) (l : list A) (x : A) :
  NoDup (f <$> l) → x ∈ l → filter (fun y => f y = f x) l = [x].
Proof.
  induction l as [|y l IH]; intros Hnd Hx; [by apply elem_of_nil in Hx|].
  rewrite fmap_cons in Hnd. apply NoDup_cons in Hnd as [Hy Hnd].
  rewrite filter_cons. apply elem_of_cons in Hx as [->|Hx].
  - rewrite decide_True by done. f_equal. apply filter_none.
    intros z Hz Heq. apply Hy. rewrite <- Heq. by apply list_elem_of_fmap_2.
  - rewrite decide_False; [by apply IH|].
    intros Heq. apply Hy. rewrite Heq. by apply list_elem_of_fmap_2.
Qed.

(** [GET /api/reports/:id] changes nothing in the tables.  For an id in
    the range of the column it answers 404 exactly when no report carries
    the id and otherwise 200 with a report of that id, which is the
    report of that id when the ids are not shared; for an id outside the
    range it answers 500. *)
Theorem get_reports_id_finds_the_report (id : Z) (w : World) :
  db (get_reports_id id w).2 = db w ∧
  (int4 id = true →
   (get_reports_id id w).2 = w ∧
   ((get_reports_id id w).1 = not_found ↔ ∀ r, r ∈ reports (db w) → report_id r ≠ id) ∧
   ((get_reports_id id w).1 ≠ not_found →
    ∃ r, (get_reports_id id w).1 = {| status := 200; payload := ReportRow r |} ∧
         r ∈ reports (db w) ∧ report_id r = id) ∧
   (NoDup (report_id <$> reports (db w)) →
    ∀ r, r ∈ reports (db w) → report_id r = id →
         (get_reports_id id w).1 = {| status := 200; payload := ReportRow r |})) ∧
  (int4 id = false → (get_reports_id id w).1 = storage_failure).
Proof.
  split; [apply get_reports_id_db|]. split; intros Hid.
  - rewrite get_reports_id_eq by done. cbn [fst snd]. split; [done|].
    destruct (filter _ _) as [|r rows] eqn:Hf.
    + assert (∀ r, r ∈ reports (db w) → report_id r ≠ id) as Hnone.
      { intros r Hr Heq.
        assert (r ∈ filter (fun r => report_id r = id) (reports (db w))) as Hin
          by by apply list_elem_of_filter.
        rewrite Hf in Hin. by apply elem_of_nil in Hin. }
      split; [done|]. split; [done|].
      intros _ r Hr Heq. by destruct (Hnone r Hr).
    + assert (r ∈ filter (fun r => report_id r = id) (reports (db w))) as Hin
        by (rewrite Hf; apply elem_of_cons; by left).
      apply list_elem_of_filter in Hin as [Heq Hin].
      split; [|split].
      * split; [done|]. intros Hnone. by destruct (Hnone r Hin).
      * intros _. by exists r.
      * intros Hnd r' Hr' Heq'. rewrite <- Heq' in Hf.
        rewrite (filter_unique report_id _ r') in Hf by done.
        by inversion Hf.
  - unfold get_reports_id, try_catch, mbind, M_bind, select_report. by rewrite Hid.
Qed.

Section ReportRoundTrip.

Variable toLowerCase : jsstring -> jsstring.
Variable toLocaleDateString : Z -> jsstring.

Lemma post_reports_generate_created (env : Env) (w : World) (r : reports_row)
    (w1 : World) :
  post_reports_generate toLowerCase toLocaleDateString env w
  = ({| status := 201; payload := ReportRow r |}, w1) →
  report_id r = reports_id_seq (db w) ∧
  db w1 = set_reports (db w) (reports (db w) ++ [r]) (reports_id_seq (db w) + 1).
Proof.
  unfold post_reports_generate, try_catch.
  destruct (decide (window env w = [])) as [He|Hne].
  - rewrite generate_empty by done. intros H. by inversion H.
  - rewrite generate_call by done.
    destruct (completion env) as [m|text]; [intros H; by inversion H|].
    unfold mbind, M_bind, insert_reports.
    destruct (has_nul _); [intros H; by inversion H|].
    intros H. injection H as Hr Hw1. subst r w1. split; reflexivity.
Qed.

(** A report that was generated can be fetched: [GET /api/reports/:id]
    with the id that [POST /api/reports/generate] returned answers 200
    with that same report, [GET /api/reports] lists it, and it is the one
    row the generation added. *)
Theorem generated_report_can_be_fetched (env : Env) (w : World) (r : reports_row)
    (w1 : World) :
  consistent (db w) →
  int4 (reports_id_seq (db w)) = true →
  post_reports_generate toLowerCase toLocaleDateString env w
  = ({| status := 201; payload := ReportRow r |}, w1) →
  get_reports_id (report_id r) w1 = ({| status := 200; payload := ReportRow r |}, w1) ∧
  (∃ rows, get_reports w1 = ({| status := 200; payload := ReportRows rows |}, w1) ∧
           r ∈ rows) ∧
  reports (db w1) = reports (db w) ++ [r] ∧
  impulse_logs (db w1) = impulse_logs (db w).
Proof.
  intros Hw Hseq Hgen.
  destruct (post_reports_generate_created env w r w1 Hgen) as [Hid Hdb].
  pose proof (consistent_report (db w) r Hw Hid) as Hw1. rewrite <- Hdb in Hw1.
  assert (r ∈ reports (db w1)) as Hr.
  { rewrite Hdb. cbn. apply elem_of_app. right. by apply list_elem_of_singleton. }
  split; [|split; [|by rewrite Hdb]].
  - rewrite get_reports_id_eq by by rewrite Hid.
    destruct Hw1 as (_ & _ & _ & Hnd & _).
    by rewrite (filter_unique report_id _ r).
  - exists (select_reports (db w1)). split; [done|]. by apply elem_of_order_by.
Qed.

End ReportRoundTrip.

Lemma generated_report_can_be_fetched_witness :
  (get_reports_id 1
     (post_reports_generate ascii_lower day_number
        (env_at (3 * msPerDay) (Replied None))
        (world_of [sample_row 1 0 "sad" "no"])).2).1
  = {| status := 200;
       payload := ReportRow
         {| report_id := 1; week_start := -4; week_end := 3;
            content := js "无法生成洞察"; report_created_at := 3 * msPerDay |} |}.
Proof.
  assert (consistent (db (world_of [sample_row 1 0 "sad" "no"]))) as Hw.
  { unfold consistent; cbn.
    split; [apply NoDup_singleton|]. split; [done|]. split.
    - intros r ->%list_elem_of_singleton. cbn. split; [lia|by right].
    - split; [constructor|]. split; [done|]. by intros ? ?%elem_of_nil. }
  exact (f_equal fst (proj1
    (generated_report_can_be_fetched ascii_lower day_number
       (env_at (3 * msPerDay) (Replied None)) (world_of [sample_row 1 0 "sad" "no"])
       _ _ Hw eq_refl eq_refl))).
Defined.

(** ** The routes that call the completion service *)

(** The routes of the emotion analysis and of the chat never write to
    the tables: whatever the request and whatever the completion service
    answers, the database afterwards is the database of before, and at
    most one call has gone to the service. *)
Theorem ai_routes_never_write (Date_toString : Z → jsstring) (env : Env)
    (feeling : option jsstring) (body : ChatBody) (w : World) :
  db (post_analyze_emotion env feeling w).2 = db w ∧
  db (post_chat Date_toString env body w).2 = db w ∧
  (∃ calls, openai_calls (post_analyze_emotion env feeling w).2
            = openai_calls w ++ calls ∧ (length calls <= 1)%nat) ∧
  (∃ calls, openai_calls (post_chat Date_toString env body w).2
            = openai_calls w ++ calls ∧ (length calls <= 1)%nat).
Proof.
  split; [apply post_analyze_emotion_db|]. split; [apply post_chat_db|]. split.
  - unfold post_analyze_emotion. destruct (blank feeling).
    + exists []. split; [by rewrite app_nil_r|cbn; lia].
    + exists [analysis_request feeling]. split; [|cbn; lia].
      unfold try_catch, mbind, M_bind, create. by destruct (completion env).
  - unfold post_chat. destruct (blank (body_message body)).
    + exists []. split; [by rewrite app_nil_r|cbn; lia].
    + exists [chat_request Date_toString env body (db w)]. split; [|cbn; lia].
      unfold try_catch, mbind, M_bind, get_db, create. by destruct (completion env).
Qed.

(** ** The token of a request *)

Lemma split_on_cons (sep : N) (s : jsstring) : ∃ a l, split_on sep s = a :: l.
Proof.
  induction s as [|c s (a & l & IH)]; simpl; [by eauto|].
  destruct (c =? sep)%N; [by eauto|]. rewrite IH. by eauto.
Qed.

Lemma split_on_none (sep : N) (s : jsstring) : sep ∉ s → split_on sep s = [s].
Proof.
  induction s as [|c s IH]; [done|]. intros [Hc Hs]%not_elem_of_cons.
  simpl. destruct (N.eqb_spec c sep); [done|]. by rewrite IH.
Qed.

Lemma split_on_app (sep : N) (a b : jsstring) :
  sep ∉ a → split_on sep (a ++ sep :: b) = a :: split_on sep b.
Proof.
  induction a as [|c a IH]; simpl.
  - intros _. by rewrite N.eqb_refl.
  - intros [Hc Ha]%not_elem_of_cons.
    destruct (N.eqb_spec c sep); [done|]. by rewrite IH.
Qed.

Lemma split_on_head (sep : N) (s a : jsstring) (l : list jsstring) :
  split_on sep s = a :: l →
  (sep ∉ a) ∧ (s = a ∧ l = [] ∨ ∃ r, s = a ++ sep :: r ∧ split_on sep r = l).
Proof.
  revert a l. induction s as [|c s IH]; intros a l; simpl.
  - intros [= <- <-]. split; [apply not_elem_of_nil|by left].
  - destruct (N.eqb_spec c sep) as [->|Hc].
    + intros [= <- <-]. split; [apply not_elem_of_nil|]. right. by exists s.
    + destruct (split_on_cons sep s) as (a' & l' & Hs). rewrite Hs.
      intros [= <- <-]. destruct (IH a' l' Hs) as [Ha' Hcases]. split.
      * apply not_elem_of_cons. by split.
      * destruct Hcases as [[-> ->]|(r & -> & Hr)]; [by left|].
        right. by exists r.
Qed.

(** The token [authenticate] reads: what stands between the first and the
    second space of the header. *)
Lemma bearer_token_shape (h token : jsstring) :
  bearer_token (Some h) = Some token ↔
  ∃ scheme rest, h = scheme ++ 32%N :: token ++ rest ∧ (32%N ∉ scheme) ∧
                 (32%N ∉ token) ∧ (rest = [] ∨ head rest = Some 32%N).
Proof.
  unfold bearer_token. cbn. split.
  - destruct (split_on_cons 32 h) as (scheme & l & Hh). rewrite Hh. cbn.
    destruct (split_on_head 32 h scheme l Hh) as [Hscheme [[-> ->]|(r & -> & Hr)]];
      [done|].
    destruct l as [|t l]; [done|]. cbn. intros [= ->].
    destruct (split_on_head 32 r token l Hr) as [Htoken [[-> ->]|(r' & -> & Hr')]].
    + exists scheme, []. rewrite app_nil_r. by eauto.
    + exists scheme, (32%N :: r'). by eauto 10.
  - intros (scheme & rest & -> & Hscheme & Htoken & Hrest).
    rewrite split_on_app by done. cbn.
    destruct Hrest as [->|Hrest].
    + by rewrite app_nil_r, split_on_none.
    + destruct rest as [|c rest]; [done|]. injection Hrest as ->.
      by rewrite split_on_app.
Qed.

Lemma bearer_token_none (h : jsstring) : 32%N ∉ h → bearer_token (Some h) = None.
Proof. intros Hh. unfold bearer_token. cbn. by rewrite split_on_none. Qed.

Section Tokens.

Variable toLowerCase : jsstring -> jsstring.
Variable toLocaleDateString : Z -> jsstring.
Variable Date_toString : Z -> jsstring.
Variable jwt_verify : jsstring -> jsstring -> Z -> bool.

Local Abbreviation route' :=
  (route toLowerCase toLocaleDateString Date_toString jwt_verify).
Local Abbreviation handler' :=
  (handler toLowerCase toLocaleDateString Date_toString).

(** No request reaches its handler without a token that [jwt.verify]
    accepts.  The token is what stands between the first and the second
    space of the [Authorization] header; the word before it is not looked
    at.  A header that is absent, has no space or has nothing behind its
    first space is answered 401 for the missing token, a token that does
    not verify 401 for the invalid one, and in both cases nothing has
    changed; otherwise the answer is the handler's. *)
Theorem route_needs_a_valid_token (p : ProcessEnv) (c : Call) (w : World) :
  (route' p c w = handler' (call_env c) (call_request c) w ∨
   route' p c w = (token_missing, w) ∨ route' p c w = (token_invalid, w)) ∧
  (∀ scheme token rest,
     call_authorization c = Some (scheme ++ 32%N :: token ++ rest) →
     32%N ∉ scheme → 32%N ∉ token → rest = [] ∨ head rest = Some 32%N →
     route' p c w
     = if bool_decide (token = []) then (token_missing, w)
       else if jwt_verify token (secret p) (call_time c)
            then handler' (call_env c) (call_request c) w
            else (token_invalid, w)) ∧
  ((∀ h, call_authorization c = Some h → 32%N ∉ h) →
   route' p c w = (token_missing, w)).
Proof.
  unfold route, authenticate. split; [|split].
  - destruct (bearer_token _) as [[|c0 token]|]; [by auto| |by auto].
    destruct (jwt_verify _ _ _); by auto.
  - intros scheme token rest Hh Hscheme Htoken Hrest. rewrite Hh.
    rewrite (proj2 (bearer_token_shape _ token)) by by exists scheme, rest.
    destruct token as [|c0 token]; [done|]. rewrite bool_decide_eq_false_2 by done.
    by destruct (jwt_verify _ _ _).
  - intros Hh. destruct (call_authorization c) as [h|]; [|done].
    by rewrite bearer_token_none by by apply Hh.
Qed.

End Tokens.

Lemma route_needs_a_valid_token_witness :
  route ascii_lower day_number day_number toy_verify bare_process
    (sample_call GET_logs) empty_world
  = handler ascii_lower day_number day_number (call_env (sample_call GET_logs))
      GET_logs empty_world.
Proof.
  exact (proj1 (proj2
    (route_needs_a_valid_token ascii_lower day_number day_number toy_verify
       bare_process (sample_call GET_logs) empty_world))
    (js "Bearer") (toy_sign 1 (js "admin") (js "default-secret") 1000) []
    eq_refl ltac:(by vm_compute; intros ?%list_elem_of_In; cbn in *; intuition lia)
    ltac:(by vm_compute; intros ?%list_elem_of_In; cbn in *; intuition lia)
    (or_introl eq_refl)).
Defined.

(** ** The accounts *)

Section Accounts.

Variable bcrypt_hash : jsstring -> jsstring -> jsstring.
Variable bcrypt_compare : option jsstring -> jsstring -> jsstring + bool.
Variable jwt_sign : Z -> jsstring -> jsstring -> Z -> jsstring.
Variable jwt_verify : jsstring -> jsstring -> Z -> bool.

Local Abbreviation post_login' := (post_login bcrypt_compare jwt_sign).
Local Abbreviation initializeDatabase' := (initializeDatabase bcrypt_hash).

Lemma select_user_none (name : option jsstring) (a : Accounts) :
  has_nul name = false →
  (∀ user, user ∈ users a → Some (username user) ≠ wire <$> name) →
  select_user name a = inr [].
Proof.
  intros Hnul Hnone. unfold select_user. rewrite Hnul. f_equal.
  by apply filter_none.
Qed.

Lemma select_user_one (name : jsstring) (a : Accounts) (user : users_row) :
  has_nul (Some name) = false → NoDup (username <$> users a) →
  user ∈ users a → username user = wire name →
  select_user (Some name) a = inr [user].
Proof.
  intros Hnul Hnd Hin Hname. unfold select_user. rewrite Hnul. f_equal.
  rewrite <- (filter_unique username (users a) user Hnd Hin).
  apply list_filter_iff. intros u. cbn. rewrite <- Hname. split; congruence.
Qed.

(** [POST /api/login], for a body whose name and password are each a
    text or absent, never writes to [users].  A name with a NUL
    character is refused by PostgreSQL: the answer is 500 and the error
    is logged.  For a name without one, the two refusals are the same
    answer: a name that no user carries and a password that does not
    match are both answered 401 with one message, and nothing is logged.
    The user of the name whose password matches is answered 200 with a
    token signed for that user at that instant; an error of the
    comparison (as for a body without password) is answered 500 and
    logged. *)
Theorem post_login_outcomes (p : ProcessEnv) (now : Z) (body : LoginBody)
    (a : Accounts) :
  users (post_login' p now body a).2 = users a ∧
  users_id_seq (post_login' p now body a).2 = users_id_seq a ∧
  (has_nul (body_username body) = true →
   post_login' p now body a
   = (login_failed,
      log_error (js "登录错误:") (QueryFault character_not_in_repertoire) a)) ∧
  (has_nul (body_username body) = false →
   (∀ user, user ∈ users a → Some (username user) ≠ wire <$> body_username body) →
   post_login' p now body a = (login_refused, a)) ∧
  (∀ name user,
     body_username body = Some name → has_nul (Some name) = false →
     NoDup (username <$> users a) → user ∈ users a → username user = wire name →
     post_login' p now body a
     = match bcrypt_compare (body_password body) (password_hash user) with
       | inr true =>
         (logged_in (jwt_sign (user_id user) (username user) (secret p) now)
                    (username user), a)
       | inr false => (login_refused, a)
       | inl m => (login_failed, log_error (js "登录错误:") (LibraryFault m) a)
       end).
Proof.
  split; [|split; [|split; [|split]]].
  - unfold post_login. destruct (select_user _ _) as [e|[|user rows]]; [done..|].
    by destruct (bcrypt_compare _ _) as [m|[|]].
  - unfold post_login. destruct (select_user _ _) as [e|[|user rows]]; [done..|].
    by destruct (bcrypt_compare _ _) as [m|[|]].
  - intros Hnul. unfold post_login, select_user. by rewrite Hnul.
  - intros Hnul Hnone. unfold post_login. by rewrite select_user_none.
  - intros name user Hbody Hnul Hnd Hin Hname. unfold post_login.
    rewrite Hbody, (select_user_one name a user) by done.
    by destruct (bcrypt_compare _ _) as [m|[|]].
Qed.

End Accounts.

Lemma code_points_plain (s : jsstring) :
  Forall (fun c => (c < 55296)%N) s → code_points s = s.
Proof.
  induction 1 as [|c s Hc Hs IH]; [done|]. cbn [code_points].
  unfold high_surrogate, low_surrogate.
  destruct (N.leb_spec 55296 c); [lia|]. destruct (N.leb_spec 56320 c); [lia|].
  cbn. by rewrite IH.
Qed.

Lemma code_units_plain (cs : list N) :
  Forall (fun c => (c < 65536)%N) cs → code_units cs = cs.
Proof.
  induction 1 as [|c cs Hc Hs IH]; [done|]. unfold code_units in *.
  rewrite bind_cons, IH. by destruct (N.ltb_spec c 65536); [|lia].
Qed.

Lemma wire_plain (s : jsstring) : Forall (fun c => (c < 55296)%N) s → wire s = s.
Proof.
  intros Hs. unfold wire. rewrite code_points_plain by done.
  apply code_units_plain. eapply Forall_impl; [exact Hs|]. simpl. lia.
Qed.

Lemma varchar_short (n : nat) (s : jsstring) :
  (length (code_points s) <= n)%nat → varchar n s = inr (wire s).
Proof.
  intros Hn. unfold varchar, wire. by rewrite drop_ge, take_ge by done.
Qed.

Section DefaultUser.

Variable bcrypt_hash : jsstring -> jsstring -> jsstring.
Variable bcrypt_compare : option jsstring -> jsstring -> jsstring + bool.
Variable jwt_sign : Z -> jsstring -> jsstring -> Z -> jsstring.

Local Abbreviation post_login' := (post_login bcrypt_compare jwt_sign).
Local Abbreviation initializeDatabase' := (initializeDatabase bcrypt_hash).
Local Abbreviation defaultUser p := (or_else (DEFAULT_USERNAME p) (js "admin")).
Local Abbreviation defaultPassword p := (or_else (DEFAULT_PASSWORD p) (js "admin123")).

Lemma insert_users_new (now : Z) (name hash : jsstring) (a : Accounts) :
  ∃ new, users (insert_users now name hash a).2 = users a ++ new ∧
    (length new <= 1)%nat ∧
    (∀ u, u ∈ new → varchar 50 name = inr (username u) ∧
                    user_id u = users_id_seq a ∧ username u ∉ username <$> users a).
Proof.
  unfold insert_users.
  assert (∃ new : list users_row, users a = users a ++ new ∧ (length new <= 1)%nat ∧
            ∀ u, u ∈ new → varchar 50 name = inr (username u) ∧
                           user_id u = users_id_seq a ∧
                           username u ∉ username <$> users a) as Hnone.
  { exists []. rewrite app_nil_r. split; [done|]. split; [cbn; lia|].
    by intros ? ?%elem_of_nil. }
  destruct (has_nul (Some name) || has_nul (Some hash)); [done|].
  destruct (varchar 50 name) as [e|name'], (varchar 255 hash) as [e'|hash'];
    try done.
  case_bool_decide as Htaken; [done|]. cbn.
  eexists [_]. split; [done|]. split; [done|].
  by intros u ->%list_elem_of_singleton.
Qed.

(** [initializeDatabase] never takes a user away and never touches one
    that is there.  When a user of the default name exists, the run
    changes and logs nothing: a password set before is not reset to the
    default one.  Otherwise at most one user is added, at the end, under
    the next id and the default name (cut to fifty characters), and names
    that were not shared before are not shared afterwards. *)
Theorem initializeDatabase_keeps_the_users (p : ProcessEnv) (now : Z)
    (salt : jsstring) (a : Accounts) :
  (has_nul (Some (defaultUser p)) = false →
   ∀ user, user ∈ users a → username user = wire (defaultUser p) →
           initializeDatabase' p now salt a = a) ∧
  (∃ new, users (initializeDatabase' p now salt a) = users a ++ new ∧
     (length new <= 1)%nat ∧
     ∀ u, u ∈ new → varchar 50 (defaultUser p) = inr (username u) ∧
                    user_id u = users_id_seq a) ∧
  (NoDup (username <$> users a) →
   NoDup (username <$> users (initializeDatabase' p now salt a))).
Proof.
  assert (∃ new, users (initializeDatabase' p now salt a) = users a ++ new ∧
            (length new <= 1)%nat ∧
            ∀ u, u ∈ new → varchar 50 (defaultUser p) = inr (username u) ∧
                           user_id u = users_id_seq a ∧
                           username u ∉ username <$> users a) as Hnew.
  { unfold initializeDatabase.
    destruct (select_user _ a) as [e|[|user rows]].
    - exists []. rewrite app_nil_r. split; [done|]. split; [cbn; lia|].
      by intros ? ?%elem_of_nil.
    - destruct (insert_users_new now (defaultUser p)
                  (bcrypt_hash (defaultPassword p) salt) a) as (new & Hu & Hnew).
      exists new. split; [|done].
      by destruct (insert_users _ _ _ _) as [[e|] a'].
    - exists []. rewrite app_nil_r. split; [done|]. split; [cbn; lia|].
      by intros ? ?%elem_of_nil. }
  split; [|split].
  - intros Hnul user Hin Hname. unfold initializeDatabase, select_user.
    rewrite Hnul.
    destruct (filter _ (users a)) as [|u rows] eqn:Hf; [|done].
    assert (user ∈ filter (fun u => Some (username u) = wire <$> Some (defaultUser p))
                          (users a)) as Hin'.
    { apply list_elem_of_filter. split; [|done]. cbn. by rewrite Hname. }
    rewrite Hf in Hin'. by apply elem_of_nil in Hin'.
  - destruct Hnew as (new & Hu & Hlen & Hnew). exists new.
    split; [done|]. split; [done|]. intros u Hin. by destruct (Hnew u Hin) as (? & ? & ?).
  - intros Hnd. destruct Hnew as (new & -> & Hlen & Hnew).
    destruct new as [|u [|u' new]]; [by rewrite app_nil_r| |cbn in Hlen; lia].
    rewrite fmap_app. apply NoDup_app. split; [done|]. split; [|apply NoDup_singleton].
    intros x Hx ->%list_elem_of_singleton.
    destruct (Hnew u) as (_ & _ & Hfresh); [by apply list_elem_of_singleton|done].
Qed.

(** What is known of bcrypt: a hash is sixty ASCII characters, and the
    password it was made from compares equal to it. *)
Hypothesis hash_format : ∀ s salt,
  length (bcrypt_hash s salt) = 60%nat ∧
  Forall (fun c => (0 < c < 128)%N) (bcrypt_hash s salt).
Hypothesis compare_hash : ∀ s salt,
  bcrypt_compare (Some s) (bcrypt_hash s salt) = inr true.

Lemma varchar_hash (s salt : jsstring) :
  has_nul (Some (bcrypt_hash s salt)) = false ∧
  varchar 255 (bcrypt_hash s salt) = inr (bcrypt_hash s salt).
Proof using hash_format.
  destruct (hash_format s salt) as [Hlen Hascii].
  assert (Forall (fun c => (c < 55296)%N) (bcrypt_hash s salt)) as Hplain
    by (eapply Forall_impl; [exact Hascii|]; simpl; lia).
  split.
  - apply has_nul_Some. intros Hin. rewrite Forall_forall in Hascii.
    specialize (Hascii _ Hin). simpl in Hascii. lia.
  - rewrite varchar_short by (rewrite code_points_plain by done; lia).
    by rewrite wire_plain.
Qed.

(** On a first start, when no user carries the default name (a name of
    at most fifty characters without NUL), [initializeDatabase] creates
    the default user under the next id, logs it, and that user can log in
    at once with the default password: [admin] and [admin123] when the
    environment names no others. *)
Theorem default_user_can_log_in (p : ProcessEnv) (now : Z) (salt : jsstring)
    (a : Accounts) :
  has_nul (Some (defaultUser p)) = false →
  (length (code_points (defaultUser p)) <= 50)%nat →
  NoDup (username <$> users a) →
  (∀ user, user ∈ users a → username user ≠ wire (defaultUser p)) →
  users (initializeDatabase' p now salt a)
  = users a ++ [ {| user_id := users_id_seq a; username := wire (defaultUser p);
                    password_hash := bcrypt_hash (defaultPassword p) salt;
                    user_created_at := now |} ] ∧
  console_logs (initializeDatabase' p now salt a)
  = console_logs a ++ [js "默认用户已创建: " ++ defaultUser p] ∧
  console_errors (initializeDatabase' p now salt a) = console_errors a ∧
  (∀ now',
     post_login' p now'
       {| body_username := Some (defaultUser p);
          body_password := Some (defaultPassword p) |}
       (initializeDatabase' p now salt a)
     = (logged_in (jwt_sign (users_id_seq a) (wire (defaultUser p)) (secret p) now')
                  (wire (defaultUser p)),
        initializeDatabase' p now salt a)).
Proof using hash_format compare_hash.
  intros Hnul Hlen Hnd Hnone.
  set (user := {| user_id := users_id_seq a; username := wire (defaultUser p);
                  password_hash := bcrypt_hash (defaultPassword p) salt;
                  user_created_at := now |}).
  assert (initializeDatabase' p now salt a
          = log_line (js "默认用户已创建: " ++ defaultUser p)
              (set_users a (users a ++ [user]) (users_id_seq a + 1))) as Hinit.
  { unfold initializeDatabase. rewrite select_user_none; [|done|].
    - unfold insert_users. rewrite Hnul.
      destruct (varchar_hash (defaultPassword p) salt) as [-> ->].
      rewrite varchar_short by done. cbn [orb].
      rewrite bool_decide_eq_false_2; [done|].
      intros (u & Hu & Hin)%list_elem_of_fmap. by destruct (Hnone u Hin).
    - intros u Hin. cbn. intros [= Hu]. by destruct (Hnone u Hin). }
  rewrite Hinit. split; [done|]. split; [done|]. split; [done|].
  intros now'. unfold post_login.
  rewrite (select_user_one (defaultUser p) _ user); cbn [body_username]; try done.
  - cbn [password_hash user body_password]. by rewrite compare_hash.
  - cbn. rewrite fmap_app. apply NoDup_app. split; [done|].
    split; [|apply NoDup_singleton].
    intros x (u & -> & Hin)%list_elem_of_fmap Hx%list_elem_of_singleton.
    by destruct (Hnone u Hin).
  - cbn. apply elem_of_app. right. by apply list_elem_of_singleton.
Qed.

End DefaultUser.

Lemma toy_hash_format (s salt : jsstring) :
  length (toy_hash s salt) = 60%nat ∧
  Forall (fun c => (0 < c < 128)%N) (toy_hash s salt).
Proof.
  unfold toy_hash. split.
  - rewrite length_take, length_app, length_replicate. lia.
  - apply Forall_take, Forall_app. split.
    + apply Forall_forall. by intros c [Hc _]%list_elem_of_filter.
    + apply Forall_replicate. lia.
Qed.

Lemma toy_compare_hash (s salt : jsstring) :
  toy_compare (Some s) (toy_hash s salt) = inr true.
Proof. unfold toy_compare. by rewrite bool_decide_eq_true_2. Qed.

Lemma default_user_can_log_in_witness :
  (post_login toy_compare toy_sign bare_process 2000
     {| body_username := Some (js "admin"); body_password := Some (js "admin123") |}
     (initializeDatabase toy_hash bare_process 1000 [] no_accounts)).1
  = logged_in (toy_sign 1 (js "admin") (js "default-secret") 2000) (js "admin").
Proof.
  refine (f_equal fst (proj2 (proj2 (proj2
    (default_user_can_log_in toy_hash toy_compare toy_sign toy_hash_format
       toy_compare_hash bare_process 1000 [] no_accounts eq_refl _ _ _))) 2000)).
  - vm_compute. lia.
  - constructor.
  - by intros user Hin%elem_of_nil.
Defined.

Lemma initializeDatabase_keeps_the_users_witness :
  initializeDatabase toy_hash
    {| JWT_SECRET := None; DEFAULT_USERNAME := None;
       DEFAULT_PASSWORD := Some (js "changed") |} 3000 []
    (initializeDatabase toy_hash bare_process 1000 [] no_accounts)
  = initializeDatabase toy_hash bare_process 1000 [] no_accounts.
Proof.
  refine (proj1 (initializeDatabase_keeps_the_users toy_hash
    {| JWT_SECRET := None; DEFAULT_USERNAME := None;
       DEFAULT_PASSWORD := Some (js "changed") |} 3000 []
    (initializeDatabase toy_hash bare_process 1000 [] no_accounts)) eq_refl
    {| user_id := 1; username := js "admin";
       password_hash := toy_hash (js "admin123") []; user_created_at := 1000 |} _ _).
  - vm_compute. by left.
  - reflexivity.
Defined.

(** ** From the login to the routes *)

Section Session.

Variable toLowerCase : jsstring -> jsstring.
Variable toLocaleDateString : Z -> jsstring.
Variable Date_toString : Z -> jsstring.
Variable bcrypt_compare : option jsstring -> jsstring -> jsstring + bool.
Variable jwt_sign : Z -> jsstring -> jsstring -> Z -> jsstring.
Variable jwt_verify : jsstring -> jsstring -> Z -> bool.

(** What is known of jsonwebtoken: a token is a text without spaces that
    is not empty, and a token signed with a secret for 24 hours verifies
    with that secret up to the last second of them. *)
Hypothesis token_format : ∀ id name key t,
  jwt_sign id name key t ≠ [] ∧ 32%N ∉ jwt_sign id name key t.
Hypothesis token_verifies : ∀ id name key t t',
  t <= t' <= t + msPerDay - 1000 →
  jwt_verify (jwt_sign id name key t) key t' = true.

Lemma post_login_fulfilled (p : ProcessEnv) (now : Z) (body : LoginBody)
    (a : Accounts) :
  fulfilled (post_login bcrypt_compare jwt_sign p now body a).1 = true →
  ∃ user, (post_login bcrypt_compare jwt_sign p now body a).1
          = logged_in (jwt_sign (user_id user) (username user) (secret p) now)
                      (username user).
Proof.
  unfold post_login. destruct (select_user _ _) as [e|[|user rows]]; [done..|].
  destruct (bcrypt_compare _ _) as [m|[|]]; [done| |done].
  intros _. by exists user.
Qed.

(** A login through the page opens the routes: when [login] of the
    authentication context has stored the token that [POST /api/login]
    answered with, every request that carries the header the pages write
    from the stored token reaches its handler, from the instant of the
    login up to the last second of the 24 hours that follow it. *)
Theorem login_opens_the_routes (p : ProcessEnv) (now : Z) (name password : jsstring)
    (a : Accounts) (s s' : AuthContext.State) :
  AuthContext.login
    (post_login bcrypt_compare jwt_sign p now (AuthContext.login_body name password) a).1
    s = (true, s') →
  AuthContext.user s' = AuthContext.username (AuthContext.localStorage s') ∧
  ∀ c w,
    call_authorization c
    = Some (AuthContext.Authorization (AuthContext.localStorage s')) →
    now <= call_time c <= now + msPerDay - 1000 →
    route toLowerCase toLocaleDateString Date_toString jwt_verify p c w
    = handler toLowerCase toLocaleDateString Date_toString
        (call_env c) (call_request c) w.
Proof using token_format token_verifies.
  unfold AuthContext.login.
  destruct (AuthContext.credentials _) as [[token user_name]|] eqn:Hcred; [|done].
  intros [= <-]. split; [done|]. intros c w Hauth Htime.
  unfold AuthContext.credentials in Hcred.
  destruct (fulfilled _) eqn:Hok; [|done].
  destruct (post_login_fulfilled p now _ a Hok) as (user & Hanswer).
  rewrite Hanswer in Hcred. injection Hcred as <- <-.
  destruct (token_format (user_id user) (username user) (secret p) now) as [Hne Hsp].
  unfold route, authenticate. rewrite Hauth.
  unfold AuthContext.Authorization.
  cbn [AuthContext.localStorage AuthContext.token default].
  rewrite (proj2 (bearer_token_shape _
             (jwt_sign (user_id user) (username user) (secret p) now))).
  - destruct (jwt_sign _ _ _ _) as [|c0 token] eqn:Htoken; [done|].
    rewrite <- Htoken. by rewrite token_verifies.
  - exists (js "Bearer"), []. rewrite app_nil_r. split; [done|].
    split; [|by auto]. by apply (bool_decide_unpack _).
Qed.

End Session.

Lemma toy_token_format (id : Z) (name key : jsstring) (t : Z) :
  toy_sign id name key t ≠ [] ∧ 32%N ∉ toy_sign id name key t.
Proof.
  unfold toy_sign. split; [done|].
  intros [Hin|Hin]%elem_of_app.
  - revert Hin. by apply (bool_decide_unpack _).
  - by apply list_elem_of_filter in Hin as [? _].
Qed.

Lemma toy_token_verifies (id : Z) (name key : jsstring) (t t' : Z) :
  t <= t' <= t + msPerDay - 1000 → toy_verify (toy_sign id name key t) key t' = true.
Proof. intros _. unfold toy_verify, toy_sign. by rewrite bool_decide_eq_true_2. Qed.

Lemma login_opens_the_routes_witness :
  route ascii_lower day_number day_number toy_verify bare_process
    (sample_call GET_logs) empty_world
  = handler ascii_lower day_number day_number (env_at 5000 (Replied None))
      GET_logs empty_world.
Proof.
  refine (proj2 (login_opens_the_routes ascii_lower day_number day_number
    toy_compare toy_sign toy_verify toy_token_format toy_token_verifies
    bare_process 1000 (js "admin") (js "admin123")
    (initializeDatabase toy_hash bare_process 1000 [] no_accounts)
    {| AuthContext.user := None; AuthContext.loading := false;
       AuthContext.localStorage := AuthContext.removed |}
    _ eq_refl) (sample_call GET_logs) empty_world eq_refl _).
  vm_compute. split; discriminate.
Defined.

(** ** The chat page *)

Lemma slice_last_length {A} (n : nat) (a : list A) :
  length (slice_last n a) = min n (length a).
Proof. unfold slice_last. rewrite length_drop. lia. Qed.

Lemma slice_last_suffix {A} (n : nat) (a : list A) :
  a = take (length a - n) a ++ slice_last n a.
Proof. unfold slice_last. by rewrite take_drop. Qed.

Lemma slice_but_last_snoc {A} (a : list A) (x : A) : slice_but_last (a ++ [x]) = a.
Proof.
  unfold slice_but_last. rewrite length_app. cbn.
  replace (length a + 1 - 1)%nat with (length a) by lia.
  by rewrite take_app_length.
Qed.

Lemma historyForAI_eq (msgs : list Chat.Message) :
  Chat.historyForAI msgs = spoken <$> slice_last 10 msgs.
Proof.
  unfold Chat.historyForAI. rewrite filter_all; [done|].
  intros msg _. by destruct (Chat.sender msg); [left|right].
Qed.

(** The history the chat page sends is the last ten messages of the
    conversation, or all of them when there are fewer, in their order,
    the user's as [user] and the assistant's as [assistant]; with the
    system message before and the new message behind, the completion
    service is never given more than twelve. *)
Theorem chat_history_is_the_last_ten (Date_toString : Z → jsstring) (env : Env)
    (now : Z) (s s1 : Chat.State) (body : ChatBody) (d : Db) :
  Chat.sending now s = Some (s1, body) →
  body_history body = Some (Chat.historyForAI (Chat.messages s)) ∧
  length (Chat.historyForAI (Chat.messages s)) = min 10 (length (Chat.messages s)) ∧
  (∃ older, spoken <$> Chat.messages s
            = older ++ Chat.historyForAI (Chat.messages s)) ∧
  messages (chat_request Date_toString env body d)
  = {| role := js "system";
       msg_content := chat_prompt Date_toString (contextResult env d) |}
    :: Chat.historyForAI (Chat.messages s)
    ++ [ {| role := js "user"; msg_content := Chat.input s |} ] ∧
  (length (messages (chat_request Date_toString env body d)) <= 12)%nat.
Proof.
  unfold Chat.sending. destruct (trim_is_empty _); [done|]. intros [= <- <-].
  rewrite historyForAI_eq. split; [done|]. split; [|split; [|split; [done|]]].
  - by rewrite length_fmap, slice_last_length.
  - exists (spoken <$> take (length (Chat.messages s) - 10) (Chat.messages s)).
    by rewrite <- fmap_app, <- slice_last_suffix.
  - unfold chat_request. cbn [messages body_history body_message].
    rewrite !length_app. cbn -[slice_last].
    rewrite length_fmap, slice_last_length. lia.
Qed.

Lemma chat_history_is_the_last_ten_witness :
  length (Chat.historyForAI (Chat.messages sample_chat)) = 10%nat.
Proof.
  exact (proj1 (proj2
    (chat_history_is_the_last_ten day_number (env_at 5000 (Replied None)) 5000
       sample_chat _ _ empty_db eq_refl))).
Defined.

Lemma post_chat_eq (Date_toString : Z → jsstring) (env : Env) (body : ChatBody)
    (w : World) :
  blank (body_message body) = false →
  post_chat Date_toString env body w
  = match completion env with
    | Replied text =>
      ({| status := 200; payload := Reply (or_else text apology) |},
       called w (chat_request Date_toString env body (db w)))
    | Rejected m =>
      (chat_failure,
       console_error (js "AI聊天错误:") (OpenAIError m)
         (called w (chat_request Date_toString env body (db w))))
    end.
Proof.
  intros Hb. unfold post_chat, apology, chat_failure. rewrite Hb.
  unfold try_catch, mbind, M_bind, get_db, create.
  by destruct (completion env).
Qed.

Section ChatPage.

Variable toLowerCase : jsstring -> jsstring.
Variable toLocaleDateString : Z -> jsstring.
Variable Date_toString : Z -> jsstring.
Variable jwt_verify : jsstring -> jsstring -> Z -> bool.

Local Abbreviation route' :=
  (route toLowerCase toLocaleDateString Date_toString jwt_verify).

(** What the server makes of the request of the chat page. *)
Local Abbreviation post p t env :=
  (fun authorization body => route' p (chat_call t env authorization body)).

Lemma send_refused (now now' : Z) (s : Chat.State) (answer : Response) :
  fulfilled answer = false →
  Chat.answered now'
    answer
    {| Chat.messages :=
         Chat.messages s
         ++ [ {| Chat.text := Chat.input s; Chat.sender := Chat.user;
                 Chat.timestamp := now |} ];
       Chat.input := []; Chat.loading := true;
       Chat.notification := Chat.notification s |}
  = taken_back s.
Proof.
  intros Hno. unfold Chat.answered, Chat.reply_of. rewrite Hno.
  cbn [Chat.messages]. by rewrite slice_but_last_snoc.
Qed.

Lemma send_answered (now now' : Z) (s : Chat.State) (reply : jsstring) :
  Chat.answered now'
    {| status := 200; payload := Reply reply |}
    {| Chat.messages :=
         Chat.messages s
         ++ [ {| Chat.text := Chat.input s; Chat.sender := Chat.user;
                 Chat.timestamp := now |} ];
       Chat.input := []; Chat.loading := true;
       Chat.notification := Chat.notification s |}
  = replied now now' reply s.
Proof.
  unfold Chat.answered, Chat.reply_of, replied.
  change (fulfilled _) with true. cbn [payload Chat.messages Chat.input
    Chat.notification]. by rewrite <- app_assoc.
Qed.

(** A message sent from the chat page.  A blank input sends nothing and
    changes nothing.  Otherwise the tables are never written to, and the
    page ends in one of two states.  When the token of the page verifies
    and the service replies, the conversation has grown by the user's
    message and the reply (the apology when the reply is empty).  When the
    token is refused or the service fails, the conversation is the one of
    before: the user's message is taken back, the typed text is gone, and
    the failure is notified; a refused token leaves the server as it was.
    An empty stored token is refused as missing.  With no stored token
    the header carries the text null, and the send fails in the same way
    when [jwt.verify] refuses that text. *)
Theorem chat_send_outcomes (p : ProcessEnv) (t : Z) (env : Env)
    (storage : AuthContext.Storage) (now now' : Z) (s : Chat.State) (w : World) :
  (trim_is_empty (Chat.input s) = true →
   Chat.handleSendMessage (post p t env) storage now now' s w = (s, w)) ∧
  (trim_is_empty (Chat.input s) = false →
   db (Chat.handleSendMessage (post p t env) storage now now' s w).2 = db w ∧
   (Chat.handleSendMessage (post p t env) storage now now' s w = (taken_back s, w) ∨
    (Chat.handleSendMessage (post p t env) storage now now' s w).1
    = match completion env with
      | Replied text => replied now now' (or_else text apology) s
      | Rejected _ => taken_back s
      end) ∧
   (∀ token, AuthContext.token storage = Some token →
      token ≠ [] → 32%N ∉ token →
      if jwt_verify token (secret p) t
      then (Chat.handleSendMessage (post p t env) storage now now' s w).1
           = match completion env with
             | Replied text => replied now now' (or_else text apology) s
             | Rejected _ => taken_back s
             end
      else Chat.handleSendMessage (post p t env) storage now now' s w
           = (taken_back s, w)) ∧
   (AuthContext.token storage = Some [] →
    Chat.handleSendMessage (post p t env) storage now now' s w = (taken_back s, w)) ∧
   (AuthContext.token storage = None →
    jwt_verify (js "null") (secret p) t = false →
    Chat.handleSendMessage (post p t env) storage now now' s w = (taken_back s, w))).
Proof.
  unfold Chat.handleSendMessage, Chat.sending. split; intros Hblank; rewrite Hblank.
  { done. }
  set (body := {| body_message := Some (Chat.input s);
                  body_history := Some (Chat.historyForAI (Chat.messages s)) |}).
  assert (handler toLowerCase toLocaleDateString Date_toString env (POST_chat body) w
          = match completion env with
            | Replied text =>
              ({| status := 200; payload := Reply (or_else text apology) |},
               called w (chat_request Date_toString env body (db w)))
            | Rejected m =>
              (chat_failure,
               console_error (js "AI聊天错误:") (OpenAIError m)
                 (called w (chat_request Date_toString env body (db w))))
            end) as Hhandler by by apply post_chat_eq.
  assert (∀ x, x = handler toLowerCase toLocaleDateString Date_toString env
                     (POST_chat body) w →
               db x.2 = db w ∧
               (let '(answer, w1) := x in
                Chat.answered now' answer
                  {| Chat.messages :=
                       Chat.messages s
                       ++ [ {| Chat.text := Chat.input s; Chat.sender := Chat.user;
                               Chat.timestamp := now |} ];
                     Chat.input := []; Chat.loading := true;
                     Chat.notification := Chat.notification s |})
               = match completion env with
                 | Replied text => replied now now' (or_else text apology) s
                 | Rejected _ => taken_back s
                 end) as Hserved.
  { intros x ->. rewrite Hhandler. destruct (completion env) as [m|text].
    - split; [done|]. by apply send_refused.
    - split; [done|]. by apply send_answered. }
  split; [|split; [|split; [|split]]].
  - unfold route, authenticate. cbn [call_authorization chat_call].
    destruct (bearer_token _) as [[|c0 token]|]; [done| |done].
    cbn [call_time call_env call_request].
    destruct (jwt_verify _ _ _); [|done].
    destruct (Hserved _ eq_refl) as [Hdb _]. revert Hdb.
    by destruct (handler _ _ _ _ _ w).
  - unfold route, authenticate. cbn [call_authorization chat_call].
    destruct (bearer_token _) as [[|c0 token]|];
      [left; by rewrite send_refused| |left; by rewrite send_refused].
    cbn [call_time call_env call_request].
    destruct (jwt_verify _ _ _); [|left; by rewrite send_refused].
    right. destruct (Hserved _ eq_refl) as [_ Hstate]. revert Hstate.
    by destruct (handler _ _ _ _ _ w).
  - intros token Hstored Hne Hsp.
    unfold route, authenticate. cbn [call_authorization chat_call].
    unfold AuthContext.Authorization. rewrite Hstored. cbn [default].
    rewrite (proj2 (bearer_token_shape _ token)).
    + destruct token as [|c0 token]; [done|].
      cbn [call_time call_env call_request].
      destruct (jwt_verify _ _ _); [|by rewrite send_refused].
      destruct (Hserved _ eq_refl) as [_ Hstate]. revert Hstate.
      by destruct (handler _ _ _ _ _ w).
    + exists (js "Bearer"), []. rewrite app_nil_r. split; [done|].
      split; [|by auto]. by apply (bool_decide_unpack _).
  - intros Hstored.
    unfold route, authenticate. cbn [call_authorization chat_call].
    unfold AuthContext.Authorization. rewrite Hstored. cbn [default].
    destruct (bearer_token _) as [[|c0 token]|] eqn:Hb;
      [by rewrite send_refused| |by rewrite send_refused].
    vm_compute in Hb. discriminate Hb.
  - intros Hstored Hnull.
    unfold route, authenticate. cbn [call_authorization chat_call].
    unfold AuthContext.Authorization. rewrite Hstored. cbn [default].
    destruct (bearer_token _) as [[|c0 token]|] eqn:Hb;
      [by rewrite send_refused| |by rewrite send_refused].
    vm_compute in Hb. injection Hb as <- <-.
    cbn [call_time call_env call_request chat_call].
    change (jwt_verify _ (secret p) t) with (jwt_verify (js "null") (secret p) t).
    rewrite Hnull. by rewrite send_refused.
Qed.

End ChatPage.

(** ** The dashboard *)

Lemma count_dates (d : jsstring) (no : bool) (acc : list Dashboard.Item) :
  Dashboard.date <$> Dashboard.count d no acc
  = (Dashboard.date <$> acc)
    ++ (if decide (d ∈ Dashboard.date <$> acc) then [] else [d]).
Proof.
  induction acc as [|item acc IH]; [done|].
  cbn [Dashboard.count]. rewrite !fmap_cons. case_bool_decide as Hd.
  - rewrite decide_True by (rewrite <- Hd; apply elem_of_cons; by left).
    by rewrite app_nil_r.
  - rewrite fmap_cons, IH. cbn [app]. f_equal.
    destruct (decide (d ∈ Dashboard.date <$> acc)) as [Hin|Hin].
    + by rewrite decide_True by (apply elem_of_cons; by right).
    + rewrite decide_False; [done|]. by intros [?|?]%elem_of_cons.
Qed.

Lemma entry_count (d d' : jsstring) (no : bool) (acc : list Dashboard.Item) :
  entry d (Dashboard.count d' no acc)
  = if bool_decide (d = d')
    then (S (entry d acc).1, if no then S (entry d acc).2 else (entry d acc).2)
    else entry d acc.
Proof.
  induction acc as [|item acc IH]; cbn [Dashboard.count].
  - cbn. repeat case_bool_decide; by subst.
  - destruct (decide (Dashboard.date item = d')) as [He|He].
    + rewrite (bool_decide_eq_true_2 _ He).
      cbn [entry Dashboard.date Dashboard.total Dashboard.resisted].
      repeat case_bool_decide; subst; try done; congruence.
    + rewrite (bool_decide_eq_false_2 _ He). cbn [entry]. rewrite IH.
      repeat case_bool_decide; subst; try done; congruence.
Qed.

Lemma entry_elem (item : Dashboard.Item) (acc : list Dashboard.Item) :
  NoDup (Dashboard.date <$> acc) → item ∈ acc →
  entry (Dashboard.date item) acc = (Dashboard.total item, Dashboard.resisted item).
Proof.
  induction acc as [|x acc IH]; intros Hnd Hin; [by apply elem_of_nil in Hin|].
  rewrite fmap_cons in Hnd. apply NoDup_cons in Hnd as [Hx Hnd].
  cbn [entry]. apply elem_of_cons in Hin as [->|Hin].
  - by rewrite bool_decide_eq_true_2.
  - rewrite bool_decide_eq_false_2; [by apply IH|].
    intros Heq. apply Hx. rewrite Heq. by apply list_elem_of_fmap_2.
Qed.

Lemma items_from (logs : list Dashboard.LogEntry) (acc : list Dashboard.Item) :
  let after :=
    fold_left (fun acc log =>
                 Dashboard.count (Dashboard.day log)
                   (bool_decide (Dashboard.acted log = js "no")) acc) logs acc in
  Dashboard.date <$> after
  = (Dashboard.date <$> acc)
    ++ filter (fun d => d ∉ Dashboard.date <$> acc) (distinct (Dashboard.day <$> logs)) ∧
  ∀ d, entry d after
       = ((entry d acc).1 + length (on_day d logs),
          (entry d acc).2 + resisted_on d logs)%nat.
Proof.
  revert acc. induction logs as [|log logs IH]; intros acc; cbn zeta.
  - cbn. rewrite app_nil_r. split; [done|]. intros d. destruct (entry d acc). cbn.
    f_equal; lia.
  - cbn [fold_left]. destruct (IH (Dashboard.count (Dashboard.day log)
           (bool_decide (Dashboard.acted log = js "no")) acc)) as [Hdates Hentry].
    split.
    + rewrite Hdates, count_dates, fmap_cons. cbn [distinct].
      rewrite filter_cons. rewrite <- app_assoc. f_equal.
      destruct (decide (Dashboard.day log ∈ Dashboard.date <$> acc)) as [Hin|Hin].
      * rewrite app_nil_r, decide_False by (intros H; by apply H). cbn [app].
        rewrite list_filter_filter. apply list_filter_iff. intros d.
        split; [|by intros [? _]]. intros Hd. split; [done|]. by intros ->.
      * rewrite decide_True by done. cbn [app]. f_equal.
        rewrite list_filter_filter. apply list_filter_iff. intros d.
        rewrite not_elem_of_app, list_elem_of_singleton. tauto.
    + intros d. rewrite Hentry, entry_count. unfold resisted_on, on_day.
      rewrite !filter_cons.
      destruct (decide (Dashboard.day log = d)) as [<-|Hd].
      * rewrite bool_decide_eq_true_2 by done. cbn [fst snd]. rewrite filter_cons.
        destruct (decide (Dashboard.acted log = js "no")) as [Hno|Hno].
        -- rewrite bool_decide_eq_true_2 by done. cbn [length]. f_equal; lia.
        -- rewrite bool_decide_eq_false_2 by done. cbn [length]. f_equal; lia.
      * by rewrite bool_decide_eq_false_2 by done.
Qed.

Lemma distinct_elem (l : list jsstring) (x : jsstring) : x ∈ distinct l ↔ x ∈ l.
Proof.
  induction l as [|y l IH]; [done|]. cbn [distinct].
  rewrite !elem_of_cons, list_elem_of_filter, IH.
  destruct (decide (x = y)); naive_solver.
Qed.

Lemma distinct_NoDup (l : list jsstring) : NoDup (distinct l).
Proof.
  induction l as [|y l IH]; [constructor|]. cbn [distinct]. apply NoDup_cons. split.
  - by intros [? _]%list_elem_of_filter.
  - by apply NoDup_filter.
Qed.

Lemma items_eq (logs : list Dashboard.LogEntry) :
  Dashboard.date <$> Dashboard.items logs = distinct (Dashboard.day <$> logs) ∧
  ∀ item, item ∈ Dashboard.items logs →
    Dashboard.total item = length (on_day (Dashboard.date item) logs) ∧
    Dashboard.resisted item = resisted_on (Dashboard.date item) logs.
Proof.
  destruct (items_from logs []) as [Hdates Hentry]. cbn zeta in *.
  fold (Dashboard.items logs) in Hdates, Hentry.
  assert (Dashboard.date <$> Dashboard.items logs = distinct (Dashboard.day <$> logs))
    as Heq.
  { rewrite Hdates. cbn. apply filter_all. intros d _. apply not_elem_of_nil. }
  split; [done|]. intros item Hin.
  pose proof (entry_elem item (Dashboard.items logs)) as Hitem.
  rewrite Heq in Hitem. specialize (Hitem (distinct_NoDup _) Hin).
  rewrite Hentry in Hitem. cbn in Hitem. by injection Hitem as <- <-.
Qed.

Lemma newest_day_left_out (logs : list Dashboard.LogEntry) (log : Dashboard.LogEntry)
    (rest : list Dashboard.LogEntry) :
  logs = log :: rest →
  (7 < length (distinct (Dashboard.day <$> logs)))%nat →
  Dashboard.day log
  ∉ (slice_last 7 (trend_point logs <$> distinct (Dashboard.day <$> logs))).*1.
Proof.
  intros -> Hlen. rewrite fmap_cons in *. cbn [distinct] in *.
  set (others := filter (fun y => y ≠ Dashboard.day log)
                   (distinct (Dashboard.day <$> rest))) in *.
  unfold slice_last. rewrite fmap_cons. cbn [length] in *.
  rewrite length_fmap.
  replace (S (length others) - 7)%nat with (S (length others - 7)) by lia.
  cbn [drop]. intros Hin.
  apply list_elem_of_fmap in Hin as ([d v] & Hd & Hin). cbn in Hd. subst d.
  apply subseteq_drop in Hin.
  apply list_elem_of_fmap in Hin as (d' & Heq & Hd').
  unfold trend_point in Heq. injection Heq as Heq _.
  apply list_elem_of_filter in Hd' as [Hne _]. by apply Hne.
Qed.

(** The trend chart of the dashboard groups the logs by the date that
    stands before the [T] of their datetime, in the order in which the
    dates first occur in the listing, and shows the last seven of these
    dates, each once, with the rate of its logs that carry [no].  As the
    listing comes newest first, the seven dates are the oldest ones: when
    more than seven dates occur, the date of the first log of the listing
    is not among them.  Each rate lies between 0 and 100. *)
Theorem trendData_is_the_last_seven_dates (logs : list Dashboard.LogEntry) :
  Dashboard.trendData logs
  = slice_last 7 (trend_point logs <$> distinct (Dashboard.day <$> logs)) ∧
  length (Dashboard.trendData logs)
  = min 7 (length (distinct (Dashboard.day <$> logs))) ∧
  NoDup (Dashboard.trendData logs).*1 ∧
  (∀ log rest, logs = log :: rest →
     (7 < length (distinct (Dashboard.day <$> logs)))%nat →
     Dashboard.day log ∉ (Dashboard.trendData logs).*1) ∧
  (Z.of_nat (length logs) < 2 ^ 53 →
   (∀ d v, (d, v) ∈ Dashboard.trendData logs → 0 <= v <= 100) ∧
   0 <= Dashboard.resistRate logs <= 100).
Proof.
  destruct (items_eq logs) as [Hdates Hitems].
  assert (Dashboard.trendData logs
          = slice_last 7 (trend_point logs <$> distinct (Dashboard.day <$> logs)))
    as Heq.
  { unfold Dashboard.trendData. f_equal. rewrite <- Hdates, <- list_fmap_compose.
    apply Forall_fmap_ext, Forall_forall. intros item Hin.
    destruct (Hitems item Hin) as [Ht Hr]. unfold trend_point. cbn.
    by rewrite Ht, Hr. }
  rewrite Heq. split; [done|]. split; [|split; [|split]].
  - by rewrite slice_last_length, length_fmap.
  - unfold slice_last. rewrite fmap_drop, <- list_fmap_compose.
    rewrite (list_fmap_ext _ id (distinct (Dashboard.day <$> logs)))
      by (intros; done).
    rewrite list_fmap_id. eapply sublist_NoDup; [apply distinct_NoDup|].
    apply sublist_drop.
  - intros log rest Hlogs Hmany. by apply (newest_day_left_out logs log rest).
  - intros Hlen. split.
    2:{ unfold Dashboard.resistRate, Dashboard.resistedLogs, Dashboard.totalLogs,
          Dashboard.actedLogs.
        pose proof (length_filter (fun log => Dashboard.acted log = js "yes") logs).
        destruct (Nat.ltb_spec 0 (length logs)); [|lia].
        apply rate_range; lia. }
    intros d v Hin. unfold slice_last in Hin. apply subseteq_drop in Hin.
    apply list_elem_of_fmap in Hin as (d' & [= -> ->] & Hd).
    apply distinct_elem, list_elem_of_fmap in Hd as (log & -> & Hlog).
    assert (log ∈ on_day (Dashboard.day log) logs) as Hon
      by by apply list_elem_of_filter.
    assert (0 < length (on_day (Dashboard.day log) logs))%nat as Hpos
      by (destruct (on_day _ logs); [by apply elem_of_nil in Hon|cbn; lia]).
    pose proof (length_filter (fun log' => Dashboard.day log' = Dashboard.day log) logs)
      as Hle.
    pose proof (length_filter (fun log' => Dashboard.acted log' = js "no")
                  (on_day (Dashboard.day log) logs)) as Hle'.
    apply rate_range; unfold resisted_on, on_day in *; lia.
Qed.

(** ** The hours of the report *)

Lemma sum_list_alter (l : list nat) (i : nat) :
  (i < length l)%nat → sum_list (alter S i l) = S (sum_list l).
Proof.
  revert i. induction l as [|x l IH]; intros [|i] Hi; cbn in *; try lia.
  rewrite IH by lia. lia.
Qed.

(** The twenty-four hourly counts of the report add up to the number of
    logs whose instant a [Date] can hold: each such log is counted in
    exactly one hour, and a log beyond that range in none. *)
Theorem hourlyStats_count_every_log_once (logs : list Log) :
  length (hourlyStats logs) = 24%nat ∧
  sum_list (hourlyStats logs)
  = length (filter (fun log => is_Some (getHours (datetime log))) logs) ∧
  ((∀ log, log ∈ logs → Z.abs (datetime log) <= 8640000000000000) →
   sum_list (hourlyStats logs) = totalImpulses logs).
Proof.
  assert (∀ stats, length stats = 24%nat →
            length (fold_left count_hour logs stats) = 24%nat ∧
            sum_list (fold_left count_hour logs stats)
            = (sum_list stats
               + length (filter (fun log => is_Some (getHours (datetime log))) logs))%nat)
    as Hfold.
  { induction logs as [|log logs IH]; intros stats Hlen; cbn [fold_left].
    - cbn. split; [done|lia].
    - rewrite filter_cons. unfold count_hour at 2 4.
      destruct (getHours (datetime log)) as [h|] eqn:Hh.
      + destruct (IH (alter S (Z.to_nat h) stats)) as [Hl Hs];
          [by rewrite length_alter|].
        split; [done|]. rewrite Hs, sum_list_alter.
        * rewrite decide_True by done. cbn [length]. lia.
        * apply getHours_range in Hh. lia.
      + destruct (IH stats Hlen) as [Hl Hs]. split; [done|].
        rewrite Hs, decide_False; [done|]. by intros [? ?]. }
  destruct (Hfold (replicate 24 0%nat) eq_refl) as [Hl Hs].
  unfold hourlyStats. split; [done|]. split; [by rewrite Hs|].
  intros Hrange. rewrite Hs. change (sum_list (replicate 24 0%nat)) with 0%nat.
  unfold totalImpulses. cbn [Nat.add]. f_equal. apply filter_all. intros log Hlog.
  unfold getHours. specialize (Hrange log Hlog).
  destruct (Z.leb_spec (Z.abs (datetime log)) 8640000000000000); [by eexists|lia].
Qed.

(** ** The start of the pages *)

Section Startup.

Variable toLowerCase : jsstring -> jsstring.
Variable toLocaleDateString : Z -> jsstring.
Variable Date_toString : Z -> jsstring.
Variable jwt_verify : jsstring -> jsstring -> Z -> bool.

Local Abbreviation route' :=
  (route toLowerCase toLocaleDateString Date_toString jwt_verify).

(** When the pages start, a stored token is checked against the server
    and a stale one is thrown away.  Without a stored token no request is
    made.  With one, [GET /api/logs] is asked with it: if it verifies,
    the stored name becomes the user and the storage is kept; if it does
    not, the token and the name are removed from the storage and no user
    is set.  The check changes nothing on the server. *)
Theorem stored_token_is_checked_on_start (p : ProcessEnv) (now : Z) (env : Env)
    (s : AuthContext.State) (w : World) :
  match AuthContext.mounted s with
  | inl s' =>
    (AuthContext.token (AuthContext.localStorage s) = None ∨
     AuthContext.token (AuthContext.localStorage s) = Some []) ∧
    s' = {| AuthContext.user := AuthContext.user s; AuthContext.loading := false;
            AuthContext.localStorage := AuthContext.localStorage s |}
  | inr header =>
    ∃ token,
      AuthContext.token (AuthContext.localStorage s) = Some token ∧ token ≠ [] ∧
      header = js "Bearer " ++ token ∧
      (route' p (check_call now env header) w).2 = w ∧
      (32%N ∉ token →
       AuthContext.checked (route' p (check_call now env header) w).1 s
       = if jwt_verify token (secret p) now then signed_in s else signed_out s)
  end.
Proof.
  unfold AuthContext.mounted.
  destruct (AuthContext.token (AuthContext.localStorage s)) as [[|c0 token]|] eqn:Ht;
    [by auto| |by auto].
  exists (c0 :: token). split; [done|]. split; [done|].
  unfold AuthContext.Authorization. rewrite Ht. cbn [default].
  split; [done|]. split.
  - unfold route, authenticate. cbn [call_authorization check_call].
    destruct (bearer_token _) as [[|c1 token']|]; [done| |done].
    by destruct (jwt_verify _ _ _).
  - intros Hsp. unfold route, authenticate. cbn [call_authorization check_call].
    rewrite (proj2 (bearer_token_shape _ (c0 :: token))).
    + cbn [call_time call_env call_request handler].
      by destruct (jwt_verify _ _ _).
    + exists (js "Bearer"), []. rewrite app_nil_r. split; [done|].
      split; [|by auto]. by apply (bool_decide_unpack _).
Qed.

End Startup.

(** ** What a generation stores *)

Section Generation.

Variable toLowerCase : jsstring -> jsstring.
Variable toLocaleDateString : Z -> jsstring.

Local Abbreviation generated env w :=
  (post_reports_generate toLowerCase toLocaleDateString env w).

(** [POST /api/reports/generate] stores a report exactly when it answers
    201: then the report of the answer, and no other, has been added to
    the end of [reports] under the next id.  Any other answer is 400,
    given exactly when the window holds no log, or 500, and leaves the
    tables as they were.  The logs are never touched, and at most one call
    goes to the completion service, none when the answer is 400. *)
Theorem report_is_stored_exactly_on_201 (env : Env) (w : World) :
  impulse_logs (db (generated env w).2) = impulse_logs (db w) ∧
  (status (generated env w).1 = 201 →
   ∃ r, payload (generated env w).1 = ReportRow r ∧
        reports (db (generated env w).2) = reports (db w) ++ [r] ∧
        report_id r = reports_id_seq (db w)) ∧
  (status (generated env w).1 ≠ 201 →
   db (generated env w).2 = db w ∧
   (status (generated env w).1 = 400 ∨ status (generated env w).1 = 500)) ∧
  (status (generated env w).1 = 400 ↔ window env w = []) ∧
  (window env w = [] → generated env w = (insufficient_data, w)) ∧
  (∃ calls, openai_calls (generated env w).2 = openai_calls w ++ calls ∧
            (length calls <= 1)%nat).
Proof.
  unfold post_reports_generate, try_catch.
  destruct (decide (window env w = [])) as [He|Hne].
  - rewrite generate_empty by done. cbn [fst snd].
    split; [done|]. split; [done|]. split; [by auto|]. split; [done|].
    split; [done|]. exists []. split; [by rewrite app_nil_r|cbn; lia].
  - rewrite generate_call by done.
    assert (∃ calls, openai_calls (called w
              (report_request toLowerCase toLocaleDateString env (window env w)))
              = openai_calls w ++ calls ∧ (length calls <= 1)%nat) as Hcalls.
    { eexists [_]. split; [done|cbn; lia]. }
    destruct (completion env) as [m|text].
    + cbn [fst snd]. split; [done|]. split; [done|]. split; [by auto|].
      split; [done|]. split; [done|]. exact Hcalls.
    + unfold mbind, M_bind, insert_reports. destruct (has_nul _).
      * cbn [fst snd]. split; [done|]. split; [done|]. split; [by auto|].
        split; [done|]. split; [done|]. exact Hcalls.
      * cbn [fst snd mret M_ret status payload]. split; [done|].
        split; [intros _; by eexists|]. split; [done|]. split; [done|].
        split; [done|]. exact Hcalls.
Qed.

End Generation.

(** ** Clearing the chat while a message is on its way *)

(** [clearChat] while a send is pending: when the answer comes, the page
    no longer shows the user's message, so a reply stands alone behind
    the greeting, and a failure, which takes the last message back, takes
    the greeting and leaves the conversation empty. *)
Theorem clear_chat_during_a_send (t now' : Z) (pending : Chat.State)
    (answer : Response) :
  Chat.messages (Chat.answered now' answer (Chat.clearChat t pending))
  = match Chat.reply_of answer with
    | Some reply =>
      [ {| Chat.text := Chat.greeting; Chat.sender := Chat.ai; Chat.timestamp := t |};
        {| Chat.text := reply; Chat.sender := Chat.ai; Chat.timestamp := now' |} ]
    | None => []
    end.
Proof.
  unfold Chat.answered, Chat.clearChat. by destruct (Chat.reply_of answer).
Qed.

(** ** The dashboard and the server *)

Section Pages.

Variable toLowerCase : jsstring -> jsstring.
Variable toLocaleDateString : Z -> jsstring.
Variable Date_toString : Z -> jsstring.
Variable jwt_verify : jsstring -> jsstring -> Z -> bool.
Variable toISOString : Z -> jsstring.
Variable timestamp_in : jsstring -> TimestampParam.
Variable date_toISOString : Z -> jsstring.

Local Abbreviation route' :=
  (route toLowerCase toLocaleDateString Date_toString jwt_verify).
Local Abbreviation handler' :=
  (handler toLowerCase toLocaleDateString Date_toString).

(** What the server makes of a request of a page. *)
Local Abbreviation server p t env req :=
  (fun authorization => route' p (page_call t env req authorization)).

Lemma route_signed (p : ProcessEnv) (t : Z) (env : Env) (req : Request)
    (storage : AuthContext.Storage) (w : World) :
  signed jwt_verify p storage t →
  route' p (page_call t env req (AuthContext.Authorization storage)) w
  = handler' env req w.
Proof.
  intros (token & Hstored & Hne & Hsp & Hv).
  unfold route, authenticate. cbn [call_authorization page_call].
  unfold AuthContext.Authorization. rewrite Hstored. cbn [default].
  rewrite (proj2 (bearer_token_shape _ token)).
  - destruct token as [|c0 token]; [done|].
    cbn [call_time call_env call_request page_call]. by rewrite Hv.
  - exists (js "Bearer"), []. rewrite app_nil_r. split; [done|].
    split; [|by auto]. by apply (bool_decide_unpack _).
Qed.

Lemma post_logs_saved (env : Env) (body : LogBody) (w : World) (t : Z) (f a : jsstring) :
  accepted body t f a →
  post_logs env body w
  = ({| status := 201; payload := LogRow (new_row env w t f a) |},
     with_db w (set_impulse_logs (db w)
                  (impulse_logs (db w) ++ [new_row env w t f a])
                  (impulse_logs_id_seq (db w) + 1))).
Proof.
  intros Ha. unfold post_logs, try_catch, mbind, M_bind.
  by rewrite (insert_impulse_logs_accepted env body w t f a Ha).
Qed.

Lemma post_logs_refused (env : Env) (body : LogBody) (w : World) :
  (∀ t f a, ¬ accepted body t f a) →
  fulfilled (post_logs env body w).1 = false ∧
  impulse_logs (db (post_logs env body w).2) = impulse_logs (db w).
Proof.
  intros Hno. unfold post_logs, try_catch, mbind, M_bind.
  destruct (insert_impulse_logs_accepted_or_refused env body w)
    as [(t & f & a & Ha)|(e & w' & -> & Hl & _)];
    [by destruct (Hno t f a)|].
  done.
Qed.

Lemma refresh_signed (p : ProcessEnv) (t : Z) (env : Env)
    (storage : AuthContext.Storage) (notice : Dashboard.State → Dashboard.State)
    (s : Dashboard.State) (w : World) :
  signed jwt_verify p storage t →
  Dashboard.refresh toISOString (server p t env GET_logs) storage notice s w
  = (Dashboard.setLoading false
       (Dashboard.setLogs (Dashboard.entry_of toISOString <$> select_logs (db w))
          (notice (Dashboard.setLoading true s))),
     w).
Proof.
  intros Hs. unfold Dashboard.refresh. rewrite route_signed by done.
  cbn [handler]. by rewrite get_logs_eq.
Qed.

(** A log saved on the dashboard is stored and shown: when PostgreSQL
    reads the datetime of the form, the feeling holds no NUL and [acted]
    is yes or no, the table gains one row under the next id and the page
    ends with the listing of the table, which holds that row, a fresh
    form and the notice of the success; the feeling may be empty.  A form
    the table refuses leaves the rows and the page as
    they were, but for the notice of the failure. *)
Theorem saved_log_is_listed (p : ProcessEnv) (t t' : Z) (env env' : Env)
    (storage : AuthContext.Storage) (now : Z) (s : Dashboard.State) (w : World) :
  signed jwt_verify p storage t → signed jwt_verify p storage t' →
  let form := Dashboard.formData s in
  let result :=
    Dashboard.handleSubmit toISOString timestamp_in
      (fun authorization body => server p t env (POST_logs body) authorization)
      (server p t' env' GET_logs) storage now s w in
  (∀ ts, timestamp_in (Dashboard.form_datetime form) = Ts ts →
     (0%N ∉ Dashboard.form_feeling form) →
     Dashboard.form_acted form = js "yes" ∨ Dashboard.form_acted form = js "no" →
     ∃ r, impulse_logs (db result.2) = impulse_logs (db w) ++ [r] ∧
          Dashboard.entry_of toISOString r
          = {| Dashboard.id := impulse_logs_id_seq (db w);
               Dashboard.datetime := toISOString ts;
               Dashboard.feeling := wire (Dashboard.form_feeling form);
               Dashboard.acted := Dashboard.form_acted form;
               Dashboard.created_at := toISOString (pg_now env) |} ∧
          Dashboard.entry_of toISOString r ∈ Dashboard.logs result.1 ∧
          result.1
          = Dashboard.setLoading false
              (Dashboard.setLogs
                 (Dashboard.entry_of toISOString <$> select_logs (db result.2))
                 (Dashboard.showNotification (js "记录保存成功") Dashboard.success
                    (Dashboard.setFormData (Dashboard.blank_form toISOString now) s)))) ∧
  ((∀ ts, timestamp_in (Dashboard.form_datetime form) ≠ Ts ts) ∨
   0%N ∈ Dashboard.form_feeling form ∨
   ¬ (Dashboard.form_acted form = js "yes" ∨ Dashboard.form_acted form = js "no") →
     result.1 = Dashboard.showNotification (js "保存失败") Dashboard.error s ∧
     impulse_logs (db result.2) = impulse_logs (db w)).
Proof.
  intros Ht Ht' form result. subst result. unfold Dashboard.handleSubmit.
  rewrite route_signed by done. cbn [handler]. fold form. split.
  - intros ts Hts Hnul Hyn.
    assert (accepted (Dashboard.form_body timestamp_in form) ts
              (Dashboard.form_feeling form) (Dashboard.form_acted form)) as Ha
      by done.
    rewrite (post_logs_saved env _ w ts _ _ Ha).
    cbv beta iota. change (fulfilled _) with true. cbv iota.
    rewrite refresh_signed by done. cbn [fst snd db with_db impulse_logs set_impulse_logs].
    exists (new_row env w ts (Dashboard.form_feeling form) (Dashboard.form_acted form)).
    split; [done|]. split.
    { unfold Dashboard.entry_of, new_row.
      cbn [row_id row_datetime row_feeling row_acted row_created_at].
      f_equal. by destruct Hyn as [-> | ->]. }
    split; [|done].
    cbn [Dashboard.logs Dashboard.setLoading Dashboard.setLogs].
    apply list_elem_of_fmap_2. unfold select_logs. apply elem_of_order_by.
    cbn [impulse_logs set_impulse_logs]. apply elem_of_app. right.
    by apply list_elem_of_singleton.
  - intros Hbad.
    assert (∀ ts f a, ¬ accepted (Dashboard.form_body timestamp_in form) ts f a)
      as Hno.
    { intros ts f a (Hts & [= <-] & [= <-] & Hnul & Hyn).
      destruct Hbad as [Hbad|[Hbad|Hbad]]; [by destruct (Hbad ts)|done|done]. }
    destruct (post_logs_refused env (Dashboard.form_body timestamp_in form) w Hno)
      as [Hf Hl].
    destruct (post_logs env _ w) as [answer w1]. cbn [fst snd] in *.
    by rewrite Hf.
Qed.

(** A log deleted on the dashboard leaves the table and the page: for an
    id that fits a PostgreSQL integer the rows of that id are gone, the
    others stay, and the page ends with the listing of what is left and
    the notice of the deletion, whether or not there was such a row.  An
    id outside that range fails and changes nothing.  Clearing all, once
    confirmed, empties the table and the page and restarts the ids;
    declined, it does nothing. *)
Theorem deleted_log_leaves_the_page (p : ProcessEnv) (t t' : Z) (env env' : Env)
    (storage : AuthContext.Storage) (log_id : Z) (s : Dashboard.State) (w : World) :
  signed jwt_verify p storage t → signed jwt_verify p storage t' →
  let deleted :=
    Dashboard.handleDelete toISOString
      (fun authorization n => server p t env (DELETE_logs_id n) authorization)
      (server p t' env' GET_logs) storage log_id s w in
  let cleared confirmed :=
    Dashboard.handleClearAll toISOString (server p t env DELETE_logs)
      (server p t' env' GET_logs) storage confirmed s w in
  (int4 log_id = true →
     impulse_logs (db deleted.2)
     = filter (fun r => row_id r ≠ log_id) (impulse_logs (db w)) ∧
     (∀ e, e ∈ Dashboard.logs deleted.1 → Dashboard.id e ≠ log_id) ∧
     deleted.1
     = Dashboard.setLoading false
         (Dashboard.setLogs
            (Dashboard.entry_of toISOString <$> select_logs (db deleted.2))
            (Dashboard.showNotification (js "记录已删除") Dashboard.success s))) ∧
  (int4 log_id = false →
     deleted.1 = Dashboard.showNotification (js "删除失败") Dashboard.error s ∧
     db deleted.2 = db w) ∧
  cleared false = (s, w) ∧
  impulse_logs (db (cleared true).2) = [] ∧
  impulse_logs_id_seq (db (cleared true).2) = 1 ∧
  reports (db (cleared true).2) = reports (db w) ∧
  (cleared true).1
  = Dashboard.setLoading false
      (Dashboard.setLogs []
         (Dashboard.showNotification (js "所有记录已清空") Dashboard.success s)).
Proof.
  intros Ht Ht' deleted cleared. subst deleted cleared.
  unfold Dashboard.handleDelete, Dashboard.handleClearAll.
  rewrite !route_signed by done. cbn [handler].
  split; [|split; [|split; [done|]]].
  - intros Hid. rewrite delete_logs_id_eq by done.
    change (fulfilled _) with true. cbv iota.
    rewrite refresh_signed by done.
    cbn [fst snd db with_db impulse_logs set_impulse_logs].
    split; [done|]. split; [|done].
    intros e. cbn [Dashboard.logs Dashboard.setLoading Dashboard.setLogs].
    intros (r & -> & Hr)%list_elem_of_fmap.
    unfold select_logs in Hr. apply elem_of_order_by in Hr.
    cbn [impulse_logs set_impulse_logs] in Hr.
    by apply list_elem_of_filter in Hr as [Hr _].
  - intros Hid. rewrite delete_logs_id_out_of_range by done.
    change (fulfilled _) with false. by cbv iota.
  - change (delete_logs w)
      with (no_content, with_db w (set_impulse_logs (db w) [] 1)).
    cbv beta iota. change (fulfilled no_content) with true. cbv iota.
    rewrite refresh_signed by done. done.
Qed.

Lemma post_analyze_emotion_rejected (env : Env) (body_feeling : option jsstring)
    (m : jsstring) (w : World) :
  blank body_feeling = false →
  completion env = Rejected m →
  fulfilled (post_analyze_emotion env body_feeling w).1 = false.
Proof.
  intros Hf Hc. unfold post_analyze_emotion, try_catch, mbind, M_bind, create.
  by rewrite Hf, Hc.
Qed.

(** The emotion analysis on the dashboard: a feeling of white space only
    is turned away on the page, with no request.  Any other is analysed
    and nothing is stored; when the completion service fails the page
    notes it, and when it replies the dialog opens on the analysis.  When
    the reply is empty, the analysis is the empty object and the content
    of the dialog ends in a [TypeError]; when it is no JSON, the dialog
    lists the trigger and the two strategies of the fallback. *)
Theorem analysis_dialog_outcomes (p : ProcessEnv) (t : Z) (env : Env)
    (storage : AuthContext.Storage) (s : Dashboard.State) (w : World) :
  signed jwt_verify p storage t →
  let feeling := Dashboard.form_feeling (Dashboard.formData s) in
  let result :=
    Dashboard.analyzeEmotion
      (fun authorization f => server p t env (POST_analyze_emotion f) authorization)
      storage s w in
  (trim_is_empty feeling = true →
     result
     = (Dashboard.showNotification (js "请先填写情绪描述") Dashboard.error s, w)) ∧
  (trim_is_empty feeling = false →
     db result.2 = db w ∧
     match completion env with
     | Rejected _ =>
       result.1
       = Dashboard.setAnalyzing false
           (Dashboard.showNotification (js "情绪分析失败") Dashboard.error s)
     | Replied text =>
       result.1
       = Dashboard.setAnalyzing false
           (Dashboard.setAnalysisDialogOpen true
              (Dashboard.setAiAnalysis (Some (analysis text)) s)) ∧
       (or_else text (js "{}") = js "{}" →
          Dashboard.dialog_content (Dashboard.aiAnalysis result.1)
          = Dashboard.TypeError) ∧
       (JSON_parse (or_else text (js "{}")) = None →
          Dashboard.dialog_content (Dashboard.aiAnalysis result.1)
          = Dashboard.Mapped [JString (js "无法确定")]
              [JString (js "深呼吸"); JString (js "寻求支持")])
     end).
Proof.
  intros Ht feeling result. subst result. unfold Dashboard.analyzeEmotion.
  fold feeling. split; intros Hblank; rewrite Hblank; [done|].
  rewrite route_signed by done. cbn [handler].
  pose proof (post_analyze_emotion_db env (Some feeling) w) as Hdb.
  destruct (completion env) as [m|text] eqn:Hc.
  - pose proof (post_analyze_emotion_rejected env (Some feeling) m w Hblank Hc) as Hf.
    destruct (post_analyze_emotion env (Some feeling) w) as [answer w1].
    cbn [fst snd] in *. split; [done|].
    unfold Dashboard.analysis_of. by rewrite Hf.
  - rewrite (post_analyze_emotion_eq env (Some feeling) text w Hblank Hc) in *.
    cbv beta iota. unfold Dashboard.analysis_of.
    change (fulfilled _) with true. cbv iota. cbn [payload fst snd].
    split; [done|]. split; [done|].
    cbn [Dashboard.aiAnalysis Dashboard.setAnalyzing Dashboard.setAnalysisDialogOpen
         Dashboard.setAiAnalysis].
    unfold analysis. split.
    + intros ->. by vm_compute.
    + intros ->. by vm_compute.
Qed.

Lemma post_reports_generate_cases (env : Env) (w : World) :
  (∃ r w1, post_reports_generate toLowerCase toLocaleDateString env w
           = ({| status := 201; payload := ReportRow r |}, w1) ∧
           db w1 = set_reports (db w) (reports (db w) ++ [r])
                     (reports_id_seq (db w) + 1)) ∨
  (∃ answer w1, post_reports_generate toLowerCase toLocaleDateString env w
                = (answer, w1) ∧
                status answer ≠ 201 ∧ fulfilled answer = false ∧ db w1 = db w).
Proof.
  unfold post_reports_generate, try_catch.
  destruct (decide (window env w = [])) as [He|Hne].
  - rewrite generate_empty by done. right. by eauto 10.
  - rewrite generate_call by done.
    destruct (completion env) as [m|text]; [right; by eauto 10|].
    unfold mbind, M_bind, insert_reports.
    destruct (has_nul _); [right; by eauto 10|].
    left. eexists _, _. split; reflexivity.
Qed.

(** Generating a report on the reports page: when the route answers 201
    the table gains the report and the page ends with the listing of the
    table, which holds it, and the notice of the success.  Any other
    answer, among them the 400 of a week without logs, leaves the tables
    and the list of the page as they were and shows the same notice of a
    failure.  The logs are never touched, and the button is free again. *)
Theorem report_generated_on_the_page (p : ProcessEnv) (t t' : Z) (env env' : Env)
    (storage : AuthContext.Storage) (s : Reports.State) (w : World) :
  signed jwt_verify p storage t → signed jwt_verify p storage t' →
  let result :=
    Reports.generateReport toISOString date_toISOString
      (server p t env POST_reports_generate) (server p t' env' GET_reports)
      storage s w in
  let answer := (post_reports_generate toLowerCase toLocaleDateString env w).1 in
  impulse_logs (db result.2) = impulse_logs (db w) ∧
  Reports.generating result.1 = false ∧
  (status answer = 201 →
     (∃ r, reports (db result.2) = reports (db w) ++ [r] ∧
           Reports.report_of toISOString date_toISOString r
           ∈ Reports.reports result.1) ∧
     result.1
     = Reports.setLoading false
         (Reports.setReports
            (Reports.report_of toISOString date_toISOString
             <$> select_reports (db result.2))
            (Reports.showNotification (js "报告生成成功") Reports.success
               (Reports.setGenerating false s)))) ∧
  (status answer ≠ 201 →
     result.1
     = Reports.setGenerating false
         (Reports.showNotification (js "生成报告失败") Reports.error s) ∧
     db result.2 = db w) ∧
  (window env w = [] → status answer = 400).
Proof.
  intros Ht Ht' result answer. subst result answer.
  unfold Reports.generateReport. rewrite !route_signed by done. cbn [handler].
  assert (window env w = [] →
          status (post_reports_generate toLowerCase toLocaleDateString env w).1 = 400)
    as Hempty.
  { intros He. unfold post_reports_generate, try_catch.
    by rewrite generate_empty by done. }
  destruct (post_reports_generate_cases env w)
    as [(r & w1 & Hpost & Hdb)|(answer & w1 & Hpost & Hst & Hf & Hdb)];
    rewrite Hpost in *.
  - cbv beta iota. change (fulfilled _) with true. cbv iota.
    rewrite route_signed by done. cbn [handler].
    rewrite get_reports_eq. cbv beta iota. cbn [fst snd status]. rewrite Hdb.
    split; [done|]. split; [done|]. split; [|split; [done|exact Hempty]].
    intros _. split; [|done]. exists r. split; [done|].
    cbn [Reports.reports Reports.setLoading Reports.setReports].
    apply list_elem_of_fmap_2. unfold select_reports. apply elem_of_order_by.
    cbn [reports set_reports]. apply elem_of_app. right.
    by apply list_elem_of_singleton.
  - cbv beta iota. rewrite Hf. cbn [fst snd].
    split; [by rewrite Hdb|]. split; [done|]. split; [done|].
    split; [|exact Hempty]. intros _. by rewrite Hdb.
Qed.

End Pages.

Lemma toy_signed (t : Z) : signed toy_verify bare_process sample_storage t.
Proof.
  exists (toy_sign 1 (js "admin") (js "default-secret") 1000).
  split; [done|]. destruct (toy_token_format 1 (js "admin") (js "default-secret") 1000)
    as [Hne Hsp].
  split; [done|]. split; [done|]. by vm_compute.
Qed.

Lemma saved_log_is_listed_witness :
  ∃ r, impulse_logs (db
         (Dashboard.handleSubmit String_of toy_timestamp_in
            (fun authorization body =>
               route ascii_lower day_number day_number toy_verify bare_process
                 (page_call 5000 (env_at 5000 (Replied None)) (POST_logs body)
                    authorization))
            (fun authorization =>
               route ascii_lower day_number day_number toy_verify bare_process
                 (page_call 6000 (env_at 6000 (Replied None)) GET_logs authorization))
            sample_storage 7000
            (sample_dashboard {| Dashboard.form_datetime := js "1000";
                                 Dashboard.form_feeling := [];
                                 Dashboard.form_acted := js "no" |})
            empty_world).2)
       = [r] ∧
       Dashboard.feeling (Dashboard.entry_of String_of r) = [].
Proof.
  destruct (proj1 (saved_log_is_listed ascii_lower day_number day_number toy_verify
              String_of toy_timestamp_in bare_process 5000 6000
              (env_at 5000 (Replied None)) (env_at 6000 (Replied None))
              sample_storage 7000
              (sample_dashboard {| Dashboard.form_datetime := js "1000";
                                   Dashboard.form_feeling := [];
                                   Dashboard.form_acted := js "no" |})
              empty_world (toy_signed 5000) (toy_signed 6000))
            1000 eq_refl (not_elem_of_nil _) (or_intror eq_refl))
    as (r & Hdb & Hentry & _).
  exists r. split; [exact Hdb|]. by rewrite Hentry.
Defined.

Lemma deleted_log_leaves_the_page_witness :
  impulse_logs (db
    (Dashboard.handleDelete String_of
       (fun authorization n =>
          route ascii_lower day_number day_number toy_verify bare_process
            (page_call 5000 (env_at 5000 (Replied None)) (DELETE_logs_id n)
               authorization))
       (fun authorization =>
          route ascii_lower day_number day_number toy_verify bare_process
            (page_call 6000 (env_at 6000 (Replied None)) GET_logs authorization))
       sample_storage 1
       (sample_dashboard {| Dashboard.form_datetime := js "1000";
                            Dashboard.form_feeling := [];
                            Dashboard.form_acted := js "no" |})
       (world_of [sample_row 1 0 "sad" "no"; sample_row 2 10 "bored" "yes"])).2)
  = filter (fun r => row_id r ≠ 1)
      (impulse_logs
         (db (world_of [sample_row 1 0 "sad" "no"; sample_row 2 10 "bored" "yes"]))).
Proof.
  exact (proj1 (proj1 (deleted_log_leaves_the_page ascii_lower day_number day_number
           toy_verify String_of bare_process 5000 6000
           (env_at 5000 (Replied None)) (env_at 6000 (Replied None))
           sample_storage 1
           (sample_dashboard {| Dashboard.form_datetime := js "1000";
                                Dashboard.form_feeling := [];
                                Dashboard.form_acted := js "no" |})
           (world_of [sample_row 1 0 "sad" "no"; sample_row 2 10 "bored" "yes"])
           (toy_signed 5000) (toy_signed 6000)) eq_refl)).
Defined.

Lemma analysis_dialog_outcomes_witness :
  Dashboard.dialog_content
    (Dashboard.aiAnalysis
       (Dashboard.analyzeEmotion
          (fun authorization f =>
             route ascii_lower day_number day_number toy_verify bare_process
               (page_call 5000 (env_at 5000 (Replied None)) (POST_analyze_emotion f)
                  authorization))
          sample_storage
          (sample_dashboard {| Dashboard.form_datetime := js "1000";
                               Dashboard.form_feeling := js "sad";
                               Dashboard.form_acted := js "no" |})
          empty_world).1)
  = Dashboard.TypeError.
Proof.
  exact (proj1 (proj2 (proj2 (proj2 (analysis_dialog_outcomes ascii_lower day_number
           day_number toy_verify bare_process 5000 (env_at 5000 (Replied None))
           sample_storage
           (sample_dashboard {| Dashboard.form_datetime := js "1000";
                                Dashboard.form_feeling := js "sad";
                                Dashboard.form_acted := js "no" |})
           empty_world (toy_signed 5000)) eq_refl))) eq_refl).
Defined.

Lemma report_generated_on_the_page_witness :
  ∃ r, reports (db
         (Reports.generateReport String_of String_of
            (fun authorization =>
               route ascii_lower day_number day_number toy_verify bare_process
                 (page_call (3 * msPerDay) (env_at (3 * msPerDay) (Replied None))
                    POST_reports_generate authorization))
            (fun authorization =>
               route ascii_lower day_number day_number toy_verify bare_process
                 (page_call (4 * msPerDay) (env_at (4 * msPerDay) (Replied None))
                    GET_reports authorization))
            sample_storage
            {| Reports.reports := []; Reports.loading := false;
               Reports.generating := false;
               Reports.notification :=
                 {| Reports.open := false; Reports.message := [];
                    Reports.severity := Reports.success |} |}
            (world_of [sample_row 1 0 "sad" "no"])).2)
       = reports (db (world_of [sample_row 1 0 "sad" "no"])) ++ [r].
Proof.
  destruct (proj1 (proj1 (proj2 (proj2 (report_generated_on_the_page ascii_lower
              day_number day_number toy_verify String_of String_of bare_process
              (3 * msPerDay) (4 * msPerDay)
              (env_at (3 * msPerDay) (Replied None))
              (env_at (4 * msPerDay) (Replied None))
              sample_storage
              {| Reports.reports := []; Reports.loading := false;
                 Reports.generating := false;
                 Reports.notification :=
                   {| Reports.open := false; Reports.message := [];
                      Reports.severity := Reports.success |} |}
              (world_of [sample_row 1 0 "sad" "no"])
              (toy_signed (3 * msPerDay)) (toy_signed (4 * msPerDay)))))
            ltac:(vm_compute; reflexivity)))
    as (r & Hr & _).
  by exists r.
Defined.
